(** * ManaServ: character state engine and permission evaluator

    A shallow embedding of [src/common/permissionmanager.cpp] and of the
    transaction, point-economy, respawn and attribute-synchronisation
    parts of [src/game-server/character.cpp], with the properties the
    specification states about them.

    Conventions.
    - C++ [int] is a [Z] kept in the 32-bit two's complement range by
      [wrap_int]; [unsigned char] and [char] are [Z] with the conversions
      [to_uchar] and [to_char] written out.
    - C++ [double] is the binary64 type [float] of the standard library.
    - [std::map] is a [gmap], [std::set] a [gset] that is iterated in
      ascending order.
    - Calls that leave the translation unit (logging, network, the
      [cancel()] of a handler, queued warps, signals) are recorded, in
      program order, in a trace. Script execution and the removal of the
      entity from the world, which may come back to the character and
      change it, are parameters of the member functions that reach them;
      so are, in [Reentrant], the [cancel()] of a handler and the two
      member functions of the being component that change attributes. *)

From Stdlib Require Import ZArith Floats.
From stdpp Require Import gmap strings list sorting.

Local Open Scope Z_scope.
Local Set Warnings "-register-all,-clear-no-such-hyp".

(** ** Machine integers *)

Module CInt.

Definition INT_MIN : Z := - 2 ^ 31.
Definition INT_MAX : Z := 2 ^ 31 - 1.

(** Two's complement wrap-around of a 32-bit [int]. *)
Definition wrap_int (z : Z) : Z := (z + 2 ^ 31) mod 2 ^ 32 - 2 ^ 31.

Definition in_int (z : Z) : Prop := INT_MIN <= z <= INT_MAX.

(** Conversion to [unsigned]: reduction modulo [2^32]. *)
Definition to_unsigned (z : Z) : Z := z mod 2 ^ 32.

(** Conversion to [unsigned char]: reduction modulo 256. *)
Definition to_uchar (z : Z) : Z := z mod 256.

(** Conversion of an [unsigned char] to a (signed) [char]. *)
Definition to_char (z : Z) : Z := if z mod 256 <? 128 then z mod 256 else z mod 256 - 256.

End CInt.

(** ** The permission evaluator ([common/permissionmanager.cpp]) *)

Module PermissionManager.

Import CInt.

(** The part of a libxml2 element the loader looks at: the element
    name, its integer properties as [XML::getProperty] reads them, its
    text content and its children ([xmlChildrenNode] and the [next]
    chain). *)
Inductive xmlNode : Type :=
  XmlNode (name : string) (props : list (string * Z))
          (content : option string) (children : list xmlNode).

Definition node_name (n : xmlNode) : string :=
  match n with XmlNode s _ _ _ => s end.
Definition node_props (n : xmlNode) : list (string * Z) :=
  match n with XmlNode _ p _ _ => p end.
Definition node_content (n : xmlNode) : option string :=
  match n with XmlNode _ _ c _ => c end.
Definition xmlChildrenNode (n : xmlNode) : list xmlNode :=
  match n with XmlNode _ _ _ l => l end.

(** Modelled from the spec: [XML::getProperty] of [utils/xml.hpp] is
    not part of the sources; it reads an integer property of an
    element and yields the given default when the property is absent. *)
Fixpoint lookup_prop (key : string) (l : list (string * Z)) : option Z :=
  match l with
  | [] => None
  | (k, v) :: l' => if String.eqb k key then Some v else lookup_prop key l'
  end.

Definition getProperty (n : xmlNode) (key : string) (def : Z) : Z :=
  default def (lookup_prop key (node_props n)).

(** What [ResourceManager::loadFile], [xmlParseMemory] and
    [xmlDocGetRootElement] give for a file name. *)
Inductive FileContents : Type :=
| NoSuchFile
| Unparseable
| Document (root : option xmlNode).

Inductive LogEntry : Type :=
| Error_CouldNotFind (file : string)
| Error_WhileParsing (file : string)
| Error_NotValidDatabase (file : string)
| Info_Loading
| Warn_IllegalClassLevel (level : Z) (file : string)
| Info_PermissionList (table : gmap string Z)  (* the header and one line per entry *)
| Warn_UnknownPermission (permission : string).

(** The two file-level statics and the log. *)
Record State : Type := mkState {
  permissions : gmap string Z;
  permissionFile : string;
  log : list LogEntry
}.

Definition set_permissions (t : gmap string Z) (st : State) : State :=
  mkState t (permissionFile st) (log st).

Definition LOG (e : LogEntry) (st : State) : State :=
  mkState (permissions st) (permissionFile st) (log st ++ [e]).

(** [void addPermission(std::string permission, char mask)] *)
Definition addPermission (permission : string) (mask : Z) (st : State) : State :=
  match permissions st !! permission with
  | None => set_permissions (<[permission := to_uchar mask]> (permissions st)) st
  | Some second =>
      set_permissions (<[permission := to_uchar (Z.lor second mask)]> (permissions st)) st
  end.

(** [classmask = classmask << (level-1)] on an [unsigned char] that
    starts as [0x01]. *)
Definition classmask_of (level : Z) : Z := to_uchar (Z.shiftl 1 (level - 1)).

(** [perNode->xmlChildrenNode->content]: reading through a missing
    first child (a null [xmlChildrenNode]) has undefined behaviour in the
    source, rendered as [None]: the function does not return a defined
    result. A build may stop there with a segmentation fault; where the
    value read is not used (deny, alias) an optimising build may as well
    go on. *)
Definition first_child_content (perNode : xmlNode) : option (option string) :=
  match xmlChildrenNode perNode with
  | [] => None
  | c :: _ => Some (node_content c)
  end.

(** One iteration of the inner loop over the children of a class. *)
Definition permission_step (classmask : Z) (perNode : xmlNode) (st : State)
  : option State :=
  if String.eqb (node_name perNode) "allow" then
    match first_child_content perNode with
    | None => None
    | Some (Some permission) =>
        if (0 <? Z.of_nat (String.length permission))
        then Some (addPermission permission (to_char classmask) st)
        else Some st
    | Some None => Some st
    end
  else if String.eqb (node_name perNode) "deny" then
    match first_child_content perNode with
    | None => None
    | Some _ => Some st  (* To be implemented *)
    end
  else if String.eqb (node_name perNode) "alias" then
    match first_child_content perNode with
    | None => None
    | Some _ => Some st  (* To be implemented *)
    end
  else Some st.

Fixpoint permission_loop (classmask : Z) (perNodes : list xmlNode) (st : State)
  : option State :=
  match perNodes with
  | [] => Some st
  | perNode :: rest =>
      match permission_step classmask perNode st with
      | None => None
      | Some st' => permission_loop classmask rest st'
      end
  end.

(** One iteration of the outer loop over the children of the root. *)
Definition class_step (node : xmlNode) (st : State) : option State :=
  if negb (String.eqb (node_name node) "class") then Some st
  else
    let level := getProperty node "level" 0 in
    if (level <? 1) || (8 <? level)
    then Some (LOG (Warn_IllegalClassLevel level (permissionFile st)) st)
    else permission_loop (classmask_of level) (xmlChildrenNode node) st.

Fixpoint class_loop (nodes : list xmlNode) (st : State) : option State :=
  match nodes with
  | [] => Some st
  | node :: rest =>
      match class_step node st with
      | None => None
      | Some st' => class_loop rest st'
      end
  end.

(** [void PermissionManager::reload()] against a file system [fs]. *)
Definition reload (fs : string -> FileContents) (st : State) : option State :=
  match fs (permissionFile st) with
  | NoSuchFile => Some (LOG (Error_CouldNotFind (permissionFile st)) st)
  | Unparseable => Some (LOG (Error_WhileParsing (permissionFile st)) st)
  | Document None => Some (LOG (Error_NotValidDatabase (permissionFile st)) st)
  | Document (Some node) =>
      if negb (String.eqb (node_name node) "permissions")
      then Some (LOG (Error_NotValidDatabase (permissionFile st)) st)
      else
        match class_loop (xmlChildrenNode node) (LOG Info_Loading st) with
        | None => None
        | Some st' => Some (LOG (Info_PermissionList (permissions st')) st')
        end
  end.

(** [void PermissionManager::initialize(const std::string &file)] *)
Definition initialize (fs : string -> FileContents) (file : string) (st : State)
  : option State :=
  reload fs (mkState (permissions st) file (log st)).

Inductive Result : Type := PMR_ALLOWED | PMR_DENIED | PMR_UNKNOWN.

(** [PermissionManager::checkPermission]; [accountLevel] is what
    [character->getAccountLevel()] returns. *)
Definition checkPermission (accountLevel : Z) (permission : string) (st : State)
  : Result * State :=
  match permissions st !! permission with
  | None => (PMR_UNKNOWN, LOG (Warn_UnknownPermission permission) st)
  | Some second =>
      if Z.eqb (Z.land accountLevel second) 0
      then (PMR_DENIED, st)
      else (PMR_ALLOWED, st)
  end.

(** Two bitmasks intersect when some bit is set in both. *)
Definition intersects (a b : Z) : Prop :=
  exists i, Z.testbit a i = true /\ Z.testbit b i = true.

(** Every stored mask is an [unsigned char]. *)
Definition table_wf (t : gmap string Z) : Prop :=
  forall p m, t !! p = Some m -> 0 <= m < 256.

(** The permission names a class element allows: the non-empty
    contents of the first child of each of its [allow] elements. *)
Definition allowed_name (perNode : xmlNode) : option string :=
  if String.eqb (node_name perNode) "allow" then
    match first_child_content perNode with
    | Some (Some permission) =>
        if (0 <? Z.of_nat (String.length permission)) then Some permission else None
    | _ => None
    end
  else None.

Definition allowed_names (perNodes : list xmlNode) : list string :=
  omap allowed_name perNodes.

(** No [allow], [deny] or [alias] element is empty, so the loader
    never dereferences a missing child. *)
Definition has_text_child (perNode : xmlNode) : Prop :=
  (node_name perNode = "allow" \/ node_name perNode = "deny"
   \/ node_name perNode = "alias") ->
  xmlChildrenNode perNode <> [].

(** *** Notions used in the properties, and an example file *)

(** The bit that a class of the given level owns. *)
Definition level_bit (level : Z) : Z := Z.shiftl 1 (level - 1).

Definition same_table (st1 st2 : State) : Prop :=
  permissions st1 = permissions st2 /\ permissionFile st1 = permissionFile st2.

Definition same_result (r1 r2 : option State) : Prop :=
  match r1, r2 with
  | Some st1, Some st2 => same_table st1 st2
  | None, None => True
  | _, _ => False
  end.

(** A permission file with a class of level 0, a class of level 9 and
    a class of level 3. *)
Definition text (s : string) : xmlNode := XmlNode "text" [] (Some s) [].
Definition allow (s : string) : xmlNode := XmlNode "allow" [] None [text s].
Definition class (level : Z) (perNodes : list xmlNode) : xmlNode :=
  XmlNode "class" [("level", level)] None perNodes.
Definition example_children : list xmlNode :=
  [class 0 [allow "@kick"]; class 9 [allow "@ban"]; class 3 [allow "@warp"; allow "@kick"]].
Definition example_state : State := mkState ∅ "permissions.xml" [].

End PermissionManager.

(** ** The character component ([game-server/character.cpp]) *)

Module Character.

Import CInt.

(** *** Data *)

(** Addresses of [Trade] and [BuySell] objects; [0] is [nullptr]. *)
Definition ptr : Type := N.
Definition nullptr : ptr := 0%N.

(** [void *mTransactionHandler]: an address together with the pointer
    type it was converted from. *)
Inductive void_ptr : Type :=
| void_null
| of_Trade (t : ptr)
| of_BuySell (b : ptr).

(** [static_cast<T *>(handler)] keeps the address. *)
Definition static_cast (h : void_ptr) : ptr :=
  match h with
  | void_null => nullptr
  | of_Trade t => t
  | of_BuySell b => b
  end.

Inductive TransactionType : Type := TRANS_NONE | TRANS_TRADE | TRANS_BUYSELL.

Inductive AttribmodResponseCode : Type :=
| ATTRIBMOD_OK
| ATTRIBMOD_INVALID_ATTRIBUTE
| ATTRIBMOD_NO_POINTS_LEFT
| ATTRIBMOD_DENIED.

(** Modelled from the spec: the action state of a being, declared
    outside the sources; the code names only the dead and the standing
    state. *)
Inductive BeingAction : Type := STAND | DEAD | OTHER_ACTION (n : nat).

(** Modelled from the spec: an attribute holds a base value and a
    modifier stack; its modified value is the base plus the modifiers,
    recomputed on demand. *)
Record Attribute : Type := mkAttribute {
  mBase : float;
  mMods : list float
}.

(** Modelled from the spec: the being component of [game-server/being.h],
    as far as the character component uses it. *)
Record BeingComponent : Type := mkBeing {
  mAction : BeingAction;
  mAttributes : gmap Z Attribute
}.

(** Outbound messages: an opcode tag followed by the written fields.
    The byte-level codec is outside the sources; a field records the
    write primitive and the argument the code passes to it
    ([Int32_of_double] when the argument is a [double] expression). *)
Inductive Opcode : Type :=
| GPMSG_PLAYER_ATTRIBUTE_CHANGE
| GPMSG_ATTRIBUTE_POINTS_STATUS
| GPMSG_ABILITY_STATUS
| GPMSG_ABILITY_COOLDOWN
| GPMSG_NPC_CLOSE.

Inductive Field : Type :=
| Int8 (v : Z)
| Int16 (v : Z)
| Int32 (v : Z)
| Int32_of_double (v : float).

Record MessageOut : Type := mkMessageOut {
  msg_id : Opcode;
  msg_fields : list Field
}.

Definition field_size (f : Field) : Z :=
  match f with
  | Int8 _ => 1
  | Int16 _ => 2
  | Int32 _ | Int32_of_double _ => 4
  end.

(** Modelled from the spec: a message starts with its two-byte opcode
    tag, so its length exceeds 2 exactly when a field was written. *)
Definition getLength (m : MessageOut) : Z :=
  2 + foldr (fun f n => field_size f + n) 0 (msg_fields m).

Definition write (f : Field) (m : MessageOut) : MessageOut :=
  mkMessageOut (msg_id m) (msg_fields m ++ [f]).

(** [Script::Ref]: [None] is a reference that is not valid. *)
Definition Script_Ref : Type := option N.

(** Calls that leave [character.cpp], in program order. *)
Inductive Event : Type :=
| Trade_cancel (t : ptr)
| BuySell_cancel (b : ptr)
| LOG_WARN_respawn_without_being_dead
| Script_prepare (function : N)
| Script_push_entity
| AccountHandler_updateAttributes (databaseID attr : Z) (base modified : float)
| Being_updateDerivedAttributes (attr : Z)
| GameState_enqueueWarp (map x y : Z)
| Signal_disconnected
| GameHandler_sendTo (msg : MessageOut).

Record CharacterComponent : Type := mkCharacter {
  mConnected : bool;
  mTransactionHandler : void_ptr;
  mDatabaseID : Z;
  mSendAttributePointsStatus : bool;
  mAttributePoints : Z;
  mCorrectionPoints : Z;
  mTransaction : TransactionType;
  mModifiedAttributes : gset Z
}.

(** The entity with the components and the process-wide state the
    character component reaches, and the trace of outgoing calls. *)
Record World : Type := mkWorld {
  character : CharacterComponent;
  being : BeingComponent;
  entityMap : Z;
  actorPosition : Z * Z;
  mDeathAcceptedCallback : Script_Ref;
  configuration : gmap string Z;
  trace : list Event
}.

Definition set_character (c : CharacterComponent) (w : World) : World :=
  mkWorld c (being w) (entityMap w) (actorPosition w)
          (mDeathAcceptedCallback w) (configuration w) (trace w).

Definition set_being (b : BeingComponent) (w : World) : World :=
  mkWorld (character w) b (entityMap w) (actorPosition w)
          (mDeathAcceptedCallback w) (configuration w) (trace w).

Definition set_trace (t : list Event) (w : World) : World :=
  mkWorld (character w) (being w) (entityMap w) (actorPosition w)
          (mDeathAcceptedCallback w) (configuration w) t.

Definition set_mConnected (x : bool) (c : CharacterComponent) :=
  mkCharacter x (mTransactionHandler c) (mDatabaseID c)
    (mSendAttributePointsStatus c) (mAttributePoints c) (mCorrectionPoints c)
    (mTransaction c) (mModifiedAttributes c).

Definition set_mTransactionHandler (x : void_ptr) (c : CharacterComponent) :=
  mkCharacter (mConnected c) x (mDatabaseID c)
    (mSendAttributePointsStatus c) (mAttributePoints c) (mCorrectionPoints c)
    (mTransaction c) (mModifiedAttributes c).

Definition set_mSendAttributePointsStatus (x : bool) (c : CharacterComponent) :=
  mkCharacter (mConnected c) (mTransactionHandler c) (mDatabaseID c)
    x (mAttributePoints c) (mCorrectionPoints c)
    (mTransaction c) (mModifiedAttributes c).

Definition set_mAttributePoints (x : Z) (c : CharacterComponent) :=
  mkCharacter (mConnected c) (mTransactionHandler c) (mDatabaseID c)
    (mSendAttributePointsStatus c) x (mCorrectionPoints c)
    (mTransaction c) (mModifiedAttributes c).

Definition set_mCorrectionPoints (x : Z) (c : CharacterComponent) :=
  mkCharacter (mConnected c) (mTransactionHandler c) (mDatabaseID c)
    (mSendAttributePointsStatus c) (mAttributePoints c) x
    (mTransaction c) (mModifiedAttributes c).

Definition set_mTransaction (x : TransactionType) (c : CharacterComponent) :=
  mkCharacter (mConnected c) (mTransactionHandler c) (mDatabaseID c)
    (mSendAttributePointsStatus c) (mAttributePoints c) (mCorrectionPoints c)
    x (mModifiedAttributes c).

Definition set_mModifiedAttributes (x : gset Z) (c : CharacterComponent) :=
  mkCharacter (mConnected c) (mTransactionHandler c) (mDatabaseID c)
    (mSendAttributePointsStatus c) (mAttributePoints c) (mCorrectionPoints c)
    (mTransaction c) x.

(** *** The monad of member functions

    A member function reads and updates the world and may abort on a
    failed [assert] ([None]). *)
Definition M (A : Type) : Type := World -> option (A * World).

#[export] Instance M_ret : MRet M := fun A a w => Some (a, w).

#[export] Instance M_bind : MBind M := fun A B k m w =>
  match m w with
  | None => None
  | Some (a, w') => k a w'
  end.

Definition world : M World := fun w => Some (w, w).
Definition this : M CharacterComponent := fun w => Some (character w, w).
Definition update_this (f : CharacterComponent -> CharacterComponent) : M unit :=
  fun w => Some (tt, set_character (f (character w)) w).
Definition update_being (f : BeingComponent -> BeingComponent) : M unit :=
  fun w => Some (tt, set_being (f (being w)) w).
Definition call (e : Event) : M unit :=
  fun w => Some (tt, set_trace (trace w ++ [e]) w).
Definition assert (b : bool) : M unit :=
  fun w => if b then Some (tt, w) else None.

(** The world a member function leaves, and the value it returns. *)
Definition exec {A} (m : M A) (w : World) : option World := snd <$> m w.
Definition eval {A} (m : M A) (w : World) : option A := fst <$> m w.

(** *** Collaborators *)

(** Modelled from the spec: [getAction], [setAction], [getAttributeBase]
    and [getModifiedAttribute] of the being component are not part of
    the sources. The two attribute getters are pure reads; an attribute
    the being does not hold reads as zero. *)
Definition getAction (b : BeingComponent) : BeingAction := mAction b.

Definition is_DEAD (a : BeingAction) : bool :=
  match a with DEAD => true | _ => false end.

Definition setAction (a : BeingAction) : M unit :=
  update_being (fun b => mkBeing a (mAttributes b)).

Definition getAttributeBase (b : BeingComponent) (id : Z) : float :=
  match mAttributes b !! id with
  | Some a => mBase a
  | None => 0%float
  end.

Definition getModifiedAttribute (b : BeingComponent) (id : Z) : float :=
  match mAttributes b !! id with
  | Some a => fold_left PrimFloat.add (mMods a) (mBase a)
  | None => 0%float
  end.

(** Modelled from the spec: the update of the base value that
    [setAttribute] makes, without the notification; the modifier stack of
    the attribute is kept. *)
Definition setBase (id : Z) (value : float) (b : BeingComponent) : BeingComponent :=
  mkBeing (mAction b)
    (<[id := mkAttribute value (from_option mMods [] (mAttributes b !! id))]>
       (mAttributes b)).

(** Modelled from the spec: [Configuration::getValue] gives the
    configured value of a key, or the default when the key is not
    configured. *)
Definition getValue (conf : gmap string Z) (key : string) (deflt : Z) : Z :=
  default deflt (conf !! key).

(** Modelled from the spec: [setAttributePoints] and
    [setCorrectionPoints] of [character.h] store the counter and raise
    the pending points-status flag. *)
Definition setAttributePoints (points : Z) : M unit :=
  update_this (set_mAttributePoints points);;
  update_this (set_mSendAttributePointsStatus true).

Definition setCorrectionPoints (points : Z) : M unit :=
  update_this (set_mCorrectionPoints points);;
  update_this (set_mSendAttributePointsStatus true).

(** [std::set<size_t>] is traversed in ascending order. *)
Definition iterate (s : gset Z) : list Z := merge_sort Z.le (elements s).

(** *** Member functions of [CharacterComponent] *)

(** The member initialisers of the constructor. *)
Definition member_initializers : CharacterComponent :=
  mkCharacter true void_null (-1) false 0 0 TRANS_NONE ∅.

(** [void CharacterComponent::cancelTransaction()] *)
Definition cancelTransaction : M unit :=
  c ← this;
  let t := mTransaction c in
  update_this (set_mTransaction TRANS_NONE);;
  match t with
  | TRANS_TRADE => call (Trade_cancel (static_cast (mTransactionHandler c)))
  | TRANS_BUYSELL => call (BuySell_cancel (static_cast (mTransactionHandler c)))
  | TRANS_NONE => mret tt
  end.

(** [Trade *CharacterComponent::getTrading() const] *)
Definition getTrading (c : CharacterComponent) : ptr :=
  match mTransaction c with
  | TRANS_TRADE => static_cast (mTransactionHandler c)
  | _ => nullptr
  end.

(** [BuySell *CharacterComponent::getBuySell() const] *)
Definition getBuySell (c : CharacterComponent) : ptr :=
  match mTransaction c with
  | TRANS_BUYSELL => static_cast (mTransactionHandler c)
  | _ => nullptr
  end.

(** [void CharacterComponent::setTrading(Trade *t)] *)
Definition setTrading (t : ptr) : M unit :=
  if negb (N.eqb t nullptr) then
    cancelTransaction;;
    update_this (set_mTransactionHandler (of_Trade t));;
    update_this (set_mTransaction TRANS_TRADE)
  else
    c ← this;
    assert (match mTransaction c with
            | TRANS_NONE | TRANS_TRADE => true
            | TRANS_BUYSELL => false
            end);;
    update_this (set_mTransaction TRANS_NONE).

(** [void CharacterComponent::setBuySell(BuySell *t)] *)
Definition setBuySell (t : ptr) : M unit :=
  if negb (N.eqb t nullptr) then
    cancelTransaction;;
    update_this (set_mTransactionHandler (of_BuySell t));;
    update_this (set_mTransaction TRANS_BUYSELL)
  else
    c ← this;
    assert (match mTransaction c with
            | TRANS_NONE | TRANS_BUYSELL => true
            | TRANS_TRADE => false
            end);;
    update_this (set_mTransaction TRANS_NONE).

(** [void attributeChanged(Entity *entity, unsigned attr)] *)
Definition attributeChanged (attr : Z) : M unit :=
  w ← world;
  call (AccountHandler_updateAttributes (mDatabaseID (character w)) attr
          (getAttributeBase (being w) attr)
          (getModifiedAttribute (being w) attr));;
  update_this (fun c => set_mModifiedAttributes ({[attr]} ∪ mModifiedAttributes c) c).

(** Modelled from the spec: [setAttribute] updates the base value and
    marks the attribute dirty; the mark is the slot [attributeChanged]
    that the constructor connects to [signal_attribute_changed]. *)
Definition setAttribute (id : Z) (value : float) : M unit :=
  update_being (setBase id value);;
  attributeChanged id.

(** The body of the loop of [sendStatus]. *)
Definition write_attribute (b : BeingComponent) (attribMsg : MessageOut) (i : Z)
  : MessageOut :=
  let attr := wrap_int i in
  write (Int32_of_double
           (PrimFloat.mul (getModifiedAttribute b (to_unsigned attr)) 256%float))
    (write (Int32_of_double
              (PrimFloat.mul (getAttributeBase b (to_unsigned attr)) 256%float))
       (write (Int16 attr) attribMsg)).

(** [void CharacterComponent::sendStatus(Entity &entity)] *)
Definition sendStatus : M unit :=
  w ← world;
  let attribMsg :=
    fold_left (write_attribute (being w))
      (iterate (mModifiedAttributes (character w)))
      (mkMessageOut GPMSG_PLAYER_ATTRIBUTE_CHANGE []) in
  (if 2 <? getLength attribMsg then call (GameHandler_sendTo attribMsg) else mret tt);;
  update_this (set_mModifiedAttributes ∅).

Section Collaborators.

(** [attributeManager->isAttributeDirectlyModifiable] and the two
    attribute identifiers are declared outside the sources. *)
Variable isAttributeDirectlyModifiable : Z -> bool.
Variables ATTR_HP ATTR_MAX_HP : Z.

(** [script->execute(map)] on a prepared function and
    [GameState::remove(&entity)] run code outside the sources that may
    come back to the character and change it; each is an arbitrary
    computation on the world. *)
Variable Script_execute : N -> Z -> M unit.
Variable GameState_remove : M unit.

(** [static bool executeCallback(Script::Ref function, Entity &entity)] *)
Definition executeCallback (function : Script_Ref) : M bool :=
  match function with
  | None => mret false
  | Some f =>
      w ← world;
      call (Script_prepare f);;
      call Script_push_entity;;
      Script_execute f (entityMap w);;
      mret true
  end.

(** [void CharacterComponent::respawn(Entity &entity)] *)
Definition respawn : M unit :=
  w ← world;
  if negb (is_DEAD (getAction (being w))) then
    call LOG_WARN_respawn_without_being_dead
  else
    setAction STAND;;
    done_by_script ← executeCallback (mDeathAcceptedCallback w);
    if done_by_script : bool then mret tt
    else
      w ← world;
      let maxHp := getModifiedAttribute (being w) (to_unsigned ATTR_MAX_HP) in
      setAttribute (to_unsigned ATTR_HP) maxHp;;
      let spawnMap := getValue (configuration w) "char_respawnMap" 1 in
      let spawnX := getValue (configuration w) "char_respawnX" 1024 in
      let spawnY := getValue (configuration w) "char_respawnY" 1024 in
      call (GameState_enqueueWarp spawnMap spawnX spawnY).

(** [AttribmodResponseCode CharacterComponent::useCharacterPoint(Entity &, int)] *)
Definition useCharacterPoint (attribute : Z) : M AttribmodResponseCode :=
  if negb (isAttributeDirectlyModifiable attribute) then
    mret ATTRIBMOD_INVALID_ATTRIBUTE
  else
    c ← this;
    if mAttributePoints c =? 0 then mret ATTRIBMOD_NO_POINTS_LEFT
    else
      setAttributePoints (wrap_int (mAttributePoints c - 1));;
      w ← world;
      let base := getAttributeBase (being w) (to_unsigned attribute) in
      setAttribute (to_unsigned attribute) (PrimFloat.add base 1%float);;
      call (Being_updateDerivedAttributes (to_unsigned attribute));;
      mret ATTRIBMOD_OK.

(** [AttribmodResponseCode CharacterComponent::useCorrectionPoint(Entity &, int)] *)
Definition useCorrectionPoint (attribute : Z) : M AttribmodResponseCode :=
  if negb (isAttributeDirectlyModifiable attribute) then
    mret ATTRIBMOD_INVALID_ATTRIBUTE
  else
    w ← world;
    if mCorrectionPoints (character w) =? 0 then mret ATTRIBMOD_NO_POINTS_LEFT
    else if PrimFloat.leb (getAttributeBase (being w) (to_unsigned attribute)) 1%float
    then mret ATTRIBMOD_DENIED
    else
      setCorrectionPoints (wrap_int (mCorrectionPoints (character w) - 1));;
      c ← this;
      setAttributePoints (wrap_int (mAttributePoints c + 1));;
      w ← world;
      let base := getAttributeBase (being w) (to_unsigned attribute) in
      setAttribute (to_unsigned attribute) (PrimFloat.sub base 1%float);;
      mret ATTRIBMOD_OK.

(** [void CharacterComponent::disconnected(Entity &entity)] *)
Definition disconnected : M unit :=
  update_this (set_mConnected false);;
  w ← world;
  (if is_DEAD (getAction (being w)) then respawn else GameState_remove);;
  call Signal_disconnected.

(** The world the hardcoded fallback of [respawn] leaves. *)
Definition respawned (w : World) : World :=
  let maxHp := getModifiedAttribute (being w) (to_unsigned ATTR_MAX_HP) in
  let b := setBase (to_unsigned ATTR_HP) maxHp (mkBeing STAND (mAttributes (being w))) in
  mkWorld
    (set_mModifiedAttributes
       ({[to_unsigned ATTR_HP]} ∪ mModifiedAttributes (character w)) (character w))
    b (entityMap w) (actorPosition w) (mDeathAcceptedCallback w) (configuration w)
    (trace w ++
       [AccountHandler_updateAttributes (mDatabaseID (character w))
          (to_unsigned ATTR_HP)
          (getAttributeBase b (to_unsigned ATTR_HP))
          (getModifiedAttribute b (to_unsigned ATTR_HP));
        GameState_enqueueWarp
          (getValue (configuration w) "char_respawnMap" 1)
          (getValue (configuration w) "char_respawnX" 1024)
          (getValue (configuration w) "char_respawnY" 1024)]).

End Collaborators.

(** *** Notions used in the properties, and example worlds *)



(** The worlds reached from a freshly constructed character by calls
    of [setTrading], [setBuySell] and [cancelTransaction] that return
    (a failed [assert] ends the run). *)
Inductive reachable : World -> Prop :=
| reach_constructed w :
    mTransactionHandler (character w) = mTransactionHandler member_initializers ->
    mTransaction (character w) = mTransaction member_initializers ->
    reachable w
| reach_setTrading w w' t :
    reachable w -> exec (setTrading t) w = Some w' -> reachable w'
| reach_setBuySell w w' t :
    reachable w -> exec (setBuySell t) w = Some w' -> reachable w'
| reach_cancelTransaction w w' :
    reachable w -> exec cancelTransaction w = Some w' -> reachable w'.

(** Consistency of tag and handler field, as the specification words it. *)
Definition consistent_field (c : CharacterComponent) : Prop :=
  match mTransaction c with
  | TRANS_NONE => mTransactionHandler c = void_null
  | TRANS_TRADE => exists t, t <> nullptr /\ mTransactionHandler c = of_Trade t
  | TRANS_BUYSELL => exists b, b <> nullptr /\ mTransactionHandler c = of_BuySell b
  end.

(** Consistency of tag and handler as the code keeps it: without a
    transaction both getters answer null, whatever the field holds. *)
Definition consistent (c : CharacterComponent) : Prop :=
  match mTransaction c with
  | TRANS_NONE => getTrading c = nullptr /\ getBuySell c = nullptr
  | TRANS_TRADE => exists t, t <> nullptr /\ mTransactionHandler c = of_Trade t
  | TRANS_BUYSELL => exists b, b <> nullptr /\ mTransactionHandler c = of_BuySell b
  end.

(** A run of [attributeChanged] notifications, one per mutation. *)
Fixpoint attributeChanged_all (l : list Z) : M unit :=
  match l with
  | [] => mret tt
  | attr :: l' => attributeChanged attr;; attributeChanged_all l'
  end.

(** The fields that the loop of [sendStatus] writes for one dirty id. *)
Definition entry (b : BeingComponent) (i : Z) : list Field :=
  [Int16 (wrap_int i);
   Int32_of_double (PrimFloat.mul (getAttributeBase b (to_unsigned (wrap_int i))) 256%float);
   Int32_of_double (PrimFloat.mul (getModifiedAttribute b (to_unsigned (wrap_int i))) 256%float)].

(** The attribute ids a message lists: the arguments of its
    [writeInt16] calls. *)
Definition listed_ids (m : MessageOut) : list Z :=
  omap (fun f => match f with Int16 v => Some v | _ => None end) (msg_fields m).

(** The values of the type [unsigned]. *)
Definition is_unsigned (a : Z) : Prop := 0 <= a < 2 ^ 32.

(** The calls a member function adds to the trace of [w]. *)
Definition new_calls (w w' : World) : list Event := drop (length (trace w)) (trace w').

(** The world after the notifications [l]. *)
Definition notified (l : list Z) (w : World) : World :=
  mkWorld
    (set_mModifiedAttributes
       (list_to_set l ∪ mModifiedAttributes (character w)) (character w))
    (being w) (entityMap w) (actorPosition w) (mDeathAcceptedCallback w)
    (configuration w)
    (trace w ++
       map (fun attr =>
              AccountHandler_updateAttributes (mDatabaseID (character w)) attr
                (getAttributeBase (being w) attr)
                (getModifiedAttribute (being w) attr)) l).

(** The message [sendStatus] builds for a world. *)
Definition status_message (w : World) : MessageOut :=
  mkMessageOut GPMSG_PLAYER_ATTRIBUTE_CHANGE
    (flat_map (entry (being w)) (iterate (mModifiedAttributes (character w)))).

Definition example_character : CharacterComponent :=
  mkCharacter true (of_Trade 7%N) 42 false 2 1 TRANS_TRADE ∅.

Definition example_being (a : BeingAction) : BeingComponent :=
  mkBeing a {[ 1 := mkAttribute 5%float []; 13 := mkAttribute 0%float [];
               14 := mkAttribute 20%float [2%float; 3%float] ]}.

Definition example_world (a : BeingAction) : World :=
  mkWorld example_character (example_being a) 3 (100, 200) None ∅ [].

Definition fresh_world : World :=
  mkWorld member_initializers (example_being STAND) 3 (100, 200) None ∅ [].

(** Only the attribute 1 is directly modifiable in the examples. *)
Definition only_1 (attribute : Z) : bool := attribute =? 1.

(** A character with two attribute points and one correction point
    whose attribute 1 has the given base. *)
Definition world_with_base (base : float) : World :=
  mkWorld (mkCharacter true void_null 42 false 2 1 TRANS_NONE ∅)
          (mkBeing STAND {[ 1 := mkAttribute base [] ]}) 3 (100, 200) None ∅ [].

End Character.

(** ** The table a permission file describes *)

Module PermissionTable.

Import CInt PermissionManager.

(** The level of an element of the root, when [reload] takes it for a
    class with a legal level. *)
Definition class_level (node : xmlNode) : option Z :=
  if negb (String.eqb (node_name node) "class") then None
  else
    let level := getProperty node "level" 0 in
    if (level <? 1) || (8 <? level) then None else Some level.

(** The bit an element of the root gives to a permission name. *)
Definition grant (node : xmlNode) (p : string) : option Z :=
  match class_level node with
  | Some level =>
      if bool_decide (p ∈ allowed_names (xmlChildrenNode node))
      then Some (level_bit level) else None
  | None => None
  end.

(** Union of two optional bitmasks. *)
Definition join (a b : option Z) : option Z :=
  match a, b with
  | Some x, Some y => Some (Z.lor x y)
  | Some x, None => Some x
  | None, _ => b
  end.

(** The bits the elements of the root give to a permission name;
    [None] when none of them declares the name. *)
Definition granted (nodes : list xmlNode) (p : string) : option Z :=
  foldr (fun node acc => join (grant node p) acc) None nodes.

(** An element of the root that [reload] gets through: a class with a
    legal level has no empty allow, deny or alias element. *)
Definition class_ok (node : xmlNode) : Prop :=
  match class_level node with
  | Some _ => Forall has_text_child (xmlChildrenNode node)
  | None => True
  end.

(** A class element without its deny and alias elements. *)
Definition is_deny_or_alias (perNode : xmlNode) : bool :=
  String.eqb (node_name perNode) "deny" || String.eqb (node_name perNode) "alias".

Definition without_deny_alias (node : xmlNode) : xmlNode :=
  XmlNode (node_name node) (node_props node) (node_content node)
    (filter (fun perNode => is_deny_or_alias perNode = false) (xmlChildrenNode node)).

(** An allow, deny or alias element without a child: [reload]
    dereferences the missing child. *)
Definition empty_decl (perNode : xmlNode) : Prop :=
  (node_name perNode = "allow" \/ node_name perNode = "deny"
   \/ node_name perNode = "alias")
  /\ xmlChildrenNode perNode = [].

(** A class with a legal level that holds such an element. *)
Definition reads_null_child (node : xmlNode) : Prop :=
  is_Some (class_level node) /\ Exists empty_decl (xmlChildrenNode node).

(** A class of the given level allows the permission name. *)
Definition allows (node : xmlNode) (level : Z) (p : string) : Prop :=
  class_level node = Some level /\ p ∈ allowed_names (xmlChildrenNode node).

(** A file system that holds one document with the root [permissions]. *)
Definition document (nodes : list xmlNode) : string -> FileContents :=
  fun _ => Document (Some (XmlNode "permissions" [] None nodes)).

(** An example: moderators (level 2) may kick, administrators (level 8)
    may kick and ban; a class of level 9 is ignored. *)
Definition deny (s : string) : xmlNode := XmlNode "deny" [] None [text s].
Definition example_classes : list xmlNode :=
  [class 2 [allow "@kick"; deny "@ban"]; XmlNode "text" [] (Some " ") [];
   class 8 [allow "@kick"; allow "@ban"]; class 9 [allow "@shutdown"]].

End PermissionTable.

(** ** The rest of the character component *)

Module CharacterRest.

Import CInt Character.

(** *** Data *)

(** Modelled from the spec: the ability component maps an ability id to
    the time its recharge has left ([rechargeTimeout.remaining()]) and
    holds the global cooldown. *)
Record AbilityComponent : Type := mkAbilityComponent {
  getAbilities : gmap Z Z;
  globalCooldown : Z
}.

(** The members of [CharacterComponent] that the parts above do not
    read. [mModifiedAbilities] is a set of [unsigned], as the loop of
    [sendAbilityUpdate] reads it; [mNpcThread] is the address of a
    [Script::Thread], 0 for null. *)
Record Members : Type := mkMembers {
  mModifiedAbilities : gset Z;
  mSendAbilityCooldown : bool;
  mKillCount : gmap Z Z;
  mTalkNpcId : Z;
  mNpcThread : N
}.

(** The world with these members, the ability component of the entity,
    the other two static callbacks, the thread the script engine runs
    ([script->getCurrentThread()]) and the threads destroyed by
    [delete], oldest first. *)
Record WorldX : Type := mkWorldX {
  core : World;
  members : Members;
  abilityComponent : AbilityComponent;
  mDeathCallback : Script_Ref;
  mLoginCallback : Script_Ref;
  currentThread : N;
  deleted : list N
}.

Definition set_core (w : World) (x : WorldX) : WorldX :=
  mkWorldX w (members x) (abilityComponent x) (mDeathCallback x) (mLoginCallback x)
           (currentThread x) (deleted x).

Definition set_members (m : Members) (x : WorldX) : WorldX :=
  mkWorldX (core x) m (abilityComponent x) (mDeathCallback x) (mLoginCallback x)
           (currentThread x) (deleted x).

Definition set_deleted (d : list N) (x : WorldX) : WorldX :=
  mkWorldX (core x) (members x) (abilityComponent x) (mDeathCallback x)
           (mLoginCallback x) (currentThread x) d.

Definition set_mModifiedAbilities (s : gset Z) (m : Members) : Members :=
  mkMembers s (mSendAbilityCooldown m) (mKillCount m) (mTalkNpcId m) (mNpcThread m).

Definition set_mSendAbilityCooldown (b : bool) (m : Members) : Members :=
  mkMembers (mModifiedAbilities m) b (mKillCount m) (mTalkNpcId m) (mNpcThread m).

Definition set_mKillCount (k : gmap Z Z) (m : Members) : Members :=
  mkMembers (mModifiedAbilities m) (mSendAbilityCooldown m) k (mTalkNpcId m)
            (mNpcThread m).

Definition set_mTalkNpcId (n : Z) (m : Members) : Members :=
  mkMembers (mModifiedAbilities m) (mSendAbilityCooldown m) (mKillCount m) n
            (mNpcThread m).

Definition set_mNpcThread (t : N) (m : Members) : Members :=
  mkMembers (mModifiedAbilities m) (mSendAbilityCooldown m) (mKillCount m)
            (mTalkNpcId m) t.

(** *** The monad of member functions on the larger world *)

Definition MX (A : Type) : Type := WorldX -> option (A * WorldX).

#[export] Instance MX_ret : MRet MX := fun A a x => Some (a, x).

#[export] Instance MX_bind : MBind MX := fun A B k m x =>
  match m x with
  | None => None
  | Some (a, x') => k a x'
  end.

Definition worldX : MX WorldX := fun x => Some (x, x).
Definition update_members (f : Members -> Members) : MX unit :=
  fun x => Some (tt, set_members (f (members x)) x).
Definition assertX (b : bool) : MX unit :=
  fun x => if b then Some (tt, x) else None.

(** A member function of the parts above, run on the larger world. *)
Definition lift {A} (m : M A) : MX A :=
  fun x => match m (core x) with
           | None => None
           | Some (a, w) => Some (a, set_core w x)
           end.

(** *** Member functions *)

(** [void CharacterComponent::abilityStatusChanged(int id)] *)
Definition abilityStatusChanged (id : Z) : MX unit :=
  update_members
    (fun m => set_mModifiedAbilities ({[to_unsigned id]} ∪ mModifiedAbilities m) m).

(** [void CharacterComponent::abilityCooldownActivated()] *)
Definition abilityCooldownActivated : MX unit :=
  update_members (set_mSendAbilityCooldown true).

(** The body of the loop of [sendAbilityUpdate]; an id that is not in
    the ability table ("got deleted") writes nothing. *)
Definition write_ability (abilities : gmap Z Z) (msg : MessageOut) (id : Z)
  : MessageOut :=
  match abilities !! id with
  | None => msg
  | Some remaining => write (Int32 remaining) (write (Int8 id) msg)
  end.

(** [void CharacterComponent::sendAbilityUpdate(Entity &entity)] *)
Definition sendAbilityUpdate : MX unit :=
  x ← worldX;
  let abilities := getAbilities (abilityComponent x) in
  let msg :=
    fold_left (write_ability abilities) (iterate (mModifiedAbilities (members x)))
      (mkMessageOut GPMSG_ABILITY_STATUS []) in
  update_members (set_mModifiedAbilities ∅);;
  lift (call (GameHandler_sendTo msg)).

(** [void CharacterComponent::sendAbilityCooldownUpdate(Entity &entity)] *)
Definition sendAbilityCooldownUpdate : MX unit :=
  x ← worldX;
  lift (call (GameHandler_sendTo
                (write (Int16 (globalCooldown (abilityComponent x)))
                   (mkMessageOut GPMSG_ABILITY_COOLDOWN []))));;
  update_members (set_mSendAbilityCooldown false).

(** [void CharacterComponent::sendAttributePointsStatus(Entity &entity)] *)
Definition sendAttributePointsStatus : M unit :=
  c ← this;
  call (GameHandler_sendTo
          (write (Int16 (mCorrectionPoints c))
             (write (Int16 (mAttributePoints c))
                (mkMessageOut GPMSG_ATTRIBUTE_POINTS_STATUS []))));;
  update_this (set_mSendAttributePointsStatus false).

(** [void CharacterComponent::update(Entity &entity)] *)
Definition update : MX unit :=
  x ← worldX;
  if is_DEAD (getAction (being (core x))) then mret tt
  else
    (if negb (bool_decide (mModifiedAbilities (members x) = ∅))
     then sendAbilityUpdate else mret tt);;
    x ← worldX;
    (if mSendAbilityCooldown (members x)
     then sendAbilityCooldownUpdate else mret tt);;
    x ← worldX;
    (if mSendAttributePointsStatus (character (core x))
     then lift sendAttributePointsStatus else mret tt).

(** [void CharacterComponent::incrementKillCount(int monsterType)] *)
Definition incrementKillCount (monsterType : Z) : MX unit :=
  update_members
    (fun m =>
       match mKillCount m !! monsterType with
       | None => set_mKillCount (<[monsterType := 1]> (mKillCount m)) m
       | Some count =>
           set_mKillCount (<[monsterType := wrap_int (count + 1)]> (mKillCount m)) m
       end).

(** [int CharacterComponent::getKillCount(int monsterType) const] *)
Definition getKillCount (m : Members) (monsterType : Z) : Z :=
  match mKillCount m !! monsterType with
  | Some count => count
  | None => 0
  end.

Section Scripts.

(** As before, what the script engine runs is a parameter:
    [script->execute(map)] for a callback, [script->resume()] for the
    thread of a conversation, which reports whether the thread is done.
    [recalculateBaseAttribute] of the being component is one more. *)
Variable Script_execute : N -> Z -> M unit.
Variable Script_resume : MX bool.
Variable recalculateBaseAttribute : Z -> M unit.

(** [void CharacterComponent::characterDied(Entity *being)] *)
Definition characterDied : MX unit :=
  x ← worldX;
  lift (executeCallback Script_execute (mDeathCallback x));;
  mret tt.

(** [void CharacterComponent::triggerLoginCallback(Entity &entity)] *)
Definition triggerLoginCallback : MX unit :=
  x ← worldX;
  lift (executeCallback Script_execute (mLoginCallback x));;
  mret tt.

(** [void CharacterComponent::resumeNpcThread()] *)
Definition resumeNpcThread : MX unit :=
  x ← worldX;
  assertX (N.eqb (currentThread x) (mNpcThread (members x)));;
  finished ← Script_resume;
  if finished : bool then
    x ← worldX;
    lift (call (GameHandler_sendTo
                  (write (Int16 (mTalkNpcId (members x)))
                     (mkMessageOut GPMSG_NPC_CLOSE []))));;
    update_members (set_mTalkNpcId 0);;
    update_members (set_mNpcThread 0%N)
  else mret tt.

(** [void CharacterComponent::startNpcThread(Script::Thread *thread, int npcId)] *)
Definition startNpcThread (thread : N) (npcId : Z) : MX unit :=
  x ← worldX;
  (if negb (N.eqb (mNpcThread (members x)) 0)
   then (fun x' => Some (tt, set_deleted (deleted x' ++ [mNpcThread (members x)]) x'))
   else mret tt);;
  update_members (set_mNpcThread thread);;
  update_members (set_mTalkNpcId npcId);;
  resumeNpcThread.

(** [void CharacterComponent::modifiedAllAttributes(Entity &entity)]: the
    loop over the attributes of the being, in the order of their ids.
    The ids are those the being holds when the loop starts:
    [recalculateBaseAttribute] is taken not to add or remove attributes
    while the loop runs. *)
Fixpoint modifiedAllAttributes_loop (ids : list Z) : M unit :=
  match ids with
  | [] => mret tt
  | id :: rest =>
      recalculateBaseAttribute id;;
      update_this (fun c => set_mModifiedAttributes ({[id]} ∪ mModifiedAttributes c) c);;
      modifiedAllAttributes_loop rest
  end.

Definition modifiedAllAttributes : M unit :=
  w ← world;
  modifiedAllAttributes_loop (iterate (dom (mAttributes (being w)))).

End Scripts.

End CharacterRest.

(** ** Runs of calls, used to state properties *)

Module Runs.

Import CInt Character CharacterRest.

(** *** Transactions *)

Inductive TransactionCall : Type :=
| Call_setTrading (t : ptr)
| Call_setBuySell (t : ptr)
| Call_cancelTransaction.

Definition perform (c : TransactionCall) : M unit :=
  match c with
  | Call_setTrading t => setTrading t
  | Call_setBuySell t => setBuySell t
  | Call_cancelTransaction => cancelTransaction
  end.

Fixpoint perform_all (cs : list TransactionCall) : M unit :=
  match cs with
  | [] => mret tt
  | c :: rest => perform c;; perform_all rest
  end.

(** The handler a call adopts, with its kind. *)
Definition adoption (c : TransactionCall) : option (TransactionType * ptr) :=
  match c with
  | Call_setTrading t => if N.eqb t nullptr then None else Some (TRANS_TRADE, t)
  | Call_setBuySell t => if N.eqb t nullptr then None else Some (TRANS_BUYSELL, t)
  | Call_cancelTransaction => None
  end.

(** A call that releases the transaction: a setter with a null handler. *)
Definition is_release (c : TransactionCall) : bool :=
  match c with
  | Call_setTrading t | Call_setBuySell t => N.eqb t nullptr
  | Call_cancelTransaction => false
  end.

(** The handler a [cancel()] call in the trace goes to, with its kind. *)
Definition cancelled (e : Event) : option (TransactionType * ptr) :=
  match e with
  | Trade_cancel t => Some (TRANS_TRADE, t)
  | BuySell_cancel b => Some (TRANS_BUYSELL, b)
  | _ => None
  end.

(** The active transaction of a character, if any. *)
Definition active (c : CharacterComponent) : list (TransactionType * ptr) :=
  match mTransaction c with
  | TRANS_NONE => []
  | t => [(t, static_cast (mTransactionHandler c))]
  end.

(** *** Points *)

(** [k] calls of [useCharacterPoint] in a row, with their results. *)
Fixpoint spend (isAttributeDirectlyModifiable : Z -> bool) (attribute : Z) (k : nat)
  : M (list AttribmodResponseCode) :=
  match k with
  | O => mret []
  | S k' =>
      r ← useCharacterPoint isAttributeDirectlyModifiable attribute;
      rs ← spend isAttributeDirectlyModifiable attribute k';
      mret (r :: rs)
  end.

(** *** Kills *)

Fixpoint kill_all (monsterTypes : list Z) : MX unit :=
  match monsterTypes with
  | [] => mret tt
  | monsterType :: rest => incrementKillCount monsterType;; kill_all rest
  end.

(** *** Ability notifications and the tick *)

Inductive Notification : Type :=
| Ability_changed (id : Z)
| Cooldown_activated.

Definition notify (n : Notification) : MX unit :=
  match n with
  | Ability_changed id => abilityStatusChanged id
  | Cooldown_activated => abilityCooldownActivated
  end.

Fixpoint notify_all (ns : list Notification) : MX unit :=
  match ns with
  | [] => mret tt
  | n :: rest => notify n;; notify_all rest
  end.

Definition changed_ability (n : Notification) : option Z :=
  match n with Ability_changed id => Some (to_unsigned id) | Cooldown_activated => None end.

Definition is_cooldown (n : Notification) : bool :=
  match n with Cooldown_activated => true | Ability_changed _ => false end.

(** The fields [sendAbilityUpdate] writes for one dirty id. *)
Definition ability_entry (abilities : gmap Z Z) (id : Z) : list Field :=
  match abilities !! id with
  | Some remaining => [Int8 id; Int32 remaining]
  | None => []
  end.

(** The three messages of a tick. *)
Definition ability_message (x : WorldX) : MessageOut :=
  mkMessageOut GPMSG_ABILITY_STATUS
    (flat_map (ability_entry (getAbilities (abilityComponent x)))
       (iterate (mModifiedAbilities (members x)))).

Definition cooldown_message (x : WorldX) : MessageOut :=
  mkMessageOut GPMSG_ABILITY_COOLDOWN [Int16 (globalCooldown (abilityComponent x))].

Definition points_message (c : CharacterComponent) : MessageOut :=
  mkMessageOut GPMSG_ATTRIBUTE_POINTS_STATUS
    [Int16 (mAttributePoints c); Int16 (mCorrectionPoints c)].

(** What a tick has to send: one message per category with a change
    pending, abilities first, then the cooldown, then the points. *)
Definition pending_messages (x : WorldX) : list Event :=
  (if bool_decide (mModifiedAbilities (members x) = ∅) then []
   else [GameHandler_sendTo (ability_message x)])
  ++ (if mSendAbilityCooldown (members x)
      then [GameHandler_sendTo (cooldown_message x)] else [])
  ++ (if mSendAttributePointsStatus (character (core x))
      then [GameHandler_sendTo (points_message (character (core x)))] else []).

(** The ability ids a message lists: the arguments of its [writeInt8]
    calls. *)
Definition listed_abilities (m : MessageOut) : list Z :=
  omap (fun f => match f with Int8 v => Some v | _ => None end) (msg_fields m).

(** An example: a living character with two abilities, one of them on
    recharge. *)
Definition example_members : Members := mkMembers ∅ false ∅ 0 0%N.

Definition example_worldX (a : BeingAction) : WorldX :=
  mkWorldX (example_world a) example_members
           (mkAbilityComponent {[ 1 := 0; 4 := 1500 ]} 300) None None 0%N [].

End Runs.

(** ** Calls that come back to the character

    Above, a call that leaves the sources is recorded in the trace. The
    callee of some of these calls can read and change the very character
    it is called for: the [cancel()] of a transaction handler, and
    [setAttribute] and [updateDerivedAttributes] of the being component.
    To say in which state such a call is made, and what the caller does
    with the world the call leaves, the member functions that make these
    calls are given once more with the callee as a parameter. With the
    callee that only records the call they are the functions above. *)

Module Reentrant.

Import CInt Character.

Section Handlers.

(** [Trade::cancel] and [BuySell::cancel] are declared outside the
    sources: arbitrary computations on the world, for the handler they
    are called on. *)
Variable Trade__cancel : ptr -> M unit.
Variable BuySell__cancel : ptr -> M unit.

(** [void CharacterComponent::cancelTransaction()] *)
Definition cancelTransaction : M unit :=
  c ← this;
  let t := mTransaction c in
  update_this (set_mTransaction TRANS_NONE);;
  match t with
  | TRANS_TRADE =>
      c ← this;
      Trade__cancel (static_cast (mTransactionHandler c))
  | TRANS_BUYSELL =>
      c ← this;
      BuySell__cancel (static_cast (mTransactionHandler c))
  | TRANS_NONE => mret tt
  end.

(** [void CharacterComponent::setTrading(Trade *t)] *)
Definition setTrading (t : ptr) : M unit :=
  if negb (N.eqb t nullptr) then
    cancelTransaction;;
    update_this (set_mTransactionHandler (of_Trade t));;
    update_this (set_mTransaction TRANS_TRADE)
  else
    c ← this;
    assert (match mTransaction c with
            | TRANS_NONE | TRANS_TRADE => true
            | TRANS_BUYSELL => false
            end);;
    update_this (set_mTransaction TRANS_NONE).

(** [void CharacterComponent::setBuySell(BuySell *t)] *)
Definition setBuySell (t : ptr) : M unit :=
  if negb (N.eqb t nullptr) then
    cancelTransaction;;
    update_this (set_mTransactionHandler (of_BuySell t));;
    update_this (set_mTransaction TRANS_BUYSELL)
  else
    c ← this;
    assert (match mTransaction c with
            | TRANS_NONE | TRANS_BUYSELL => true
            | TRANS_TRADE => false
            end);;
    update_this (set_mTransaction TRANS_NONE).

End Handlers.

Section Being.

Variable isAttributeDirectlyModifiable : Z -> bool.

(** [BeingComponent::setAttribute] and
    [BeingComponent::updateDerivedAttributes] are declared outside the
    sources: arbitrary computations on the world. *)
Variable BeingComponent__setAttribute : Z -> float -> M unit.
Variable BeingComponent__updateDerivedAttributes : Z -> M unit.

(** [AttribmodResponseCode CharacterComponent::useCharacterPoint(Entity &, int)] *)
Definition useCharacterPoint (attribute : Z) : M AttribmodResponseCode :=
  if negb (isAttributeDirectlyModifiable attribute) then
    mret ATTRIBMOD_INVALID_ATTRIBUTE
  else
    c ← this;
    if mAttributePoints c =? 0 then mret ATTRIBMOD_NO_POINTS_LEFT
    else
      setAttributePoints (wrap_int (mAttributePoints c - 1));;
      w ← world;
      let base := getAttributeBase (being w) (to_unsigned attribute) in
      BeingComponent__setAttribute (to_unsigned attribute) (PrimFloat.add base 1%float);;
      BeingComponent__updateDerivedAttributes (to_unsigned attribute);;
      mret ATTRIBMOD_OK.

(** [AttribmodResponseCode CharacterComponent::useCorrectionPoint(Entity &, int)] *)
Definition useCorrectionPoint (attribute : Z) : M AttribmodResponseCode :=
  if negb (isAttributeDirectlyModifiable attribute) then
    mret ATTRIBMOD_INVALID_ATTRIBUTE
  else
    w ← world;
    if mCorrectionPoints (character w) =? 0 then mret ATTRIBMOD_NO_POINTS_LEFT
    else if PrimFloat.leb (getAttributeBase (being w) (to_unsigned attribute)) 1%float
    then mret ATTRIBMOD_DENIED
    else
      setCorrectionPoints (wrap_int (mCorrectionPoints (character w) - 1));;
      c ← this;
      setAttributePoints (wrap_int (mAttributePoints c + 1));;
      w ← world;
      let base := getAttributeBase (being w) (to_unsigned attribute) in
      BeingComponent__setAttribute (to_unsigned attribute) (PrimFloat.sub base 1%float);;
      mret ATTRIBMOD_OK.

End Being.

(** The callees that only record the call. *)
Definition recorded {A} (e : A -> Event) (a : A) : M unit := call (e a).


(** A handler that, when cancelled, releases the trade on the character
    with [setTrading(nullptr)]. *)
Definition releasing_handler (t : ptr) : M unit := Character.setTrading nullptr.


End Reentrant.

(** ** The removal of a character from the world *)

Module Disconnection.

Import CInt Character.

(** Modelled from the spec: [GameState::remove] is not part of the
    sources. The spec has [cancelTransaction] "invoked on disconnect"
    and has disconnection "implicitly cancel any active transaction",
    and it has [disconnected] "request removal of the entity from the
    live world" for a character that is not dead; [disconnected] holds
    no call of [cancelTransaction], so the removal makes it. What else
    the removal does is the parameter [leave_world]. *)
Definition GameState_remove (leave_world : M unit) : M unit :=
  cancelTransaction;;
  leave_world.


End Disconnection.

(** * Properties *)

Module CIntFacts.

Import CInt.

Lemma wrap_int_id z : in_int z -> wrap_int z = z.
Proof.
  unfold in_int, INT_MIN, INT_MAX, wrap_int. intros H.
  rewrite Z.mod_small by lia. lia.
Qed.

Lemma wrap_int_range z : in_int (wrap_int z).
Proof.
  unfold in_int, INT_MIN, INT_MAX, wrap_int.
  pose proof (Z.mod_pos_bound (z + 2 ^ 31) (2 ^ 32) ltac:(lia)). lia.
Qed.

(** A property checked on every [unsigned char] holds of each of them. *)
Lemma forall_uchar (P : Z -> bool) :
  forallb P (seqZ 0 256) = true -> forall s, 0 <= s < 256 -> P s = true.
Proof.
  intros H s Hs. rewrite forallb_forall in H. apply H.
  apply list_elem_of_In, elem_of_seqZ. lia.
Qed.

(** Or-ing the bit of a level into a stored mask, through the [char]
    parameter and back to [unsigned char], sets exactly that bit. *)
Lemma or_level_bit s level :
  0 <= s < 256 -> 1 <= level <= 8 ->
  to_uchar (Z.lor s (to_char (to_uchar (Z.shiftl 1 (level - 1)))))
  = Z.lor s (Z.shiftl 1 (level - 1)).
Proof.
  intros Hs Hl.
  assert (Hc : level = 1 \/ level = 2 \/ level = 3 \/ level = 4 \/ level = 5
               \/ level = 6 \/ level = 7 \/ level = 8) by lia.
  apply Z.eqb_eq. revert s Hs.
  destruct Hc as [-> | [-> | [-> | [-> | [-> | [-> | [-> | ->]]]]]]];
    apply forall_uchar; vm_compute; reflexivity.
Qed.

Lemma level_bit_uchar level :
  1 <= level <= 8 ->
  to_uchar (to_char (to_uchar (Z.shiftl 1 (level - 1)))) = Z.shiftl 1 (level - 1).
Proof.
  intros Hl.
  assert (Hc : level = 1 \/ level = 2 \/ level = 3 \/ level = 4 \/ level = 5
               \/ level = 6 \/ level = 7 \/ level = 8) by lia.
  intuition; subst; reflexivity.
Qed.

Lemma or_level_bit_range s level :
  0 <= s < 256 -> 1 <= level <= 8 -> 0 <= Z.lor s (Z.shiftl 1 (level - 1)) < 256.
Proof.
  intros Hs Hl. rewrite <- or_level_bit by assumption.
  unfold to_uchar. apply Z.mod_pos_bound. lia.
Qed.

(** A non-zero integer has a set bit. *)
Lemma nonzero_has_bit a : a <> 0 -> exists i, Z.testbit a i = true.
Proof.
  intros Ha. destruct (Z.lt_trichotomy a 0) as [Hneg | [H0 | Hpos]].
  - exists (Z.log2 (Z.abs a) + 1).
    apply (Z.bits_iff_neg a); [lia | exact Hneg].
  - contradiction.
  - exists (Z.log2 a). apply Z.bit_log2. exact Hpos.
Qed.

End CIntFacts.

Module PermissionManagerFacts.

Import CInt CIntFacts PermissionManager.

(** *** [addPermission] *)

Lemma addPermission_table p level st :
  1 <= level <= 8 -> table_wf (permissions st) ->
  permissions (addPermission p (to_char (classmask_of level)) st)
  = <[p := Z.lor (default 0 (permissions st !! p)) (level_bit level)]> (permissions st).
Proof.
  intros Hl Hwf. unfold addPermission, classmask_of, level_bit.
  destruct (permissions st !! p) as [second|] eqn:E; simpl.
  - rewrite or_level_bit; [reflexivity | by eapply Hwf | exact Hl].
  - rewrite level_bit_uchar by exact Hl. reflexivity.
Qed.

Lemma addPermission_frame p mask st :
  permissionFile (addPermission p mask st) = permissionFile st
  /\ log (addPermission p mask st) = log st.
Proof. unfold addPermission. destruct (permissions st !! p); split; reflexivity. Qed.

Lemma table_wf_insert p level (t : gmap string Z) :
  1 <= level <= 8 -> table_wf t ->
  table_wf (<[p := Z.lor (default 0 (t !! p)) (level_bit level)]> t).
Proof.
  intros Hl Hwf q m. rewrite lookup_insert. case_decide as Hq.
  - intros [= <-]. apply or_level_bit_range; [|exact Hl].
    destruct (t !! p) as [second|] eqn:E; simpl; [by eapply Hwf | lia].
  - apply Hwf.
Qed.

(** *** The inner loop *)

Lemma permission_step_allowed classmask perNode st :
  has_text_child perNode ->
  permission_step classmask perNode st
  = Some (match allowed_name perNode with
          | Some p => addPermission p (to_char classmask) st
          | None => st
          end).
Proof.
  intros Hc. unfold permission_step, allowed_name, first_child_content.
  unfold has_text_child in Hc.
  destruct (String.eqb_spec (node_name perNode) "allow") as [Ha|Ha].
  - destruct (xmlChildrenNode perNode) as [|c l]; [exfalso; by apply Hc; auto|].
    destruct (node_content c) as [permission|]; [|reflexivity].
    destruct (0 <? Z.of_nat (String.length permission)); reflexivity.
  - destruct (String.eqb_spec (node_name perNode) "deny") as [Hd|Hd].
    { destruct (xmlChildrenNode perNode); [exfalso; by apply Hc; auto | reflexivity]. }
    destruct (String.eqb_spec (node_name perNode) "alias") as [Hl|Hl]; [|reflexivity].
    destruct (xmlChildrenNode perNode); [exfalso; by apply Hc; auto | reflexivity].
Qed.

Lemma allowed_names_cons perNode rest :
  allowed_names (perNode :: rest)
  = match allowed_name perNode with
    | Some p => p :: allowed_names rest
    | None => allowed_names rest
    end.
Proof. reflexivity. Qed.

Lemma permission_loop_table level perNodes : forall st,
  1 <= level <= 8 -> table_wf (permissions st) ->
  Forall has_text_child perNodes ->
  exists st',
    permission_loop (classmask_of level) perNodes st = Some st'
    /\ permissionFile st' = permissionFile st
    /\ log st' = log st
    /\ table_wf (permissions st')
    /\ forall p, permissions st' !! p =
         if decide (p ∈ allowed_names perNodes)
         then Some (Z.lor (default 0 (permissions st !! p)) (level_bit level))
         else permissions st !! p.
Proof.
  induction perNodes as [|perNode rest IH]; intros st Hl Hwf Hall.
  - exists st. split_and!; [done | done | done | done |].
    intros p. reflexivity.
  - apply Forall_cons in Hall as [Hhd Htl]. cbn [permission_loop].
    rewrite (permission_step_allowed _ _ _ Hhd), allowed_names_cons.
    destruct (allowed_name perNode) as [p0|] eqn:E.
    + pose proof (addPermission_table p0 level st Hl Hwf) as Ht.
      destruct (addPermission_frame p0 (to_char (classmask_of level)) st) as [Hf Hg].
      destruct (IH (addPermission p0 (to_char (classmask_of level)) st) Hl) as
        (st' & Hrun & Hfile & Hlog & Hwf' & Hlook); [|exact Htl|].
      { rewrite Ht. by apply table_wf_insert. }
      exists st'. rewrite Hrun, Hfile, Hlog. split_and!; try done.
      intros p. rewrite Hlook, Ht, lookup_insert.
      destruct (decide (p0 = p)) as [->|Hne].
      * rewrite (decide_True (P := p ∈ p :: allowed_names rest)) by (apply elem_of_cons; left; reflexivity).
        simpl. case_decide; [|reflexivity].
        by rewrite <- Z.lor_assoc, Z.lor_diag.
      * case_decide as Hin.
        -- rewrite decide_True; [reflexivity | by (apply elem_of_cons; right)].
        -- rewrite decide_False; [reflexivity|].
           intros [Heq|Hin']%elem_of_cons; [by subst | done].
    + apply (IH st Hl Hwf Htl).
Qed.

(** *** The outer loop depends on the log only to append to it *)

Lemma addPermission_same p mask st1 st2 :
  same_table st1 st2 -> same_table (addPermission p mask st1) (addPermission p mask st2).
Proof.
  intros [Ht Hf]. unfold addPermission. rewrite Ht.
  destruct (permissions st2 !! p); split; simpl; congruence.
Qed.

Lemma permission_step_same classmask perNode st1 st2 :
  same_table st1 st2 ->
  same_result (permission_step classmask perNode st1)
              (permission_step classmask perNode st2).
Proof.
  intros H. unfold permission_step.
  repeat (case_match; simpl; try done); by apply addPermission_same.
Qed.

Lemma permission_loop_same classmask perNodes : forall st1 st2,
  same_table st1 st2 ->
  same_result (permission_loop classmask perNodes st1)
              (permission_loop classmask perNodes st2).
Proof.
  induction perNodes as [|perNode rest IH]; intros st1 st2 H; simpl; [done|].
  pose proof (permission_step_same classmask perNode st1 st2 H) as Hs.
  destruct (permission_step classmask perNode st1),
           (permission_step classmask perNode st2); simpl in Hs; try done.
  by apply IH.
Qed.

Lemma class_step_same node st1 st2 :
  same_table st1 st2 -> same_result (class_step node st1) (class_step node st2).
Proof.
  intros H. unfold class_step.
  destruct (negb (String.eqb (node_name node) "class")); [done|].
  destruct ((getProperty node "level" 0 <? 1) || (8 <? getProperty node "level" 0)).
  - destruct H as [Ht Hf]. split; simpl; congruence.
  - by apply permission_loop_same.
Qed.

Lemma class_loop_same nodes : forall st1 st2,
  same_table st1 st2 -> same_result (class_loop nodes st1) (class_loop nodes st2).
Proof.
  induction nodes as [|node rest IH]; intros st1 st2 H; simpl; [done|].
  pose proof (class_step_same node st1 st2 H) as Hs.
  destruct (class_step node st1), (class_step node st2); simpl in Hs; try done.
  by apply IH.
Qed.

Lemma same_result_permissions r1 r2 :
  same_result r1 r2 -> permissions <$> r1 = permissions <$> r2.
Proof.
  destruct r1, r2; simpl; try done. intros [Ht _]. by rewrite Ht.
Qed.

End PermissionManagerFacts.

Module PermissionManagerSpec.

Import CInt CIntFacts PermissionManager PermissionManagerFacts.

(** C8. For every permission table, account level and permission name,
    [checkPermission] answers [PMR_UNKNOWN] exactly when the name has no
    entry in the table, [PMR_ALLOWED] exactly when it has an entry whose
    bitmask shares a set bit with the account level, and [PMR_DENIED]
    exactly when it has an entry whose bitmask shares no bit with the
    account level; the table itself is left as it was. *)
Theorem checkPermission_three_way (st : State) (accountLevel : Z) (permission : string) :
  let r := (checkPermission accountLevel permission st).1 in
  (r = PMR_UNKNOWN <-> permissions st !! permission = None)
  /\ (r = PMR_ALLOWED <->
      exists mask, permissions st !! permission = Some mask
                   /\ intersects accountLevel mask)
  /\ (r = PMR_DENIED <->
      exists mask, permissions st !! permission = Some mask
                   /\ ~ intersects accountLevel mask)
  /\ permissions (checkPermission accountLevel permission st).2 = permissions st.
Proof.
  unfold checkPermission, intersects.
  destruct (permissions st !! permission) as [mask|] eqn:E; simpl.
  - destruct (Z.eqb_spec (Z.land accountLevel mask) 0) as [Hz|Hnz]; simpl.
    + assert (Hno : ~ exists i, Z.testbit accountLevel i = true
                                /\ Z.testbit mask i = true).
      { intros (i & Ha & Hm).
        assert (Hb : Z.testbit (Z.land accountLevel mask) i = true)
          by (rewrite Z.land_spec, Ha, Hm; reflexivity).
        rewrite Hz, Z.bits_0 in Hb. discriminate. }
      split_and!; try done.
      * split; [done|]. intros (m & [= <-] & Hi). contradiction.
      * split; [|done]. intros _. by exists mask.
    + destruct (nonzero_has_bit _ Hnz) as (i & Hi).
      rewrite Z.land_spec in Hi. apply andb_true_iff in Hi.
      split_and!; try done.
      * split; [|done]. intros _. exists mask. split; [done|]. by exists i.
      * split; [done|]. intros (m & [= <-] & Hno). exfalso. apply Hno. by exists i.
  - split_and!; try done.
    + split; [done|]. by intros (m & Hm & _).
    + split; [done|]. by intros (m & Hm & _).
Qed.

Example reload_levels_0_and_9 :
  let fs := fun _ => Document (Some (XmlNode "permissions" [] None example_children)) in
  (fun st => (permissions st !! "@kick", permissions st !! "@ban",
              permissions st !! "@warp", log st)) <$> reload fs example_state
  = Some (Some 4, None, Some 4,
          [Info_Loading;
           Warn_IllegalClassLevel 0 "permissions.xml";
           Warn_IllegalClassLevel 9 "permissions.xml";
           Info_PermissionList {[ "@kick" := 4; "@warp" := 4 ]}]).
Proof. vm_compute. reflexivity. Qed.

End PermissionManagerSpec.

Module CharacterFacts.

Import CInt CIntFacts Character.

(** Opens the world and the character record so that member functions
    compute on their fields. *)
Ltac open_world w :=
  let c := fresh "c" in
  destruct w as [c ? ? ? ? ? ?]; destruct c as [? ? ? ? ? ? ? ?]; simpl in *.

(** Runs the monadic plumbing of a member function, leaving the map and
    set operations as they are. *)
Ltac run :=
  cbv beta iota zeta delta
    [mbind mret M_bind M_ret world this update_this update_being call assert
     executeCallback setAction setAttribute attributeChanged
     setAttributePoints setCorrectionPoints cancelTransaction
     set_character set_being set_trace
     set_mConnected set_mTransactionHandler set_mSendAttributePointsStatus
     set_mAttributePoints set_mCorrectionPoints set_mTransaction
     set_mModifiedAttributes
     character being entityMap actorPosition mDeathAcceptedCallback
     configuration trace
     mConnected mTransactionHandler mDatabaseID mSendAttributePointsStatus
     mAttributePoints mCorrectionPoints mTransaction mModifiedAttributes
     fmap option_fmap option_map fst snd];
  rewrite <- ?app_assoc; cbn [app].

Lemma getTrading_active c h :
  getTrading c = h -> h <> nullptr ->
  mTransaction c = TRANS_TRADE /\ static_cast (mTransactionHandler c) = h.
Proof.
  unfold getTrading. destruct (mTransaction c); intros H Hn; try congruence.
  by split.
Qed.

Lemma cancelTransaction_trade w h :
  getTrading (character w) = h -> h <> nullptr ->
  cancelTransaction w
  = Some (tt, set_trace (trace w ++ [Trade_cancel h])
                (set_character (set_mTransaction TRANS_NONE (character w)) w)).
Proof.
  intros Hh Hn. destruct (getTrading_active _ _ Hh Hn) as [Ht Hc].
  open_world w. subst. reflexivity.
Qed.

Lemma cancelTransaction_none w :
  mTransaction (character w) = TRANS_NONE -> cancelTransaction w = Some (tt, w).
Proof. intros Ht. open_world w. subst. reflexivity. Qed.

Lemma nonnull_test (t : ptr) : t <> nullptr -> negb (N.eqb t nullptr) = true.
Proof. intros H. by apply negb_true_iff, N.eqb_neq. Qed.

Lemma getAttributeBase_setBase b id value :
  getAttributeBase (setBase id value b) id = value.
Proof. unfold getAttributeBase, setBase. simpl. by rewrite lookup_insert_eq. Qed.


Lemma is_DEAD_true a : is_DEAD a = true <-> a = DEAD.
Proof. destruct a; simpl; split; congruence. Qed.

Lemma is_DEAD_false a : is_DEAD a = false <-> a <> DEAD.
Proof. destruct a; simpl; split; congruence. Qed.

End CharacterFacts.

Module RespawnFacts.

Import CInt CIntFacts Character CharacterFacts.

Section Respawn.

Variables ATTR_HP ATTR_MAX_HP : Z.
Variable Script_execute : N -> Z -> M unit.

Lemma respawn_not_dead w :
  is_DEAD (getAction (being w)) = false ->
  respawn ATTR_HP ATTR_MAX_HP Script_execute w
  = Some (tt, set_trace (trace w ++ [LOG_WARN_respawn_without_being_dead]) w).
Proof.
  intros Hd. unfold respawn, mbind, M_bind, world. rewrite Hd. reflexivity.
Qed.

(** With a callback registered, [respawn] is the run of that callback
    on the standing being. *)
Lemma respawn_script w f :
  is_DEAD (getAction (being w)) = true ->
  mDeathAcceptedCallback w = Some f ->
  respawn ATTR_HP ATTR_MAX_HP Script_execute w
  = Script_execute f (entityMap w)
      (set_trace (trace w ++ [Script_prepare f; Script_push_entity])
         (set_being (mkBeing STAND (mAttributes (being w))) w)).
Proof.
  intros Hd Hf. unfold respawn, mbind, M_bind, world. rewrite Hd, Hf.
  cbn [negb]. open_world w. run.
  match goal with
  | |- context [Script_execute f ?m ?x] =>
      destruct (Script_execute f m x) as [[[] w']|]; reflexivity
  end.
Qed.

Lemma respawn_fallback w :
  is_DEAD (getAction (being w)) = true ->
  mDeathAcceptedCallback w = None ->
  respawn ATTR_HP ATTR_MAX_HP Script_execute w
  = Some (tt, respawned ATTR_HP ATTR_MAX_HP w).
Proof.
  intros Hd Hf. unfold respawn, mbind, M_bind, world. rewrite Hd, Hf.
  cbn [negb]. unfold respawned. run. reflexivity.
Qed.

End Respawn.

End RespawnFacts.

Module TransactionSpec.

Import CInt CIntFacts Character CharacterFacts RespawnFacts.

(** C1. On a character whose active trade has handler [h], a call of
    [setBuySell] with a non-null [h2] first dispatches [cancel()] to
    [h] and only then adopts [h2]. Whatever the handler does when it is
    cancelled, it is [cancel()] of [h] that runs, once and alone, on the
    character as it was but for the tag, which is already
    [TRANS_NONE]: [h2] is not stored yet and [getBuySell()] is still
    null. [h2] and the tag [TRANS_BUYSELL] are stored into the world the
    handler leaves, and [getTrading()] is null and [getBuySell()] is
    [h2] then. With a handler that only records the call, the call adds
    [cancel()] of [h] to the trace and nothing else. *)
Theorem setBuySell_cancels_trade_first
    (Trade__cancel BuySell__cancel : ptr -> M unit) (w : World) (h h2 : ptr) :
  getTrading (character w) = h -> h <> nullptr -> h2 <> nullptr ->
  let w0 := set_character (set_mTransaction TRANS_NONE (character w)) w in
  let adopt := fun w1 =>
    set_character
      (set_mTransaction TRANS_BUYSELL
         (set_mTransactionHandler (of_BuySell h2) (character w1))) w1 in
  getBuySell (character w0) = nullptr
  /\ mTransactionHandler (character w0) = mTransactionHandler (character w)
  /\ Reentrant.setBuySell Trade__cancel BuySell__cancel h2 w
     = match Trade__cancel h w0 with
       | Some (_, w1) => Some (tt, adopt w1)
       | None => None
       end
  /\ (forall w1, getTrading (character (adopt w1)) = nullptr
                 /\ getBuySell (character (adopt w1)) = h2)
  /\ setBuySell h2 w
     = Reentrant.setBuySell (Reentrant.recorded Trade_cancel)
         (Reentrant.recorded BuySell_cancel) h2 w
  /\ exists w2,
       setBuySell h2 w = Some (tt, w2)
       /\ w2 = adopt (set_trace (trace w ++ [Trade_cancel h]) w0)
       /\ trace w2 = trace w ++ [Trade_cancel h]
       /\ getTrading (character w2) = nullptr
       /\ getBuySell (character w2) = h2.
Proof.
  intros Hh Hn Hn2 w0 adopt.
  destruct (getTrading_active _ _ Hh Hn) as [Ht Hc].
  assert (Hgen : forall Tc Bc,
             Reentrant.setBuySell Tc Bc h2 w
             = match Tc h w0 with
               | Some (_, w1) => Some (tt, adopt w1)
               | None => None
               end).
  { intros Tc Bc. unfold Reentrant.setBuySell. rewrite (nonnull_test _ Hn2).
    unfold Reentrant.cancelTransaction.
    subst w0 adopt. open_world w. subst. run.
    destruct (Tc _ _) as [[[] w1]|]; reflexivity. }
  assert (Hrec : setBuySell h2 w
                 = Some (tt, adopt (set_trace (trace w ++ [Trade_cancel h]) w0))).
  { unfold setBuySell. rewrite (nonnull_test _ Hn2).
    unfold mbind at 1, M_bind at 1. rewrite (cancelTransaction_trade w h Hh Hn).
    reflexivity. }
  split_and!.
  - subst w0. open_world w. subst. reflexivity.
  - reflexivity.
  - apply Hgen.
  - intros w1. subst adopt. open_world w1. split; reflexivity.
  - rewrite Hgen, Hrec. reflexivity.
  - eexists. split; [exact Hrec|]. split_and!; reflexivity.
Qed.

Lemma setBuySell_cancels_trade_first_witness :
  exists w2,
    Reentrant.setBuySell Reentrant.releasing_handler Reentrant.releasing_handler 9%N
      (example_world STAND) = Some (tt, w2)
    /\ getTrading (character w2) = nullptr
    /\ getBuySell (character w2) = 9%N.
Proof.
  destruct (setBuySell_cancels_trade_first Reentrant.releasing_handler
              Reentrant.releasing_handler (example_world STAND) 7%N 9%N)
    as (_ & _ & Hrun & _); [reflexivity | discriminate | discriminate |].
  eexists. split; [rewrite Hrun; vm_compute; reflexivity|]. split; reflexivity.
Defined.




End TransactionSpec.

Module TransactionInvariant.

Import CInt CIntFacts Character CharacterFacts.

(** After [setTrading(7)] and [cancelTransaction()] on a fresh character
    the tag is [TRANS_NONE] while the handler field still holds the
    cancelled trade. *)
Lemma stale_handler_after_cancel :
  exists w, reachable w
            /\ exec (setTrading 7%N;; cancelTransaction) fresh_world = Some w
            /\ mTransaction (character w) = TRANS_NONE
            /\ mTransactionHandler (character w) = of_Trade 7%N
            /\ ~ consistent_field (character w).
Proof.
  eexists. split_and!.
  - eapply reach_cancelTransaction; [eapply (reach_setTrading fresh_world _ 7%N)|].
    + by apply reach_constructed.
    + reflexivity.
    + reflexivity.
  - reflexivity.
  - reflexivity.
  - reflexivity.
  - unfold consistent_field. simpl. discriminate.
Qed.

Lemma cancelTransaction_consistent w w' :
  exec cancelTransaction w = Some w' -> consistent (character w').
Proof.
  unfold exec. open_world w. unfold cancelTransaction. run.
  destruct mTransaction0; run; intros [= <-]; by split.
Qed.

(** C3 (amended). In every state reached from construction by calls of
    [setTrading], [setBuySell] and [cancelTransaction], tag and handler
    agree in this sense: with the tag [TRANS_TRADE] the handler field
    holds a non-null [Trade] pointer, with [TRANS_BUYSELL] a non-null
    [BuySell] pointer, and with [TRANS_NONE] both [getTrading()] and
    [getBuySell()] answer null (the field itself is not reset and may
    still hold the last handler). *)
Theorem reachable_consistent (w : World) :
  reachable w -> consistent (character w).
Proof.
  induction 1 as [w Hh Ht | w w' t _ IH Hrun | w w' t _ IH Hrun | w w' _ IH Hrun].
  - unfold consistent, getTrading, getBuySell. rewrite Ht. by split.
  - clear IH. unfold exec, setTrading in Hrun.
    destruct (N.eqb_spec t nullptr) as [Heq|Hne]; simpl in Hrun.
    + open_world w. revert Hrun. run.
      destruct mTransaction0; run; intros [= <-]; by split.
    + open_world w. revert Hrun. unfold cancelTransaction. run.
      destruct mTransaction0; run; intros [= <-]; by exists t.
  - clear IH. unfold exec, setBuySell in Hrun.
    destruct (N.eqb_spec t nullptr) as [Heq|Hne]; simpl in Hrun.
    + open_world w. revert Hrun. run.
      destruct mTransaction0; run; intros [= <-]; by split.
    + open_world w. revert Hrun. unfold cancelTransaction. run.
      destruct mTransaction0; run; intros [= <-]; by exists t.
  - by eapply cancelTransaction_consistent.
Qed.

Lemma reachable_consistent_witness :
  exists w, exec (setTrading 7%N;; cancelTransaction;; setBuySell 9%N) fresh_world = Some w
            /\ consistent (character w).
Proof.
  eexists. split; [reflexivity|].
  apply reachable_consistent.
  eapply (reach_setBuySell _ _ 9%N).
  - eapply reach_cancelTransaction.
    + eapply (reach_setTrading fresh_world _ 7%N).
      * by apply reach_constructed.
      * reflexivity.
    + reflexivity.
  - reflexivity.
Defined.

End TransactionInvariant.

Module PointEconomySpec.

Import CInt CIntFacts Character CharacterFacts.

Section AttributeManager.

Variable isAttributeDirectlyModifiable : Z -> bool.

(** C4. [useCharacterPoint] on an attribute that is not directly
    modifiable returns [ATTRIBMOD_INVALID_ATTRIBUTE] and leaves the
    whole world, so the point balance and the attribute, as it was; on
    a modifiable attribute with a zero balance it returns
    [ATTRIBMOD_NO_POINTS_LEFT], again without effect; otherwise it
    returns [ATTRIBMOD_OK], the balance is one less ([int]
    arithmetic), the base of the attribute is its old base plus one
    ([double] arithmetic), and [updateDerivedAttributes] is called for
    the attribute after the base was set. *)
Theorem useCharacterPoint_cases (w : World) (attribute : Z) :
  let id := to_unsigned attribute in
  let points := mAttributePoints (character w) in
  (isAttributeDirectlyModifiable attribute = false ->
     useCharacterPoint isAttributeDirectlyModifiable attribute w
     = Some (ATTRIBMOD_INVALID_ATTRIBUTE, w))
  /\ (isAttributeDirectlyModifiable attribute = true -> points = 0 ->
      useCharacterPoint isAttributeDirectlyModifiable attribute w
      = Some (ATTRIBMOD_NO_POINTS_LEFT, w))
  /\ (isAttributeDirectlyModifiable attribute = true -> points <> 0 ->
      exists w',
        useCharacterPoint isAttributeDirectlyModifiable attribute w
        = Some (ATTRIBMOD_OK, w')
        /\ mAttributePoints (character w') = wrap_int (points - 1)
        /\ (INT_MIN < points <= INT_MAX ->
            mAttributePoints (character w') = points - 1)
        /\ mCorrectionPoints (character w') = mCorrectionPoints (character w)
        /\ getAttributeBase (being w') id
           = PrimFloat.add (getAttributeBase (being w) id) 1%float
        /\ trace w'
           = trace w ++
             [AccountHandler_updateAttributes (mDatabaseID (character w)) id
                (getAttributeBase (being w') id)
                (getModifiedAttribute (being w') id);
              Being_updateDerivedAttributes id]).
Proof.
  intros id points. subst id points. open_world w. split_and!.
  - intros Hm. unfold useCharacterPoint. rewrite Hm. reflexivity.
  - intros Hm ->. unfold useCharacterPoint. rewrite Hm. reflexivity.
  - intros Hm Hp. unfold useCharacterPoint. rewrite Hm.
    cbn [negb]. run.
    destruct (Z.eqb_spec mAttributePoints0 0) as [|_]; [contradiction|].
    eexists. split; [reflexivity|]. run.
    split_and!; try reflexivity.
    + intros Hr. apply wrap_int_id. unfold in_int. lia.
    + apply getAttributeBase_setBase.
Qed.

(** C5. On a directly modifiable attribute and with correction points
    left, [useCorrectionPoint] returns [ATTRIBMOD_DENIED] without any
    effect when the base of the attribute is 1 or less; otherwise it
    returns [ATTRIBMOD_OK], the correction points are one less and the
    attribute points one more ([int] arithmetic), and the base of the
    attribute is its old base minus one ([double] arithmetic). *)
Theorem useCorrectionPoint_cases (w : World) (attribute : Z) :
  let id := to_unsigned attribute in
  let base := getAttributeBase (being w) id in
  let correction := mCorrectionPoints (character w) in
  let points := mAttributePoints (character w) in
  isAttributeDirectlyModifiable attribute = true ->
  correction <> 0 ->
  (PrimFloat.leb base 1%float = true ->
     useCorrectionPoint isAttributeDirectlyModifiable attribute w
     = Some (ATTRIBMOD_DENIED, w))
  /\ (PrimFloat.leb base 1%float = false ->
      exists w',
        useCorrectionPoint isAttributeDirectlyModifiable attribute w
        = Some (ATTRIBMOD_OK, w')
        /\ mCorrectionPoints (character w') = wrap_int (correction - 1)
        /\ mAttributePoints (character w') = wrap_int (points + 1)
        /\ (INT_MIN < correction <= INT_MAX ->
            mCorrectionPoints (character w') = correction - 1)
        /\ (INT_MIN <= points < INT_MAX ->
            mAttributePoints (character w') = points + 1)
        /\ getAttributeBase (being w') id = PrimFloat.sub base 1%float).
Proof.
  intros id base correction points Hm Hc.
  subst id base correction points. open_world w.
  unfold useCorrectionPoint. rewrite Hm. cbn [negb]. run.
  destruct (Z.eqb_spec mCorrectionPoints0 0) as [|_]; [contradiction|].
  split.
  - intros Hb. rewrite Hb. reflexivity.
  - intros Hb. rewrite Hb. eexists. split; [reflexivity|]. run.
    split_and!; try reflexivity.
    + intros Hr. apply wrap_int_id. unfold in_int. lia.
    + intros Hr. apply wrap_int_id. unfold in_int. lia.
    + apply getAttributeBase_setBase.
Qed.


End AttributeManager.

Lemma useCharacterPoint_cases_witness :
  useCharacterPoint only_1 2 (world_with_base 5%float)
  = Some (ATTRIBMOD_INVALID_ATTRIBUTE, world_with_base 5%float)
  /\ exists w', useCharacterPoint only_1 1 (world_with_base 5%float)
                = Some (ATTRIBMOD_OK, w')
                /\ mAttributePoints (character w') = 1
                /\ getAttributeBase (being w') 1 = 6%float.
Proof.
  split.
  - apply (useCharacterPoint_cases only_1 (world_with_base 5%float) 2). reflexivity.
  - destruct (useCharacterPoint_cases only_1 (world_with_base 5%float) 1)
      as (_ & _ & H).
    destruct H as (w' & Hrun & _ & Hp & _ & Hb & _).
    + reflexivity.
    + discriminate.
    + exists w'. split_and!; [exact Hrun | | exact Hb].
      apply Hp. vm_compute. split; [reflexivity | discriminate].
Defined.

Lemma useCorrectionPoint_cases_witness :
  useCorrectionPoint only_1 1 (world_with_base 1%float)
  = Some (ATTRIBMOD_DENIED, world_with_base 1%float)
  /\ exists w', useCorrectionPoint only_1 1 (world_with_base 5%float)
                = Some (ATTRIBMOD_OK, w')
                /\ mCorrectionPoints (character w') = 0
                /\ mAttributePoints (character w') = 3
                /\ getAttributeBase (being w') 1 = 4%float.
Proof.
  split.
  - apply (useCorrectionPoint_cases only_1 (world_with_base 1%float) 1);
      [reflexivity | discriminate | reflexivity].
  - destruct (useCorrectionPoint_cases only_1 (world_with_base 5%float) 1)
      as (_ & H); [reflexivity | discriminate |].
    destruct H as (w' & Hrun & _ & _ & Hc & Hp & Hb); [reflexivity|].
    exists w'. split_and!; [exact Hrun | | | exact Hb].
    + apply Hc. vm_compute. split; [reflexivity | discriminate].
    + apply Hp. vm_compute. split; [discriminate | reflexivity].
Defined.


(** A base of exactly 1 is refused and both counters stay as they were. *)
Example useCorrectionPoint_base_1 :
  (fun r => (r.1, mCorrectionPoints (character r.2), mAttributePoints (character r.2)))
    <$> useCorrectionPoint only_1 1 (world_with_base 1%float)
  = Some (ATTRIBMOD_DENIED, 1, 2).
Proof. reflexivity. Qed.

End PointEconomySpec.

Module RespawnSpec.

Import CInt CIntFacts Character CharacterFacts RespawnFacts.

(** C6. [respawn] on a being that is not dead only logs a warning: the
    character, the being with its action and attributes, the map and the
    position are as before and no warp is queued. On a dead being it
    first sets the action to [STAND]; with a death-accepted callback
    registered it then runs that callback on the standing being and does
    nothing more; with none registered it sets the base of [ATTR_HP] to
    the modified value of [ATTR_MAX_HP] and queues a warp to the
    configured respawn map and coordinates, which are map 1, x 1024,
    y 1024 when the three keys are not configured. *)
Theorem respawn_cases
    (ATTR_HP ATTR_MAX_HP : Z) (Script_execute : N -> Z -> M unit) (w : World) :
  (getAction (being w) <> DEAD ->
     exists w',
       respawn ATTR_HP ATTR_MAX_HP Script_execute w = Some (tt, w')
       /\ trace w' = trace w ++ [LOG_WARN_respawn_without_being_dead]
       /\ being w' = being w
       /\ character w' = character w
       /\ entityMap w' = entityMap w
       /\ actorPosition w' = actorPosition w)
  /\ (getAction (being w) = DEAD ->
      exists w1,
        setAction STAND w = Some (tt, w1)
        /\ getAction (being w1) = STAND
        /\ (forall f, mDeathAcceptedCallback w = Some f ->
              respawn ATTR_HP ATTR_MAX_HP Script_execute w
              = Script_execute f (entityMap w)
                  (set_trace (trace w ++ [Script_prepare f; Script_push_entity]) w1))
        /\ (mDeathAcceptedCallback w = None ->
            exists w',
              respawn ATTR_HP ATTR_MAX_HP Script_execute w = Some (tt, w')
              /\ getAction (being w') = STAND
              /\ getAttributeBase (being w') (to_unsigned ATTR_HP)
                 = getModifiedAttribute (being w1) (to_unsigned ATTR_MAX_HP)
              /\ getModifiedAttribute (being w1) (to_unsigned ATTR_MAX_HP)
                 = getModifiedAttribute (being w) (to_unsigned ATTR_MAX_HP)
              /\ trace w'
                 = trace w ++
                   [AccountHandler_updateAttributes (mDatabaseID (character w))
                      (to_unsigned ATTR_HP)
                      (getAttributeBase (being w') (to_unsigned ATTR_HP))
                      (getModifiedAttribute (being w') (to_unsigned ATTR_HP));
                    GameState_enqueueWarp
                      (getValue (configuration w) "char_respawnMap" 1)
                      (getValue (configuration w) "char_respawnX" 1024)
                      (getValue (configuration w) "char_respawnY" 1024)]
              /\ actorPosition w' = actorPosition w
              /\ (configuration w !! "char_respawnMap" = None ->
                  configuration w !! "char_respawnX" = None ->
                  configuration w !! "char_respawnY" = None ->
                  last (trace w') = Some (GameState_enqueueWarp 1 1024 1024)))).
Proof.
  split.
  - intros Hd%is_DEAD_false. rewrite (respawn_not_dead _ _ _ _ Hd).
    eexists. split; [reflexivity|]. split_and!; reflexivity.
  - intros Hd. pose proof (proj2 (is_DEAD_true _) Hd) as Hd'.
    eexists. split; [reflexivity|]. split_and!.
    + reflexivity.
    + intros f Hf. rewrite (respawn_script _ _ _ _ f Hd' Hf). reflexivity.
    + intros Hf. rewrite (respawn_fallback _ _ _ _ Hd' Hf).
      eexists. split; [reflexivity|]. unfold respawned. run.
      split_and!; try reflexivity.
      * apply getAttributeBase_setBase.
      * intros Hm Hx Hy. unfold getValue. rewrite Hm, Hx, Hy.
        rewrite last_app_cons. reflexivity.
Qed.

Lemma respawn_cases_witness :
  (exists w', respawn 13 14 (fun _ _ => mret tt) (example_world STAND) = Some (tt, w')
              /\ trace w' = [LOG_WARN_respawn_without_being_dead]
              /\ being w' = being (example_world STAND))
  /\ (exists w', respawn 13 14 (fun _ _ => mret tt) (example_world DEAD) = Some (tt, w')
                 /\ getAction (being w') = STAND
                 /\ getAttributeBase (being w') 13 = 25%float
                 /\ last (trace w') = Some (GameState_enqueueWarp 1 1024 1024)).
Proof.
  split.
  - destruct (respawn_cases 13 14 (fun _ _ => mret tt) (example_world STAND))
      as [(w' & Hrun & Ht & Hb & _) _]; [discriminate|].
    exists w'. split_and!; assumption.
  - destruct (respawn_cases 13 14 (fun _ _ => mret tt) (example_world DEAD)) as [_ H].
    destruct H as (w1 & Hs & _ & _ & H); [reflexivity|].
    destruct H as (w' & Hrun & Ha & Hhp & Hmax & _ & _ & Hlast); [reflexivity|].
    exists w'. split_and!; [exact Hrun | exact Ha | | by apply Hlast].
    etrans; [exact Hhp|]. etrans; [exact Hmax|]. vm_compute. reflexivity.
Defined.

(** A configured respawn point overrides the defaults. *)
Example respawn_configured :
  let w := mkWorld example_character (example_being DEAD) 3 (100, 200) None
             {[ "char_respawnMap" := 7; "char_respawnX" := 64 ]} [] in
  (fun r => last (trace r.2)) <$> respawn 13 14 (fun _ _ => mret tt) w
  = Some (Some (GameState_enqueueWarp 7 64 1024)).
Proof. vm_compute. reflexivity. Qed.

End RespawnSpec.

Module SyncFacts.

Import CInt CIntFacts Character CharacterFacts.

Lemma union_swap (attr : Z) (s1 s2 : gset Z) :
  s1 ∪ ({[attr]} ∪ s2) = {[attr]} ∪ s1 ∪ s2.
Proof. set_solver. Qed.

Lemma attributeChanged_all_notified l : forall w,
  attributeChanged_all l w = Some (tt, notified l w).
Proof.
  induction l as [|attr l IH]; intros w.
  - open_world w. unfold notified. cbn [attributeChanged_all]. run.
    cbn [list_to_set map]. rewrite app_nil_r.
    rewrite (left_id_L ∅ (∪)). reflexivity.
  - cbn [attributeChanged_all]. unfold mbind at 1, M_bind at 1.
    assert (Hstep : attributeChanged attr w
              = Some (tt, notified [attr] w)).
    { unfold notified. run. cbn [list_to_set map].
      rewrite (right_id_L ∅ (∪)). reflexivity. }
    rewrite Hstep, IH. open_world w. unfold notified. run.
    cbn [list_to_set map]. rewrite (right_id_L ∅ (∪)).
    rewrite (union_swap attr). reflexivity.
Qed.

Lemma fold_write_attribute b ids : forall msg,
  fold_left (write_attribute b) ids msg
  = mkMessageOut (msg_id msg) (msg_fields msg ++ flat_map (entry b) ids).
Proof.
  induction ids as [|i ids IH]; intros msg.
  - destruct msg. simpl. by rewrite app_nil_r.
  - cbn [fold_left flat_map]. rewrite IH. unfold write_attribute, write, entry.
    simpl. by rewrite <- !app_assoc.
Qed.

Lemma getLength_entries op b ids :
  getLength (mkMessageOut op (flat_map (entry b) ids)) = 2 + 10 * Z.of_nat (length ids).
Proof.
  unfold getLength. cbn [msg_fields]. f_equal.
  induction ids as [|i ids IH]; [reflexivity|].
  cbn [flat_map entry app foldr field_size length]. rewrite IH. lia.
Qed.

Lemma listed_ids_entries op b ids :
  listed_ids (mkMessageOut op (flat_map (entry b) ids)) = map wrap_int ids.
Proof.
  unfold listed_ids. cbn [msg_fields].
  induction ids as [|i ids IH]; [reflexivity|].
  cbn [flat_map entry app omap list_omap map]. simpl. by rewrite IH.
Qed.

Lemma sendStatus_result w :
  sendStatus w
  = Some (tt,
          set_character (set_mModifiedAttributes ∅ (character w))
            (match iterate (mModifiedAttributes (character w)) with
             | [] => w
             | _ :: _ => set_trace (trace w ++ [GameHandler_sendTo (status_message w)]) w
             end)).
Proof.
  unfold sendStatus. unfold mbind at 1, M_bind at 1, world at 1.
  rewrite fold_write_attribute. cbn [msg_id msg_fields app].
  rewrite getLength_entries. unfold status_message.
  destruct (iterate (mModifiedAttributes (character w))) as [|i ids] eqn:E.
  - reflexivity.
  - destruct (Z.ltb_spec 2 (2 + 10 * Z.of_nat (length (i :: ids)))) as [_|Hle];
      [|simpl in Hle; lia].
    reflexivity.
Qed.

(** *** The traversal of the dirty set *)

Lemma elem_of_iterate s a : a ∈ iterate s <-> a ∈ s.
Proof. unfold iterate. by rewrite merge_sort_Permutation, elem_of_elements. Qed.

Lemma NoDup_iterate s : NoDup (iterate s).
Proof. unfold iterate. rewrite merge_sort_Permutation. apply NoDup_elements. Qed.

Lemma ascending_NoDup l :
  StronglySorted Z.le l -> NoDup l -> StronglySorted Z.lt l.
Proof.
  induction 1 as [|x l Hs IH Hall]; intros Hnd; [constructor|].
  apply NoDup_cons in Hnd as [Hx Hnd]. constructor; [by apply IH|].
  rewrite Forall_forall in Hall |- *. intros y Hy.
  assert (x <> y) by (intros ->; contradiction).
  specialize (Hall y Hy). lia.
Qed.

Lemma iterate_ascending s : StronglySorted Z.lt (iterate s).
Proof.
  apply ascending_NoDup; [|apply NoDup_iterate].
  unfold iterate. apply StronglySorted_merge_sort; apply _.
Qed.

Lemma count_occ_NoDup (l : list Z) a :
  NoDup l -> a ∈ l -> count_occ Z.eq_dec l a = 1%nat.
Proof.
  intros Hnd%NoDup_ListNoDup Ha. apply (proj1 (NoDup_count_occ' Z.eq_dec l) Hnd).
  by apply list_elem_of_In.
Qed.

(** Converting an [unsigned] to [int] loses nothing. *)
Lemma wrap_int_inj a b :
  is_unsigned a -> is_unsigned b -> wrap_int a = wrap_int b -> a = b.
Proof.
  unfold is_unsigned, wrap_int. intros Ha Hb H.
  assert (Hm : (a + 2 ^ 31) mod 2 ^ 32 = (b + 2 ^ 31) mod 2 ^ 32) by lia.
  clear H. revert Hm.
  change (2 ^ 31) with 2147483648 in *. change (2 ^ 32) with 4294967296 in *.
  intros Hm.
  pose proof (Z.div_mod (a + 2147483648) 4294967296 ltac:(lia)).
  pose proof (Z.div_mod (b + 2147483648) 4294967296 ltac:(lia)).
  pose proof (Z.mod_pos_bound (a + 2147483648) 4294967296 ltac:(lia)).
  pose proof (Z.mod_pos_bound (b + 2147483648) 4294967296 ltac:(lia)).
  lia.
Qed.

Lemma NoDup_wrap_int l :
  Forall is_unsigned l -> NoDup l -> NoDup (map wrap_int l).
Proof.
  intros Hu Hnd. apply (NoDup_fmap_2_strong wrap_int); [|exact Hnd].
  rewrite Forall_forall in Hu.
  intros a b Ha Hb. apply wrap_int_inj; by apply Hu.
Qed.

End SyncFacts.

Module SyncSpec.

Import CInt CIntFacts Character CharacterFacts SyncFacts.

(** C7. After any run of [attributeChanged] notifications the dirty set
    holds exactly the notified ids (and those that were dirty before),
    each once however often it was notified. [sendStatus] then writes
    one entry per dirty id, in ascending order of the ids, sends the
    message when there is an entry, and empties the set; the ids the
    message lists are the dirty ids converted to [int], each exactly
    once, and they are the ids themselves up to [INT_MAX]. The order is
    stable: a run that notifies the same ids in another order or
    another number of times makes [sendStatus] send the same message. *)
Theorem dirty_set_flushed_once (l : list Z) (w : World) :
  Forall is_unsigned l ->
  set_Forall is_unsigned (mModifiedAttributes (character w)) ->
  exists w1 w2,
    attributeChanged_all l w = Some (tt, w1)
    /\ sendStatus w1 = Some (tt, w2)
    /\ let dirty := mModifiedAttributes (character w1) in
       let ids := iterate dirty in
       (forall a, a ∈ dirty <-> a ∈ l \/ a ∈ mModifiedAttributes (character w))
       /\ (forall a, a ∈ l -> count_occ Z.eq_dec ids a = 1%nat)
       /\ StronglySorted Z.lt ids
       /\ mModifiedAttributes (character w2) = ∅
       /\ (ids = [] -> new_calls w1 w2 = [])
       /\ (ids <> [] ->
           exists msg,
             new_calls w1 w2 = [GameHandler_sendTo msg]
             /\ msg_id msg = GPMSG_PLAYER_ATTRIBUTE_CHANGE
             /\ msg_fields msg = flat_map (entry (being w1)) ids
             /\ listed_ids msg = map wrap_int ids
             /\ (forall a, a ∈ dirty ->
                   count_occ Z.eq_dec (listed_ids msg) (wrap_int a) = 1%nat)
             /\ (forall a, a ∈ dirty -> a <= INT_MAX -> wrap_int a = a))
       /\ (forall l' w1' w2',
             (forall a, a ∈ l' <-> a ∈ l) ->
             attributeChanged_all l' w = Some (tt, w1') ->
             sendStatus w1' = Some (tt, w2') ->
             iterate (mModifiedAttributes (character w1')) = ids
             /\ new_calls w1' w2' = new_calls w1 w2).
Proof.
  intros Hl Hs.
  exists (notified l w). eexists.
  split; [apply attributeChanged_all_notified|].
  split; [apply sendStatus_result|].
  set (dirty := mModifiedAttributes (character (notified l w))).
  assert (Hdirty : dirty = list_to_set l ∪ mModifiedAttributes (character w))
    by (open_world w; reflexivity).
  assert (Hmem : forall a, a ∈ dirty <-> a ∈ l \/ a ∈ mModifiedAttributes (character w)).
  { intros a. rewrite Hdirty. set_solver. }
  assert (Hu : Forall is_unsigned (iterate dirty)).
  { apply Forall_forall. intros a Ha%elem_of_iterate%Hmem.
    destruct Ha as [Ha|Ha]; [|by apply Hs].
    rewrite Forall_forall in Hl. by apply Hl. }
  assert (Hcalls : forall v : World,
             new_calls v
               (set_character (set_mModifiedAttributes ∅ (character v))
                  (match iterate (mModifiedAttributes (character v)) with
                   | [] => v
                   | _ :: _ =>
                       set_trace (trace v ++ [GameHandler_sendTo (status_message v)]) v
                   end))
             = match iterate (mModifiedAttributes (character v)) with
               | [] => []
               | _ :: _ => [GameHandler_sendTo (status_message v)]
               end).
  { intros v. unfold new_calls.
    destruct (iterate (mModifiedAttributes (character v))); run.
    - apply drop_all.
    - by rewrite drop_app_length. }
  cbn zeta. split_and!.
  - exact Hmem.
  - intros a Ha. apply count_occ_NoDup; [apply NoDup_iterate|].
    apply elem_of_iterate, Hmem. by left.
  - apply iterate_ascending.
  - destruct (iterate dirty); reflexivity.
  - intros Hnil. rewrite Hcalls. fold dirty. by rewrite Hnil.
  - intros Hne. exists (status_message (notified l w)).
    split_and!.
    + rewrite Hcalls. fold dirty. by destruct (iterate dirty).
    + reflexivity.
    + reflexivity.
    + apply listed_ids_entries.
    + intros a Ha. unfold status_message. rewrite listed_ids_entries. fold dirty.
      apply count_occ_NoDup.
      * apply NoDup_wrap_int; [exact Hu | apply NoDup_iterate].
      * apply list_elem_of_In, in_map, list_elem_of_In, elem_of_iterate, Ha.
    + intros a Ha Hmax. apply wrap_int_id.
      assert (is_unsigned a) as [H0 _].
      { rewrite Forall_forall in Hu. by apply Hu, elem_of_iterate. }
      unfold in_int, INT_MIN. lia.
  - intros l' w1' w2' Hsame Hrun' Hsend'.
    rewrite attributeChanged_all_notified in Hrun'.
    rewrite sendStatus_result in Hsend'.
    injection Hrun' as <-. injection Hsend' as <-.
    assert (Hd' : mModifiedAttributes (character (notified l' w)) = dirty).
    { rewrite Hdirty. open_world w. f_equal. set_solver. }
    split; [by rewrite Hd'|].
    rewrite !Hcalls. fold dirty. rewrite Hd'.
    unfold status_message. fold dirty. rewrite Hd'. reflexivity.
Qed.

Lemma dirty_set_flushed_once_witness :
  exists w1 w2 msg,
    attributeChanged_all [14; 1; 14; 13; 1] (example_world STAND) = Some (tt, w1)
    /\ sendStatus w1 = Some (tt, w2)
    /\ iterate (mModifiedAttributes (character w1)) = [1; 13; 14]
    /\ new_calls w1 w2 = [GameHandler_sendTo msg]
    /\ listed_ids msg = [1; 13; 14].
Proof.
  destruct (dirty_set_flushed_once [14; 1; 14; 13; 1] (example_world STAND))
    as (w1 & w2 & Hrun & Hsend & _ & _ & _ & _ & _ & Hmsg & _).
  - repeat constructor; vm_compute; congruence.
  - intros a Ha. exfalso. revert Ha. apply not_elem_of_empty.
  - rewrite attributeChanged_all_notified in Hrun. injection Hrun as <-.
    destruct Hmsg as (msg & Hcalls & _ & _ & Hids & _).
    + vm_compute. discriminate.
    + exists (notified [14; 1; 14; 13; 1] (example_world STAND)), w2, msg.
      split_and!; [apply attributeChanged_all_notified | exact Hsend
                  | vm_compute; reflexivity | exact Hcalls | ].
      rewrite Hids. vm_compute. reflexivity.
Defined.

(** The message flushed for three dirty attributes. *)
Example sendStatus_three_dirty :
  (fun r => new_calls (example_world STAND) r.2)
    <$> (attributeChanged_all [14; 1; 14];; sendStatus) (example_world STAND)
  = Some [AccountHandler_updateAttributes 42 14 20%float 25%float;
          AccountHandler_updateAttributes 42 1 5%float 5%float;
          AccountHandler_updateAttributes 42 14 20%float 25%float;
          GameHandler_sendTo
            (mkMessageOut GPMSG_PLAYER_ATTRIBUTE_CHANGE
               [Int16 1; Int32_of_double 1280%float; Int32_of_double 1280%float;
                Int16 14; Int32_of_double 5120%float; Int32_of_double 6400%float])].
Proof. vm_compute. reflexivity. Qed.

End SyncSpec.

Module PermissionTableFacts.

Import CInt CIntFacts PermissionManager PermissionManagerFacts PermissionTable.

(** *** Unions of optional bitmasks *)

Lemma join_None_r a : join a None = a.
Proof. by destruct a. Qed.

Lemma join_assoc a b c : join (join a b) c = join a (join b c).
Proof. destruct a, b, c; simpl; try done. by rewrite Z.lor_assoc. Qed.

Lemma join_absorb a b : join (join a b) b = join a b.
Proof.
  destruct a, b; simpl; try done.
  - by rewrite <- Z.lor_assoc, Z.lor_diag.
  - by rewrite Z.lor_diag.
Qed.

Lemma join_is_Some_l a b : is_Some a -> is_Some (join a b).
Proof. intros [x ->]. destruct b; simpl; eauto. Qed.

(** *** Where the loader reads through a missing child *)

Lemma permission_step_undefined perNode :
  has_text_child perNode \/ forall classmask st, permission_step classmask perNode st = None.
Proof.
  unfold has_text_child, permission_step, first_child_content.
  destruct (xmlChildrenNode perNode) as [|c l].
  - destruct (String.eqb_spec (node_name perNode) "allow") as [Ha|Ha];
      [right; done|].
    destruct (String.eqb_spec (node_name perNode) "deny") as [Hd|Hd];
      [right; done|].
    destruct (String.eqb_spec (node_name perNode) "alias") as [Hl|Hl];
      [right; done|].
    left. intros [?|[?|?]]; contradiction.
  - left. done.
Qed.

Lemma permission_loop_undefined perNodes :
  Forall has_text_child perNodes
  \/ forall classmask st, permission_loop classmask perNodes st = None.
Proof.
  induction perNodes as [|perNode rest IH]; [left; constructor|].
  destruct (permission_step_undefined perNode) as [Hok|Hbad].
  - destruct IH as [Hrest|Hrest]; [left; by constructor|].
    right. intros classmask st. cbn [permission_loop].
    destruct (permission_step classmask perNode st); [apply Hrest | reflexivity].
  - right. intros classmask st. cbn [permission_loop]. by rewrite Hbad.
Qed.

Lemma permission_loop_returns classmask perNodes : forall st,
  Forall has_text_child perNodes ->
  is_Some (permission_loop classmask perNodes st).
Proof.
  induction perNodes as [|perNode rest IH]; intros st Hall; [by eexists|].
  apply Forall_cons in Hall as [Hhd Htl]. cbn [permission_loop].
  rewrite (permission_step_allowed _ _ _ Hhd). by apply IH.
Qed.

Lemma class_level_step node st :
  class_step node st
  = match class_level node with
    | Some level => permission_loop (classmask_of level) (xmlChildrenNode node) st
    | None =>
        if negb (String.eqb (node_name node) "class") then Some st
        else Some (LOG (Warn_IllegalClassLevel (getProperty node "level" 0)
                          (permissionFile st)) st)
    end.
Proof.
  unfold class_step, class_level.
  destruct (negb (String.eqb (node_name node) "class")); [reflexivity|].
  by destruct ((getProperty node "level" 0 <? 1) || (8 <? getProperty node "level" 0)).
Qed.

Lemma class_level_range node level :
  class_level node = Some level -> 1 <= level <= 8.
Proof.
  unfold class_level.
  destruct (negb (String.eqb (node_name node) "class")); [discriminate|].
  destruct (Z.ltb_spec (getProperty node "level" 0) 1); [discriminate|].
  destruct (Z.ltb_spec 8 (getProperty node "level" 0)); [discriminate|].
  simpl. intros [= <-]. lia.
Qed.

Lemma class_step_undefined node :
  class_ok node \/ forall st, class_step node st = None.
Proof.
  unfold class_ok. destruct (class_level node) as [level|] eqn:E; [|by left].
  destruct (permission_loop_undefined (xmlChildrenNode node)) as [Hok|Hbad]; [by left|].
  right. intros st. rewrite class_level_step, E. apply Hbad.
Qed.

(** *** The table after one element of the root, and after all *)

Lemma class_step_table node st :
  class_ok node -> table_wf (permissions st) ->
  exists st',
    class_step node st = Some st'
    /\ permissionFile st' = permissionFile st
    /\ table_wf (permissions st')
    /\ forall p, permissions st' !! p = join (permissions st !! p) (grant node p).
Proof.
  intros Hok Hwf. rewrite class_level_step. unfold class_ok, grant in *.
  destruct (class_level node) as [level|] eqn:E.
  - destruct (permission_loop_table level (xmlChildrenNode node) st
                (class_level_range _ _ E) Hwf Hok)
      as (st' & Hrun & Hfile & _ & Hwf' & Hlook).
    exists st'. split_and!; [done | done | done |].
    intros p. rewrite Hlook. unfold level_bit.
    destruct (decide (p ∈ allowed_names (xmlChildrenNode node))) as [Hin|Hin].
    + rewrite bool_decide_eq_true_2 by done.
      destruct (permissions st !! p); simpl; [done|]. by rewrite Z.lor_0_l.
    + rewrite bool_decide_eq_false_2 by done. by rewrite join_None_r.
  - destruct (negb (String.eqb (node_name node) "class"));
      eexists; (split_and!; [done | done | done |]);
      intros p; by rewrite join_None_r.
Qed.

Lemma class_loop_table nodes : forall st,
  Forall class_ok nodes -> table_wf (permissions st) ->
  exists st',
    class_loop nodes st = Some st'
    /\ permissionFile st' = permissionFile st
    /\ table_wf (permissions st')
    /\ forall p, permissions st' !! p = join (permissions st !! p) (granted nodes p).
Proof.
  induction nodes as [|node rest IH]; intros st Hall Hwf.
  - exists st. split_and!; [done | done | done |].
    intros p. by rewrite join_None_r.
  - apply Forall_cons in Hall as [Hhd Htl].
    destruct (class_step_table node st Hhd Hwf) as (st1 & Hstep & Hf1 & Hwf1 & Hl1).
    destruct (IH st1 Htl Hwf1) as (st' & Hrun & Hf' & Hwf' & Hl').
    exists st'. cbn [class_loop]. rewrite Hstep.
    split_and!; [done | congruence | done |].
    intros p. rewrite Hl', Hl1. cbn [granted foldr]. apply join_assoc.
Qed.

Lemma class_loop_undefined nodes :
  Forall class_ok nodes \/ forall st, class_loop nodes st = None.
Proof.
  induction nodes as [|node rest IH]; [left; constructor|].
  destruct (class_step_undefined node) as [Hok|Hbad].
  - destruct IH as [Hrest|Hrest]; [left; by constructor|].
    right. intros st. cbn [class_loop].
    destruct (class_step node st); [apply Hrest | reflexivity].
  - right. intros st. cbn [class_loop]. by rewrite Hbad.
Qed.

(** [reload] on a document with the root [permissions]. *)
Lemma reload_document nodes st :
  reload (document nodes) st
  = match class_loop nodes (LOG Info_Loading st) with
    | Some st' => Some (LOG (Info_PermissionList (permissions st')) st')
    | None => None
    end.
Proof. reflexivity. Qed.

Lemma reload_document_table nodes st :
  Forall class_ok nodes -> table_wf (permissions st) ->
  exists st',
    reload (document nodes) st = Some st'
    /\ permissionFile st' = permissionFile st
    /\ table_wf (permissions st')
    /\ forall p, permissions st' !! p = join (permissions st !! p) (granted nodes p).
Proof.
  intros Hall Hwf. rewrite reload_document.
  destruct (class_loop_table nodes (LOG Info_Loading st) Hall Hwf)
    as (st' & Hrun & Hf & Hwf' & Hl).
  rewrite Hrun. eexists. split_and!; [done | exact Hf | exact Hwf' | exact Hl].
Qed.

(** *** The bits of a granted mask *)

Lemma level_bit_testbit level i :
  1 <= level -> Z.testbit (level_bit level) i = bool_decide (i = level - 1).
Proof.
  intros Hl. unfold level_bit. rewrite Z.shiftl_1_l, Z.pow2_bits_eqb by lia.
  destruct (Z.eqb_spec (level - 1) i); [by rewrite bool_decide_eq_true_2
                                       | by rewrite bool_decide_eq_false_2].
Qed.

Lemma grant_Some node p m :
  grant node p = Some m <->
  exists level, class_level node = Some level
                /\ p ∈ allowed_names (xmlChildrenNode node)
                /\ m = level_bit level.
Proof.
  unfold grant. destruct (class_level node) as [level|].
  - case_bool_decide as Hin.
    + split; [intros [= <-]; eauto | intros (l & [= <-] & _ & ->); done].
    + split; [done | intros (l & _ & Hin' & _); contradiction].
  - split; [done | intros (l & Hl & _); discriminate].
Qed.

Lemma granted_None nodes p :
  granted nodes p = None <-> forall node, node ∈ nodes -> grant node p = None.
Proof.
  induction nodes as [|node rest IH]; cbn [granted foldr].
  - split; [intros _ node Hin; by apply elem_of_nil in Hin | done].
  - fold (granted rest p). split.
    + intros Hj node' [->|Hin]%elem_of_cons.
      * destruct (grant node p); [by destruct (granted rest p) | done].
      * apply IH; [|done]. destruct (grant node p); [by destruct (granted rest p)|done].
    + intros Hall. rewrite (Hall node) by (apply elem_of_cons; by left).
      apply IH. intros node' Hin. apply Hall, elem_of_cons. by right.
Qed.

Lemma granted_testbit nodes p m i :
  granted nodes p = Some m ->
  (Z.testbit m i = true <->
   exists node, node ∈ nodes /\ class_level node = Some (i + 1)
                /\ p ∈ allowed_names (xmlChildrenNode node)).
Proof.
  revert m. induction nodes as [|node rest IH]; intros m; cbn [granted foldr];
    [done|].
  fold (granted rest p).
  assert (Hnode : forall b, grant node p = Some b ->
            (Z.testbit b i = true <->
             class_level node = Some (i + 1)
             /\ p ∈ allowed_names (xmlChildrenNode node))).
  { intros b (level & Hlev & Hin & ->)%grant_Some.
    rewrite level_bit_testbit by (apply class_level_range in Hlev; lia).
    rewrite bool_decide_eq_true. split.
    - intros ->. split; [|done]. rewrite Hlev. f_equal. lia.
    - intros [Hl _]. rewrite Hlev in Hl. injection Hl. lia. }
  destruct (grant node p) as [b|] eqn:Eg; destruct (granted rest p) as [g|] eqn:Er;
    simpl; intros [= <-].
  - rewrite Z.lor_spec, orb_true_iff, (Hnode b eq_refl), (IH g eq_refl). split.
    + intros [[Hl Hin]|(n & Hn & Hl & Hin)].
      * exists node. split_and!; [apply elem_of_cons; by left | done | done].
      * exists n. split_and!; [apply elem_of_cons; by right | done | done].
    + intros (n & [->|Hn]%elem_of_cons & Hl & Hin); [by left | right; eauto].
  - rewrite (Hnode b eq_refl). split.
    + intros [Hl Hin]. exists node. split_and!; [apply elem_of_cons; by left|done|done].
    + intros (n & [->|Hn]%elem_of_cons & Hl & Hin); [done|].
      exfalso. pose proof (proj1 (granted_None rest p) Er n Hn) as Hnone.
      assert (is_Some (grant n p)) as [x Hx]; [|congruence].
      unfold grant. rewrite Hl, bool_decide_eq_true_2 by done. eauto.
  - rewrite (IH g eq_refl). split.
    + intros (n & Hn & Hl & Hin). exists n.
      split_and!; [apply elem_of_cons; by right | done | done].
    + intros (n & [->|Hn]%elem_of_cons & Hl & Hin); [|eauto].
      exfalso. unfold grant in Eg. rewrite Hl, bool_decide_eq_true_2 in Eg by done.
      discriminate.
Qed.

(** *** Deny and alias elements *)

Lemma allowed_name_deny_alias perNode :
  is_deny_or_alias perNode = true -> allowed_name perNode = None.
Proof.
  unfold is_deny_or_alias, allowed_name.
  destruct (String.eqb_spec (node_name perNode) "allow") as [Ha|]; [|done].
  rewrite Ha. discriminate.
Qed.

Lemma allowed_names_filter perNodes :
  allowed_names (filter (fun perNode => is_deny_or_alias perNode = false) perNodes)
  = allowed_names perNodes.
Proof.
  induction perNodes as [|perNode rest IH]; [reflexivity|].
  rewrite filter_cons. destruct (is_deny_or_alias perNode) eqn:E.
  - rewrite decide_False by discriminate. rewrite IH, allowed_names_cons.
    by rewrite (allowed_name_deny_alias _ E).
  - rewrite decide_True by done. rewrite !allowed_names_cons, IH. reflexivity.
Qed.

Lemma grant_without_deny_alias node p :
  grant (without_deny_alias node) p = grant node p.
Proof.
  unfold grant, class_level, without_deny_alias, getProperty. simpl.
  by rewrite allowed_names_filter.
Qed.

Lemma granted_without_deny_alias nodes p :
  granted (without_deny_alias <$> nodes) p = granted nodes p.
Proof.
  induction nodes as [|node rest IH]; [reflexivity|].
  cbn [fmap list_fmap granted foldr]. fold (granted rest p).
  fold (granted (without_deny_alias <$> rest) p).
  by rewrite grant_without_deny_alias, IH.
Qed.

Lemma class_ok_without_deny_alias node :
  class_ok node -> class_ok (without_deny_alias node).
Proof.
  unfold class_ok.
  assert (Hl : class_level (without_deny_alias node) = class_level node) by reflexivity.
  rewrite Hl. destruct (class_level node); [|done].
  simpl. rewrite !Forall_forall. intros Hall perNode [_ Hin]%list_elem_of_filter.
  by apply Hall.
Qed.

End PermissionTableFacts.

Module PermissionTableSpec.

Import CInt CIntFacts PermissionManager PermissionManagerFacts PermissionTable
       PermissionTableFacts.

Lemma checkPermission_allowed accountLevel p st :
  (checkPermission accountLevel p st).1 = PMR_ALLOWED <->
  exists m, permissions st !! p = Some m /\ Z.land accountLevel m <> 0.
Proof.
  unfold checkPermission. destruct (permissions st !! p) as [m|].
  - destruct (Z.eqb_spec (Z.land accountLevel m) 0) as [Hz|Hnz]; simpl.
    + split; [done|]. intros (m' & [= <-] & Hne). contradiction.
    + split; [eauto | done].
  - simpl. split; [done|]. intros (m & Hm & _). discriminate.
Qed.

Lemma checkPermission_unknown accountLevel p st :
  (checkPermission accountLevel p st).1 = PMR_UNKNOWN <-> permissions st !! p = None.
Proof.
  unfold checkPermission. destruct (permissions st !! p) as [m|]; simpl; [|done].
  by destruct (Z.land accountLevel m =? 0).
Qed.

Lemma checkPermission_table accountLevel p st1 st2 :
  permissions st1 !! p = permissions st2 !! p ->
  (checkPermission accountLevel p st1).1 = (checkPermission accountLevel p st2).1.
Proof.
  intros H. unfold checkPermission. rewrite H.
  destruct (permissions st2 !! p) as [m|]; [|done].
  by destruct (Z.land accountLevel m =? 0).
Qed.

Lemma land_lor_nonzero a m g : Z.land a m <> 0 -> Z.land a (Z.lor m g) <> 0.
Proof.
  intros Hne Hz. rewrite Z.land_lor_distr_r in Hz.
  apply Z.lor_eq_0_iff in Hz as [Hz _]. contradiction.
Qed.

Lemma land_nonzero_bit a m :
  Z.land a m <> 0 <-> exists i, Z.testbit a i = true /\ Z.testbit m i = true.
Proof.
  split.
  - intros (i & Hi)%nonzero_has_bit. rewrite Z.land_spec in Hi.
    apply andb_true_iff in Hi. eauto.
  - intros (i & Ha & Hm) Hz.
    assert (Hb : Z.testbit (Z.land a m) i = true) by (by rewrite Z.land_spec, Ha, Hm).
    rewrite Hz, Z.bits_0 in Hb. discriminate.
Qed.

(** [reload] on a file whose root is [permissions]. *)
Lemma reload_root fs st root :
  fs (permissionFile st) = Document (Some root) ->
  node_name root = "permissions" ->
  reload fs st = reload (document (xmlChildrenNode root)) st.
Proof. intros Hfs Hname. unfold reload, document. rewrite Hfs, Hname. reflexivity. Qed.

(** [reload] on anything else logs an error and leaves the table. *)
Lemma reload_not_root fs st :
  (forall root, fs (permissionFile st) = Document (Some root) ->
                node_name root <> "permissions") ->
  exists e, reload fs st = Some (LOG e st).
Proof.
  intros Hbad. unfold reload.
  destruct (fs (permissionFile st)) as [| |[root|]]; eauto.
  destruct (String.eqb_spec (node_name root) "permissions") as [Heq|Hne]; [|eauto].
  by destruct (Hbad root eq_refl).
Qed.

Lemma root_cases fs st :
  (exists root, fs (permissionFile st) = Document (Some root)
                /\ node_name root = "permissions")
  \/ (forall root, fs (permissionFile st) = Document (Some root) ->
                   node_name root <> "permissions").
Proof.
  destruct (fs (permissionFile st)) as [| |[root|]]; try (right; intros; discriminate).
  destruct (String.eqb_spec (node_name root) "permissions") as [Heq|Hne]; [left; eauto|].
  right. by intros root' [= <-].
Qed.

Lemma class_loop_returns_ok nodes st st' :
  class_loop nodes st = Some st' -> Forall class_ok nodes.
Proof.
  intros Hrun. destruct (class_loop_undefined nodes) as [Hok|Hbad]; [done|].
  rewrite Hbad in Hrun. discriminate.
Qed.

(** Whatever the file holds, a [reload] that returns gives a table that
    joins the old entries with what the file grants. *)
Lemma reload_joins fs st st' :
  table_wf (permissions st) -> reload fs st = Some st' ->
  permissionFile st' = permissionFile st
  /\ table_wf (permissions st')
  /\ exists g : string -> option Z,
       (forall p, permissions st' !! p = join (permissions st !! p) (g p))
       /\ (forall st0, permissionFile st0 = permissionFile st ->
             table_wf (permissions st0) ->
             exists st1, reload fs st0 = Some st1
                         /\ forall p, permissions st1 !! p
                                      = join (permissions st0 !! p) (g p)).
Proof.
  intros Hwf Hrun. destruct (root_cases fs st) as [(root & Hfs & Hname)|Hbad].
  - rewrite (reload_root _ _ _ Hfs Hname), reload_document in Hrun.
    destruct (class_loop (xmlChildrenNode root) (LOG Info_Loading st)) as [st1|] eqn:E;
      [|discriminate].
    injection Hrun as <-. apply class_loop_returns_ok in E as Hok.
    destruct (class_loop_table _ (LOG Info_Loading st) Hok Hwf)
      as (st2 & Hrun2 & Hf2 & Hwf2 & Hl2).
    rewrite E in Hrun2. injection Hrun2 as <-.
    split_and!; [exact Hf2 | exact Hwf2 |].
    exists (granted (xmlChildrenNode root)). split; [exact Hl2|].
    intros st0 Hf0 Hwf0. rewrite <- Hf0 in Hfs.
    rewrite (reload_root _ _ _ Hfs Hname).
    destruct (reload_document_table _ st0 Hok Hwf0) as (st3 & Hrun3 & _ & _ & Hl3).
    eauto.
  - destruct (reload_not_root fs st Hbad) as [e He].
    rewrite He in Hrun. injection Hrun as <-.
    split_and!; [done | done |].
    exists (fun _ => None). split; [intros p; by rewrite join_None_r|].
    intros st0 Hf0 Hwf0. rewrite <- Hf0 in Hbad.
    destruct (reload_not_root fs st0 Hbad) as [e0 He0].
    eexists. split; [exact He0|]. intros p. by rewrite join_None_r.
Qed.

(** *** Which documents make the loader read through a missing child *)

Lemma perNode_cases perNode : has_text_child perNode \/ empty_decl perNode.
Proof.
  unfold has_text_child, empty_decl.
  destruct (xmlChildrenNode perNode) as [|c l]; [|left; done].
  destruct (String.eqb_spec (node_name perNode) "allow") as [Ha|Ha]; [right; auto|].
  destruct (String.eqb_spec (node_name perNode) "deny") as [Hd|Hd]; [right; auto|].
  destruct (String.eqb_spec (node_name perNode) "alias") as [Hl|Hl]; [right; auto|].
  left. intros [?|[?|?]]; contradiction.
Qed.

Lemma empty_decl_undefined perNode classmask st :
  empty_decl perNode -> permission_step classmask perNode st = None.
Proof.
  intros [Hname Hnil]. unfold permission_step, first_child_content. rewrite Hnil.
  destruct Hname as [ -> | [ -> | -> ] ]; reflexivity.
Qed.

Lemma perNodes_cases perNodes :
  Forall has_text_child perNodes \/ Exists empty_decl perNodes.
Proof.
  induction perNodes as [|perNode rest IH]; [left; constructor|].
  destruct (perNode_cases perNode) as [Hok|Hbad]; [|right; by constructor].
  destruct IH as [Hrest|Hrest]; [left; by constructor | right; by constructor].
Qed.

Lemma Exists_empty_decl_undefined perNodes : forall classmask st,
  Exists empty_decl perNodes -> permission_loop classmask perNodes st = None.
Proof.
  induction perNodes as [|perNode rest IH]; intros classmask st Hex;
    [by apply Exists_nil in Hex|].
  cbn [permission_loop]. apply Exists_cons in Hex as [Hhd|Htl].
  - by rewrite empty_decl_undefined.
  - destruct (permission_step classmask perNode st); [by apply IH | reflexivity].
Qed.

Lemma nodes_cases nodes : Forall class_ok nodes \/ Exists reads_null_child nodes.
Proof.
  induction nodes as [|node rest IH]; [left; constructor|].
  assert (Hnode : class_ok node \/ reads_null_child node).
  { unfold class_ok, reads_null_child. destruct (class_level node) as [level|]; [|by left].
    destruct (perNodes_cases (xmlChildrenNode node)); [by left | right; eauto]. }
  destruct Hnode as [Hok|Hbad]; [|right; by constructor].
  destruct IH as [Hrest|Hrest]; [left; by constructor | right; by constructor].
Qed.

Lemma Exists_reads_null_child_undefined nodes : forall st,
  Exists reads_null_child nodes -> class_loop nodes st = None.
Proof.
  induction nodes as [|node rest IH]; intros st Hex; [by apply Exists_nil in Hex|].
  cbn [class_loop]. apply Exists_cons in Hex as [[[level Hl] Hhd]|Htl].
  - rewrite class_level_step, Hl. by rewrite Exists_empty_decl_undefined.
  - destruct (class_step node st); [by apply IH | reflexivity].
Qed.

Lemma class_loop_returns nodes : forall st,
  Forall class_ok nodes -> is_Some (class_loop nodes st).
Proof.
  induction nodes as [|node rest IH]; intros st Hall; [by eexists|].
  apply Forall_cons in Hall as [Hhd Htl]. cbn [class_loop].
  assert (is_Some (class_step node st)) as [st1 ->]; [|by apply IH].
  rewrite class_level_step. unfold class_ok in Hhd.
  destruct (class_level node); [by apply permission_loop_returns|].
  destruct (negb (String.eqb (node_name node) "class")); by eexists.
Qed.

Lemma class_level_allows nodes p :
  granted nodes p = None <-> forall node level, node ∈ nodes -> ~ allows node level p.
Proof.
  rewrite granted_None. split.
  - intros Hnone node level Hin [Hl Hp]. specialize (Hnone node Hin).
    unfold grant in Hnone. rewrite Hl, bool_decide_eq_true_2 in Hnone by done.
    discriminate.
  - intros Hno node Hin. destruct (grant node p) as [m|] eqn:E; [|done].
    apply grant_Some in E as (level & Hl & Hp & _).
    destruct (Hno node level Hin). by split.
Qed.

Lemma granted_Some_allows nodes p m :
  granted nodes p = Some m ->
  exists node level, node ∈ nodes /\ allows node level p.
Proof.
  revert m. induction nodes as [|node rest IH]; intros m; [done|].
  cbn [granted foldr]. fold (granted rest p).
  destruct (grant node p) as [b|] eqn:Eb.
  - intros _. apply grant_Some in Eb as (level & Hlev & Hp & _).
    exists node, level. split; [apply elem_of_cons; by left | by split].
  - simpl. intros Hg. destruct (IH m Hg) as (n & level & Hn & Ha).
    exists n, level. split; [apply elem_of_cons; by right | done].
Qed.

(** *** Properties of the loaded table *)

(** X1. Bits are united across declarations. After a [reload] of a file whose
    root is [permissions] and whose classes hold no empty allow, deny or
    alias element, a permission name has an entry exactly when it had one
    before or some class with a legal level allows it, and bit [i] of the
    entry is set exactly when it was set before or a class of level
    [i + 1] allows the name. *)
Theorem reload_unites_bits (fs : string -> FileContents) (st : State) (root : xmlNode) :
  fs (permissionFile st) = Document (Some root) ->
  node_name root = "permissions" ->
  Forall class_ok (xmlChildrenNode root) ->
  table_wf (permissions st) ->
  exists st',
    reload fs st = Some st'
    /\ table_wf (permissions st')
    /\ forall p,
         (is_Some (permissions st' !! p) <->
          is_Some (permissions st !! p)
          \/ exists node level, node ∈ xmlChildrenNode root /\ allows node level p)
         /\ forall m' i,
              permissions st' !! p = Some m' ->
              (Z.testbit m' i = true <->
               (exists m, permissions st !! p = Some m /\ Z.testbit m i = true)
               \/ exists node, node ∈ xmlChildrenNode root /\ allows node (i + 1) p).
Proof.
  intros Hfs Hname Hok Hwf. rewrite (reload_root _ _ _ Hfs Hname).
  destruct (reload_document_table _ st Hok Hwf) as (st' & Hrun & _ & Hwf' & Hl).
  exists st'. split_and!; [done | done |]. intros p. rewrite Hl. split.
  - destruct (granted (xmlChildrenNode root) p) as [g|] eqn:Eg.
    + split; [|intros _; destruct (permissions st !! p); by eexists].
      intros _. right. by apply (granted_Some_allows _ _ g).
    + rewrite join_None_r. split; [by left|]. intros [H|(node & level & Hin & Ha)]; [done|].
      exfalso. by apply (proj1 (class_level_allows _ p) Eg node level Hin).
  - intros m' i Hm'.
    destruct (permissions st !! p) as [m|] eqn:Em;
      destruct (granted (xmlChildrenNode root) p) as [g|] eqn:Eg;
      simpl in Hm'; try discriminate; injection Hm' as <-.
    + rewrite Z.lor_spec, orb_true_iff, (granted_testbit _ _ _ i Eg).
      unfold allows. split.
      * intros [Hb|(n & Hn & Hlev & Hp)]; [left; eauto | right; eauto].
      * intros [(m0 & [= <-] & Hb)|(n & Hn & Hlev & Hp)]; [by left | right; eauto].
    + split; [left; eauto|].
      intros [(m0 & [= <-] & Hb)|(n & Hn & Ha)]; [done|].
      exfalso. by apply (proj1 (class_level_allows _ p) Eg n (i + 1) Hn).
    + rewrite (granted_testbit _ _ _ i Eg). unfold allows. split.
      * intros (n & Hn & Hlev & Hp). right. eauto.
      * intros [(m0 & Hm0 & _)|(n & Hn & Hlev & Hp)]; [discriminate | eauto].
Qed.

Lemma example_classes_ok : Forall class_ok example_classes.
Proof.
  repeat constructor; unfold class_ok; simpl; try done;
    repeat constructor; intros _; discriminate.
Qed.

Lemma table_wf_empty : table_wf ∅.
Proof. intros p m Hp. rewrite lookup_empty in Hp. discriminate. Qed.

Lemma reload_unites_bits_witness :
  exists st', reload (document example_classes) example_state = Some st'
              /\ is_Some (permissions st' !! "@ban")
              /\ ~ is_Some (permissions st' !! "@shutdown").
Proof.
  destruct (reload_unites_bits (document example_classes) example_state
              (XmlNode "permissions" [] None example_classes) eq_refl eq_refl
              example_classes_ok table_wf_empty) as (st' & Hrun & _ & Hp).
  exists st'. split; [exact Hrun|]. split.
  - apply (Hp "@ban"). right. exists (class 8 [allow "@kick"; allow "@ban"]), 8.
    split; [|split; [reflexivity|]]; set_solver.
  - intros [Hold|(node & level & Hin & Hlev & Hal)]%(proj1 (Hp "@shutdown")).
    + destruct Hold as [m Hm]. cbn in Hm. rewrite lookup_empty in Hm. discriminate.
    + simpl in Hin. apply elem_of_cons in Hin as [->|Hin]; [|apply elem_of_cons in Hin as [->|Hin];
        [|apply elem_of_cons in Hin as [->|Hin]; [|apply elem_of_cons in Hin as [->|Hin];
        [|by apply elem_of_nil in Hin]]]];
        vm_compute in Hlev; try discriminate; injection Hlev as <-;
        vm_compute in Hal; set_solver.
Defined.

(** X2. A [reload] never revokes. Whatever the file now holds (missing,
    unparseable, wrong root, other classes), if [reload] returns then
    every permission check that answered [PMR_ALLOWED] before still
    answers [PMR_ALLOWED], and no known permission name becomes unknown:
    the table is added to in place, never cleared. *)
Theorem reload_never_revokes
    (fs : string -> FileContents) (st st' : State) (accountLevel : Z) (p : string) :
  table_wf (permissions st) ->
  reload fs st = Some st' ->
  ((checkPermission accountLevel p st).1 = PMR_ALLOWED ->
   (checkPermission accountLevel p st').1 = PMR_ALLOWED)
  /\ ((checkPermission accountLevel p st).1 <> PMR_UNKNOWN ->
      (checkPermission accountLevel p st').1 <> PMR_UNKNOWN).
Proof.
  intros Hwf Hrun.
  destruct (reload_joins fs st st' Hwf Hrun) as (_ & _ & g & Hl & _).
  rewrite !checkPermission_allowed, !checkPermission_unknown, Hl. split.
  - intros (m & -> & Hne). destruct (g p) as [x|]; simpl; eexists;
      (split; [reflexivity|]); [by apply land_lor_nonzero | done].
  - destruct (permissions st !! p) as [m|]; [|done]. intros _.
    by destruct (g p).
Qed.

Lemma reload_never_revokes_witness :
  exists st1 st2,
    reload (document example_classes) example_state = Some st1
    /\ reload (document [class 1 [allow "@warp"]]) st1 = Some st2
    /\ (checkPermission 2 "@kick" st1).1 = PMR_ALLOWED
    /\ (checkPermission 2 "@kick" st2).1 = PMR_ALLOWED.
Proof.
  destruct (reload_document_table example_classes example_state
              example_classes_ok table_wf_empty) as (st1 & Hrun1 & _ & Hwf1 & Hl1).
  assert (Hok2 : Forall class_ok [class 1 [allow "@warp"]]).
  { repeat constructor. unfold class_ok. simpl. repeat constructor.
    intros _. discriminate. }
  destruct (reload_document_table [class 1 [allow "@warp"]] st1 Hok2 Hwf1)
    as (st2 & Hrun2 & _ & _ & _).
  assert (Ha1 : (checkPermission 2 "@kick" st1).1 = PMR_ALLOWED).
  { apply checkPermission_allowed. rewrite Hl1. eexists. split; [reflexivity|].
    vm_compute. discriminate. }
  exists st1, st2. split_and!; [done | done | done |].
  by apply (reload_never_revokes (document [class 1 [allow "@warp"]]) st1 st2 2 "@kick"
              Hwf1 Hrun2).
Defined.

(** X3. Reloading an unchanged file again changes nothing in the table:
    every declaration or-s in bits that are already there. *)
Theorem reload_again_same_table (fs : string -> FileContents) (st st1 : State) :
  table_wf (permissions st) ->
  reload fs st = Some st1 ->
  exists st2, reload fs st1 = Some st2 /\ permissions st2 = permissions st1.
Proof.
  intros Hwf Hrun.
  destruct (reload_joins fs st st1 Hwf Hrun) as (Hf1 & Hwf1 & g & Hl1 & Hagain).
  destruct (Hagain st1 Hf1 Hwf1) as (st2 & Hrun2 & Hl2).
  exists st2. split; [exact Hrun2|]. apply map_eq. intros p.
  rewrite Hl2, Hl1. apply join_absorb.
Qed.

Lemma reload_again_same_table_witness :
  exists st1 st2,
    reload (document example_classes) example_state = Some st1
    /\ reload (document example_classes) st1 = Some st2
    /\ permissions st2 = permissions st1.
Proof.
  destruct (reload_document_table example_classes example_state
              example_classes_ok table_wf_empty) as (st1 & Hrun1 & _ & _ & _).
  destruct (reload_again_same_table (document example_classes) example_state st1
              table_wf_empty Hrun1) as (st2 & Hrun2 & Heq).
  by exists st1, st2.
Defined.

(** X4. Deny and alias elements are read and ignored: dropping them from
    every class of a file gives the same table, and so the same answer
    to every permission check. *)
Theorem deny_and_alias_are_ignored
    (nodes : list xmlNode) (st : State) :
  Forall class_ok nodes -> table_wf (permissions st) ->
  exists st1 st2,
    reload (document nodes) st = Some st1
    /\ reload (document (without_deny_alias <$> nodes)) st = Some st2
    /\ permissions st1 = permissions st2
    /\ forall accountLevel p,
         (checkPermission accountLevel p st1).1 = (checkPermission accountLevel p st2).1.
Proof.
  intros Hok Hwf.
  destruct (reload_document_table nodes st Hok Hwf) as (st1 & Hrun1 & _ & _ & Hl1).
  assert (Hok' : Forall class_ok (without_deny_alias <$> nodes)).
  { apply Forall_fmap. eapply Forall_impl; [exact Hok|].
    intros node. apply class_ok_without_deny_alias. }
  destruct (reload_document_table _ st Hok' Hwf) as (st2 & Hrun2 & _ & _ & Hl2).
  assert (Heq : permissions st1 = permissions st2).
  { apply map_eq. intros p. by rewrite Hl1, Hl2, granted_without_deny_alias. }
  exists st1, st2. split_and!; [done | done | done |].
  intros accountLevel p. apply checkPermission_table. by rewrite Heq.
Qed.

Lemma deny_and_alias_are_ignored_witness :
  exists st1 st2,
    reload (document example_classes) example_state = Some st1
    /\ reload (document (without_deny_alias <$> example_classes)) example_state = Some st2
    /\ (checkPermission 2 "@ban" st1).1 = (checkPermission 2 "@ban" st2).1.
Proof.
  destruct (deny_and_alias_are_ignored example_classes example_state
              example_classes_ok table_wf_empty) as (st1 & st2 & H1 & H2 & _ & Hc).
  exists st1, st2. split_and!; [done | done | apply Hc].
Defined.

(** X5. The source of [reload] is free of undefined behaviour on a
    file exactly when no class with a legal level holds an empty
    declaration. [reload] reads through a null child pointer
    ([perNode->xmlChildrenNode->content] with no child, rendered as
    [None]) exactly when the file has the root [permissions] and one of
    its classes with a legal level holds an allow, deny or alias element
    without a child; such an element in a class whose level is out of
    range is skipped with the class. In every other case, a missing or
    unparseable file and a wrong root among them, [reload] returns.
    What a build does at the null read is not said: this is about the
    source. *)
Theorem reload_undefined_iff (fs : string -> FileContents) (st : State) :
  reload fs st = None <->
  exists root,
    fs (permissionFile st) = Document (Some root)
    /\ node_name root = "permissions"
    /\ Exists reads_null_child (xmlChildrenNode root).
Proof.
  split.
  - intros Hnone. destruct (root_cases fs st) as [(root & Hfs & Hname)|Hbad].
    + exists root. split_and!; [done | done |].
      rewrite (reload_root _ _ _ Hfs Hname), reload_document in Hnone.
      destruct (nodes_cases (xmlChildrenNode root)) as [Hok|Hex]; [|done].
      destruct (class_loop_returns _ (LOG Info_Loading st) Hok) as [st1 Hst1].
      rewrite Hst1 in Hnone. discriminate.
    + destruct (reload_not_root fs st Hbad) as [e He]. congruence.
  - intros (root & Hfs & Hname & Hex).
    rewrite (reload_root _ _ _ Hfs Hname), reload_document.
    by rewrite Exists_reads_null_child_undefined.
Qed.

(** X6. Loading into an empty table and then checking. After a [reload] of
    a well-formed file into an empty table, [checkPermission] answers
    [PMR_UNKNOWN] exactly for the names no class with a legal level
    allows, [PMR_ALLOWED] exactly when some class that allows the name
    has a level whose bit is set in the account level, and [PMR_DENIED]
    for the names that are allowed only by classes of other levels. *)
Theorem load_then_check
    (fs : string -> FileContents) (st : State) (root : xmlNode)
    (accountLevel : Z) (p : string) :
  fs (permissionFile st) = Document (Some root) ->
  node_name root = "permissions" ->
  Forall class_ok (xmlChildrenNode root) ->
  permissions st = ∅ ->
  exists st',
    reload fs st = Some st'
    /\ let r := (checkPermission accountLevel p st').1 in
       let allowed :=
         exists node level, node ∈ xmlChildrenNode root /\ allows node level p
                            /\ Z.testbit accountLevel (level - 1) = true in
       (r = PMR_UNKNOWN <->
        forall node level, node ∈ xmlChildrenNode root -> ~ allows node level p)
       /\ (r = PMR_ALLOWED <-> allowed)
       /\ (r = PMR_DENIED <->
           (exists node level, node ∈ xmlChildrenNode root /\ allows node level p)
           /\ ~ allowed).
Proof.
  intros Hfs Hname Hok Hempty. rewrite (reload_root _ _ _ Hfs Hname).
  assert (Hwf : table_wf (permissions st)) by (rewrite Hempty; apply table_wf_empty).
  destruct (reload_document_table _ st Hok Hwf) as (st' & Hrun & _ & _ & Hl).
  exists st'. split; [exact Hrun|]. cbn zeta.
  assert (Hlook : permissions st' !! p = granted (xmlChildrenNode root) p).
  { rewrite Hl, Hempty, lookup_empty. reflexivity. }
  assert (Hallowed : (checkPermission accountLevel p st').1 = PMR_ALLOWED <->
            exists node level, node ∈ xmlChildrenNode root /\ allows node level p
                               /\ Z.testbit accountLevel (level - 1) = true).
  { rewrite checkPermission_allowed, Hlook. split.
    - intros (m & Hm & (i & Ha & Hb)%land_nonzero_bit).
      apply (granted_testbit _ _ _ i Hm) in Hb as (node & Hin & Hlev & Hp).
      exists node, (i + 1). split_and!; [done | by split |].
      by replace (i + 1 - 1) with i by lia.
    - intros (node & level & Hin & [Hlev Hp] & Hbit).
      destruct (granted (xmlChildrenNode root) p) as [m|] eqn:Eg.
      + exists m. split; [done|]. apply land_nonzero_bit. exists (level - 1).
        split; [done|]. apply (granted_testbit _ _ _ (level - 1) Eg).
        exists node. split_and!; [done | | done].
        rewrite Hlev. f_equal. lia.
      + exfalso. by apply (proj1 (class_level_allows _ p) Eg node level Hin). }
  assert (Hunknown : (checkPermission accountLevel p st').1 = PMR_UNKNOWN <->
            forall node level, node ∈ xmlChildrenNode root -> ~ allows node level p).
  { by rewrite checkPermission_unknown, Hlook, class_level_allows. }
  split_and!; [exact Hunknown | exact Hallowed |].
  split.
  - intros Hd. split.
    + destruct (granted (xmlChildrenNode root) p) as [m|] eqn:Eg.
      * by apply (granted_Some_allows _ _ m).
      * exfalso. rewrite (proj2 (checkPermission_unknown accountLevel p st') Hlook) in Hd.
        discriminate.
    + intros Ha%Hallowed. congruence.
  - intros [(node & level & Hin & Ha) Hna].
    destruct ((checkPermission accountLevel p st').1) eqn:Er; [|done|].
    + exfalso. by apply Hna, Hallowed.
    + exfalso. by apply (proj1 Hunknown eq_refl node level Hin).
Qed.

Lemma load_then_check_witness :
  exists st', reload (document example_classes) example_state = Some st'
              /\ (checkPermission 2 "@ban" st').1 = PMR_DENIED
              /\ (checkPermission 128 "@ban" st').1 = PMR_ALLOWED.
Proof.
  destruct (load_then_check (document example_classes) example_state
              (XmlNode "permissions" [] None example_classes) 2 "@ban"
              eq_refl eq_refl example_classes_ok eq_refl)
    as (st' & Hrun & _ & _ & Hden).
  destruct (load_then_check (document example_classes) example_state
              (XmlNode "permissions" [] None example_classes) 128 "@ban"
              eq_refl eq_refl example_classes_ok eq_refl)
    as (st'' & Hrun' & _ & Hall & _).
  rewrite Hrun in Hrun'. injection Hrun' as <-.
  exists st'. split; [exact Hrun|]. split.
  - apply Hden. split.
    + exists (class 8 [allow "@kick"; allow "@ban"]), 8.
      split; [|split; [reflexivity|]]; set_solver.
    + intros (node & level & Hin & [Hlev Hal] & Hbit).
      simpl in Hin.
      apply elem_of_cons in Hin as [->|Hin]; [|apply elem_of_cons in Hin as [->|Hin];
        [|apply elem_of_cons in Hin as [->|Hin]; [|apply elem_of_cons in Hin as [->|Hin];
        [|by apply elem_of_nil in Hin]]]];
        vm_compute in Hlev; try discriminate; injection Hlev as <-;
        vm_compute in Hbit; try discriminate; vm_compute in Hal; set_solver.
  - apply Hall. exists (class 8 [allow "@kick"; allow "@ban"]), 8.
    split; [|split; [split; [reflexivity|]|reflexivity]]; set_solver.
Defined.

End PermissionTableSpec.

Module ReloadClassSpec.

Import CInt CIntFacts PermissionManager PermissionManagerFacts PermissionTable
       PermissionTableFacts PermissionTableSpec.

Lemma granted_app a b p : granted (a ++ b) p = join (granted a p) (granted b p).
Proof.
  induction a as [|node a IH]; [reflexivity|].
  cbn [app granted foldr]. fold (granted (a ++ b) p). fold (granted a p).
  by rewrite IH, join_assoc.
Qed.

Lemma granted_cons node nodes p :
  granted (node :: nodes) p = join (grant node p) (granted nodes p).
Proof. reflexivity. Qed.

Lemma class_loop_app a : forall b st,
  class_loop (a ++ b) st
  = match class_loop a st with
    | Some st1 => class_loop b st1
    | None => None
    end.
Proof.
  induction a as [|node a IH]; intros b st; [reflexivity|].
  cbn [app class_loop]. destruct (class_step node st); [apply IH | reflexivity].
Qed.

Lemma addPermission_log p m st :
  log (addPermission p m st) = log st
  /\ permissionFile (addPermission p m st) = permissionFile st.
Proof. unfold addPermission. by destruct (permissions st !! p). Qed.

Lemma permission_step_log m perNode st st' :
  permission_step m perNode st = Some st' ->
  log st' = log st /\ permissionFile st' = permissionFile st.
Proof.
  unfold permission_step.
  repeat match goal with
         | |- context [if ?b then _ else _] => destruct b
         | |- context [match first_child_content ?n with _ => _ end] =>
             destruct (first_child_content n) as [[?|]|]
         end;
    intros [= <-]; try apply addPermission_log; by split.
Qed.

Lemma permission_loop_log m perNodes : forall st st',
  permission_loop m perNodes st = Some st' ->
  log st' = log st /\ permissionFile st' = permissionFile st.
Proof.
  induction perNodes as [|perNode rest IH]; intros st st'; cbn [permission_loop].
  - by intros [= <-].
  - destruct (permission_step m perNode st) as [st1|] eqn:E; [|done].
    intros [H1 H2]%IH. apply permission_step_log in E as [E1 E2].
    split; congruence.
Qed.

Lemma class_step_log node st st' :
  class_step node st = Some st' ->
  (exists l, log st' = log st ++ l) /\ permissionFile st' = permissionFile st.
Proof.
  unfold class_step.
  destruct (negb _); [intros [= <-]; split; [exists []; by rewrite app_nil_r | done]|].
  destruct (_ || _).
  - intros [= <-]. split; [eexists|]; reflexivity.
  - intros [H1 H2]%permission_loop_log. split; [|done].
    exists []. by rewrite app_nil_r.
Qed.

Lemma class_loop_log nodes : forall st st',
  class_loop nodes st = Some st' ->
  (exists l, log st' = log st ++ l) /\ permissionFile st' = permissionFile st.
Proof.
  induction nodes as [|node rest IH]; intros st st'; cbn [class_loop].
  - intros [= <-]. split; [exists []; by rewrite app_nil_r | done].
  - destruct (class_step node st) as [st1|] eqn:E; [|done].
    intros [(l2 & H2) F2]%IH. destruct (class_step_log _ _ _ E) as [(l1 & H1) F1].
    split; [|congruence]. exists (l1 ++ l2). by rewrite H2, H1, app_assoc.
Qed.

Lemma join_insert_bit (s a c : option Z) (b : Z) :
  join s (join a (join (Some b) c))
  = Some (Z.lor (default 0 (join s (join a c))) b).
Proof.
  destruct s as [s|], a as [a|], c as [c|]; cbn [join from_option id]; f_equal;
    apply Z.bits_inj'; intros n _; rewrite ?Z.lor_spec, ?Z.bits_0;
    repeat match goal with
           | |- context [Z.testbit ?x n] => destruct (Z.testbit x n)
           end; reflexivity.
Qed.

(** C9. When [reload] reads a file with the root [permissions], a class
    element among the children of the root whose level lies outside
    1..8 is logged and skipped: [reload] returns, the warning for that
    level is in the log, and the table is the one [reload] gives for the
    file without that element, so that the elements before and after it
    are all read and no bit is added for it. A class element of level L
    in 1..8 (none of whose allow, deny or alias elements is empty) adds
    to that table the single bit [1 << (L-1)] in the entry of each
    permission name it allows, creating the entry when it is new, and
    changes no other entry. The other elements are such that [reload]
    gets through them. *)
Theorem reload_class_level
    (fs : string -> FileContents) (st : State) (root node : xmlNode)
    (before after : list xmlNode) :
  fs (permissionFile st) = Document (Some root) ->
  node_name root = "permissions" ->
  xmlChildrenNode root = before ++ node :: after ->
  node_name node = "class" ->
  Forall class_ok before -> Forall class_ok after ->
  table_wf (permissions st) ->
  let level := getProperty node "level" 0 in
  (level < 1 \/ 8 < level ->
   exists st' st0,
     reload fs st = Some st'
     /\ reload (document (before ++ after)) st = Some st0
     /\ permissions st' = permissions st0
     /\ Warn_IllegalClassLevel level (permissionFile st) ∈ log st')
  /\ (1 <= level <= 8 ->
      Forall has_text_child (xmlChildrenNode node) ->
      exists st' st0,
        reload fs st = Some st'
        /\ reload (document (before ++ after)) st = Some st0
        /\ forall p, permissions st' !! p =
             if decide (p ∈ allowed_names (xmlChildrenNode node))
             then Some (Z.lor (default 0 (permissions st0 !! p))
                              (Z.shiftl 1 (level - 1)))
             else permissions st0 !! p).
Proof.
  intros Hfs Hroot Hch Hname Hbefore Hafter Hwf level.
  assert (Hre : reload fs st = reload (document (before ++ node :: after)) st)
    by (rewrite (reload_root fs st root Hfs Hroot), Hch; reflexivity).
  destruct (reload_document_table (before ++ after) st) as (st0 & Hrun0 & _ & _ & Hl0);
    [by apply Forall_app | exact Hwf |].
  assert (Hlevel : class_level node
                   = if (level <? 1) || (8 <? level) then None else Some level).
  { unfold class_level. rewrite Hname. reflexivity. }
  split.
  - intros Hout.
    assert (Hnone : class_level node = None).
    { rewrite Hlevel. destruct (Z.ltb_spec level 1); [reflexivity|].
      destruct (Z.ltb_spec 8 level); [reflexivity | lia]. }
    assert (Hok : class_ok node) by (unfold class_ok; by rewrite Hnone).
    destruct (reload_document_table (before ++ node :: after) st)
      as (st' & Hrun & _ & _ & Hl);
      [apply Forall_app; split; [done | by constructor] | exact Hwf |].
    exists st', st0. split_and!; [by rewrite Hre | exact Hrun0 | |].
    + apply map_eq. intros p. rewrite Hl, Hl0, !granted_app, granted_cons.
      unfold grant. by rewrite Hnone.
    + rewrite reload_document in Hrun. rewrite class_loop_app in Hrun.
      destruct (class_loop before (LOG Info_Loading st)) as [s1|] eqn:E1; [|done].
      cbn [class_loop] in Hrun.
      apply class_loop_log in E1 as [_ F1].
      assert (Hstep : class_step node s1
                = Some (LOG (Warn_IllegalClassLevel level (permissionFile st)) s1)).
      { rewrite class_level_step, Hnone, Hname. cbn. fold level.
        by rewrite F1. }
      rewrite Hstep in Hrun.
      destruct (class_loop after _) as [s2|] eqn:E2; [|done].
      injection Hrun as <-.
      apply class_loop_log in E2 as [(l & H2) _].
      cbn. rewrite H2. cbn. set_solver.
  - intros Hin Htext.
    assert (Hsome : class_level node = Some level).
    { rewrite Hlevel. destruct (Z.ltb_spec level 1); [lia|].
      destruct (Z.ltb_spec 8 level); [lia | reflexivity]. }
    assert (Hok : class_ok node) by (unfold class_ok; by rewrite Hsome).
    destruct (reload_document_table (before ++ node :: after) st)
      as (st' & Hrun & _ & _ & Hl);
      [apply Forall_app; split; [done | by constructor] | exact Hwf |].
    exists st', st0. split_and!; [by rewrite Hre | exact Hrun0 |].
    intros p. rewrite Hl, Hl0, !granted_app, granted_cons.
    unfold grant. rewrite Hsome.
    destruct (decide (p ∈ allowed_names (xmlChildrenNode node))) as [Hp|Hp].
    + rewrite (bool_decide_eq_true_2 _ Hp). apply join_insert_bit.
    + by rewrite (bool_decide_eq_false_2 _ Hp).
Qed.

Lemma reload_class_level_witness :
  exists st',
    reload (document [class 9 [allow "@ban"]; class 3 [allow "@warp"]]) example_state
    = Some st'
    /\ permissions st' !! "@warp" = Some 4
    /\ permissions st' !! "@ban" = None
    /\ Warn_IllegalClassLevel 9 "permissions.xml" ∈ log st'.
Proof.
  pose (fs := document [class 9 [allow "@ban"]; class 3 [allow "@warp"]]).
  pose (root := XmlNode "permissions" [] None
                  [class 9 [allow "@ban"]; class 3 [allow "@warp"]]).
  assert (Hwf : table_wf (permissions example_state))
    by (intros p m Hp; cbn in Hp; by rewrite lookup_empty in Hp).
  assert (Htext : Forall has_text_child [allow "@warp"])
    by (repeat constructor; intros _; discriminate).
  destruct (reload_class_level fs example_state root (class 9 [allow "@ban"])
              [] [class 3 [allow "@warp"]] eq_refl eq_refl eq_refl eq_refl)
    as [Hout _]; [constructor | by repeat constructor | exact Hwf |].
  destruct Hout as (st' & st0 & Hrun & Hrun0 & Htable & Hlog);
    [right; vm_compute; reflexivity|].
  destruct (reload_class_level (document [class 3 [allow "@warp"]]) example_state
              (XmlNode "permissions" [] None [class 3 [allow "@warp"]])
              (class 3 [allow "@warp"]) [] [] eq_refl eq_refl eq_refl eq_refl)
    as [_ Hin]; [constructor | constructor | exact Hwf |].
  destruct Hin as (st1 & st2 & Hrun1 & Hrun2 & Hlook);
    [vm_compute; split; discriminate | exact Htext |].
  exists st'. split_and!; [exact Hrun | | | exact Hlog].
  - rewrite Htable. cbn [app] in Hrun0. rewrite Hrun1 in Hrun0.
    injection Hrun0 as <-. rewrite Hlook.
    vm_compute in Hrun2. injection Hrun2 as <-. vm_compute. reflexivity.
  - rewrite Htable. cbn [app] in Hrun0. rewrite Hrun1 in Hrun0.
    injection Hrun0 as <-. rewrite Hlook.
    vm_compute in Hrun2. injection Hrun2 as <-. vm_compute. reflexivity.
Defined.

End ReloadClassSpec.

Module TransactionRunsSpec.

Import CInt CIntFacts Character CharacterFacts Runs.

Lemma omap_adoption_cons c cs :
  omap adoption (c :: cs) = omap adoption [c] ++ omap adoption cs.
Proof. simpl. by destruct (adoption c). Qed.

(** One call: what it cancels and what is active afterwards. *)
Lemma perform_step c w w1 :
  perform c w = Some (tt, w1) ->
  exists evs,
    trace w1 = trace w ++ evs
    /\ sublist (omap cancelled evs ++ active (character w1))
               (active (character w) ++ omap adoption [c])
    /\ (is_release c = false ->
        omap cancelled evs ++ active (character w1)
        = active (character w) ++ omap adoption [c]).
Proof.
  open_world w. unfold perform, setTrading, setBuySell, active.
  destruct c as [t|t|]; simpl;
    try (destruct (N.eqb_spec t nullptr) as [Heq|Hne]; simpl);
    unfold cancelTransaction; run;
    destruct mTransaction0; run; intros [= <-]; simpl;
    first [ exists []; rewrite app_nil_r; simpl;
            split_and!; [done | by repeat constructor | done]
          | eexists [_]; simpl; split_and!; [done | done | done] ].
Qed.

Lemma perform_returns c w :
  is_release c = false -> is_Some (perform c w).
Proof.
  open_world w. unfold perform, setTrading, setBuySell.
  destruct c as [t|t|]; simpl; intros Hr; try rewrite Hr; simpl;
    unfold cancelTransaction; run; destruct mTransaction0; by eexists.
Qed.

Lemma perform_all_sublist cs : forall w w',
  perform_all cs w = Some (tt, w') ->
  exists evs,
    trace w' = trace w ++ evs
    /\ sublist (omap cancelled evs ++ active (character w'))
               (active (character w) ++ omap adoption cs)
    /\ (forallb (fun c => negb (is_release c)) cs = true ->
        omap cancelled evs ++ active (character w')
        = active (character w) ++ omap adoption cs).
Proof.
  induction cs as [|c rest IH]; intros w w'.
  - intros [= <-]. exists [].
    split_and!; [by rewrite app_nil_r | simpl; by rewrite app_nil_r
                | intros _; simpl; by rewrite app_nil_r].
  - cbn [perform_all]. unfold mbind at 1, M_bind at 1.
    destruct (perform c w) as [[[] w1]|] eqn:Ec; [|discriminate].
    intros Hrest.
    destruct (perform_step c w w1 Ec) as (evs1 & Ht1 & Hs1 & He1).
    destruct (IH w1 w' Hrest) as (evs2 & Ht2 & Hs2 & He2).
    exists (evs1 ++ evs2). rewrite omap_adoption_cons, omap_app.
    split_and!.
    + by rewrite Ht2, Ht1, app_assoc.
    + rewrite <- (app_assoc (omap cancelled evs1)).
      etrans; [apply sublist_app; [reflexivity | exact Hs2]|].
      rewrite !app_assoc. apply sublist_app; [exact Hs1 | reflexivity].
    + cbn [forallb]. intros [Hc Hr]%andb_true_iff. apply negb_true_iff in Hc.
      rewrite <- (app_assoc (omap cancelled evs1)), (He2 Hr), !app_assoc.
      by rewrite (He1 Hc).
Qed.

Lemma perform_all_returns cs : forall w,
  forallb (fun c => negb (is_release c)) cs = true -> is_Some (perform_all cs w).
Proof.
  induction cs as [|c rest IH]; intros w; [by eexists|].
  cbn [forallb perform_all]. intros [Hc Hr]%andb_true_iff.
  apply negb_true_iff in Hc.
  destruct (perform_returns c w Hc) as [[[] w1] Hw1].
  unfold mbind, M_bind. rewrite Hw1. by apply IH.
Qed.

(** X7. Cancels follow adoptions. In any run of [setTrading], [setBuySell]
    and [cancelTransaction] calls that starts without a transaction, the
    handlers that receive [cancel()], in the order of the calls and
    followed by the handler that is active at the end, are a subsequence
    of the handlers that were adopted, with the kind they were adopted
    as: [cancel()] only goes to a handler that was adopted, and at most
    once per adoption. When no call releases (no setter is called with
    null) the run cannot fail and the two sequences are equal: every
    adopted handler is cancelled exactly once or is still active. *)
Theorem cancels_follow_adoptions (cs : list TransactionCall) (w : World) :
  mTransaction (character w) = TRANS_NONE ->
  (forall w',
     perform_all cs w = Some (tt, w') ->
     exists evs,
       trace w' = trace w ++ evs
       /\ sublist (omap cancelled evs ++ active (character w')) (omap adoption cs))
  /\ (forallb (fun c => negb (is_release c)) cs = true ->
      exists w' evs,
        perform_all cs w = Some (tt, w')
        /\ trace w' = trace w ++ evs
        /\ omap cancelled evs ++ active (character w') = omap adoption cs).
Proof.
  intros Hnone.
  assert (Hact : active (character w) = []) by (unfold active; by rewrite Hnone).
  split.
  - intros w' Hrun. destruct (perform_all_sublist cs w w' Hrun) as (evs & Ht & Hs & _).
    exists evs. rewrite Hact in Hs. by split.
  - intros Hnr. destruct (perform_all_returns cs w Hnr) as [[[] w'] Hrun].
    destruct (perform_all_sublist cs w w' Hrun) as (evs & Ht & _ & He).
    exists w', evs. rewrite Hact in He. split_and!; [done | done | by apply He].
Qed.

Lemma cancels_follow_adoptions_witness :
  exists w',
    perform_all [Call_setTrading 7%N; Call_setBuySell 9%N; Call_setBuySell 0%N;
                 Call_setTrading 5%N; Call_cancelTransaction; Call_cancelTransaction]
      fresh_world = Some (tt, w')
    /\ omap cancelled (trace w') = [(TRANS_TRADE, 7%N); (TRANS_TRADE, 5%N)]
    /\ exists evs,
         trace w' = trace fresh_world ++ evs
         /\ sublist (omap cancelled evs ++ active (character w'))
                    [(TRANS_TRADE, 7%N); (TRANS_BUYSELL, 9%N); (TRANS_TRADE, 5%N)].
Proof.
  eexists. split; [vm_compute; reflexivity|]. split; [vm_compute; reflexivity|].
  apply (cancels_follow_adoptions
           [Call_setTrading 7%N; Call_setBuySell 9%N; Call_setBuySell 0%N;
            Call_setTrading 5%N; Call_cancelTransaction; Call_cancelTransaction]
           fresh_world eq_refl).
  vm_compute. reflexivity.
Defined.

End TransactionRunsSpec.

Module PointBudgetSpec.

Import CInt CIntFacts Character CharacterFacts Runs.

Section AttributeManager.

Variable isAttributeDirectlyModifiable : Z -> bool.

Lemma useCharacterPoint_spends w attribute :
  isAttributeDirectlyModifiable attribute = true ->
  mAttributePoints (character w) <> 0 ->
  exists w',
    useCharacterPoint isAttributeDirectlyModifiable attribute w = Some (ATTRIBMOD_OK, w')
    /\ mAttributePoints (character w') = wrap_int (mAttributePoints (character w) - 1)
    /\ mCorrectionPoints (character w') = mCorrectionPoints (character w).
Proof.
  intros Hm Hp. open_world w. unfold useCharacterPoint. rewrite Hm. cbn [negb]. run.
  destruct (Z.eqb_spec mAttributePoints0 0) as [|_]; [contradiction|].
  eexists. split; [reflexivity|]. run. by split.
Qed.

Lemma useCharacterPoint_broke w attribute :
  isAttributeDirectlyModifiable attribute = true ->
  mAttributePoints (character w) = 0 ->
  useCharacterPoint isAttributeDirectlyModifiable attribute w
  = Some (ATTRIBMOD_NO_POINTS_LEFT, w).
Proof.
  intros Hm Hp. open_world w. unfold useCharacterPoint. rewrite Hm, Hp. reflexivity.
Qed.

(** X8. The budget is enforced. On a directly modifiable attribute and with
    a balance of [n] attribute points, [k] calls of [useCharacterPoint]
    in a row succeed [min k n] times and then answer
    [ATTRIBMOD_NO_POINTS_LEFT]; the balance ends at [n - min k n] and
    never goes below zero. *)
Theorem spend_within_budget (attribute : Z) (k n : nat) (w : World) :
  isAttributeDirectlyModifiable attribute = true ->
  mAttributePoints (character w) = Z.of_nat n ->
  Z.of_nat n <= INT_MAX ->
  exists w',
    spend isAttributeDirectlyModifiable attribute k w
    = Some (replicate (k `min` n) ATTRIBMOD_OK
              ++ replicate (k - k `min` n) ATTRIBMOD_NO_POINTS_LEFT, w')
    /\ mAttributePoints (character w') = Z.of_nat (n - k `min` n).
Proof.
  intros Hm. revert n w. induction k as [|k IH]; intros n w Hn Hmax.
  - exists w. split; [reflexivity|]. rewrite Hn. f_equal. lia.
  - cbn [spend]. unfold mbind at 1, M_bind at 1. destruct n as [|n].
    + rewrite (useCharacterPoint_broke w attribute Hm Hn).
      destruct (IH 0%nat w Hn Hmax) as (w' & Hrun & Hp).
      unfold mbind, M_bind. rewrite Hrun. exists w'. split; [|exact Hp].
      rewrite Nat.min_0_r, Nat.sub_0_r. reflexivity.
    + destruct (useCharacterPoint_spends w attribute Hm) as (w1 & Hrun1 & Hp1 & _);
        [rewrite Hn; lia|].
      rewrite Hrun1.
      assert (Hn1 : mAttributePoints (character w1) = Z.of_nat n).
      { rewrite Hp1, Hn. rewrite wrap_int_id; [lia|].
        unfold in_int, INT_MIN, INT_MAX in *. lia. }
      destruct (IH n w1 Hn1 ltac:(lia)) as (w' & Hrun & Hp).
      unfold mbind, M_bind. rewrite Hrun. exists w'. split; [|exact Hp].
      reflexivity.
Qed.

(** X9. A correction point is a refund: whatever [useCorrectionPoint]
    answers, the sum of attribute points and correction points is the
    same afterwards, and unless the answer is [ATTRIBMOD_OK] nothing at
    all has changed. *)
Theorem useCorrectionPoint_keeps_total (attribute : Z) (w : World) :
  INT_MIN < mCorrectionPoints (character w) <= INT_MAX ->
  INT_MIN <= mAttributePoints (character w) < INT_MAX ->
  exists r w',
    useCorrectionPoint isAttributeDirectlyModifiable attribute w = Some (r, w')
    /\ mAttributePoints (character w') + mCorrectionPoints (character w')
       = mAttributePoints (character w) + mCorrectionPoints (character w)
    /\ (r <> ATTRIBMOD_OK -> w' = w)
    /\ (r = ATTRIBMOD_OK ->
        mCorrectionPoints (character w') = mCorrectionPoints (character w) - 1).
Proof.
  intros Hc Hp. open_world w. unfold useCorrectionPoint.
  destruct (isAttributeDirectlyModifiable attribute); cbn [negb];
    [|by eexists _, _].
  run. destruct (mCorrectionPoints0 =? 0); [by eexists _, _|].
  destruct (PrimFloat.leb _ _); [by eexists _, _|].
  eexists _, _. split; [reflexivity|]. run.
  rewrite !wrap_int_id by (unfold in_int, INT_MIN, INT_MAX in *; lia).
  split_and!; [lia | done | done].
Qed.

End AttributeManager.

Lemma spend_within_budget_witness :
  exists w',
    spend only_1 1 4 (world_with_base 5%float)
    = Some ([ATTRIBMOD_OK; ATTRIBMOD_OK; ATTRIBMOD_NO_POINTS_LEFT;
             ATTRIBMOD_NO_POINTS_LEFT], w')
    /\ mAttributePoints (character w') = 0.
Proof.
  apply (spend_within_budget only_1 1 4 2 (world_with_base 5%float));
    [reflexivity | reflexivity | vm_compute; discriminate].
Defined.

Lemma useCorrectionPoint_keeps_total_witness :
  exists r w',
    useCorrectionPoint only_1 1 (world_with_base 5%float) = Some (r, w')
    /\ mAttributePoints (character w') + mCorrectionPoints (character w') = 3.
Proof.
  destruct (useCorrectionPoint_keeps_total only_1 1 (world_with_base 5%float))
    as (r & w' & Hrun & Hsum & _).
  - vm_compute. split; [reflexivity | discriminate].
  - vm_compute. split; [discriminate | reflexivity].
  - exists r, w'. split; [exact Hrun | exact Hsum].
Defined.

End PointBudgetSpec.

Module CharacterRestFacts.

Import CInt CIntFacts Character CharacterFacts CharacterRest Runs.

(** Opens the larger world down to the fields of the character. *)
Ltac open_worldX x :=
  let w := fresh "w" in
  let m := fresh "m" in
  destruct x as [w m ? ? ? ? ?]; destruct m as [? ? ? ? ?]; open_world w.

(** Runs the monadic plumbing of a member function on the larger world. *)
Ltac runX :=
  cbv beta iota zeta delta
    [mbind mret MX_bind MX_ret M_bind M_ret worldX update_members assertX lift
     world this update_this update_being call assert
     set_core set_members set_deleted
     set_mModifiedAbilities set_mSendAbilityCooldown set_mKillCount
     set_mTalkNpcId set_mNpcThread
     abilityStatusChanged abilityCooldownActivated incrementKillCount
     sendAbilityCooldownUpdate sendAttributePointsStatus
     core members abilityComponent mDeathCallback mLoginCallback currentThread deleted
     mModifiedAbilities mSendAbilityCooldown mKillCount mTalkNpcId mNpcThread
     set_character set_being set_trace
     set_mConnected set_mTransactionHandler set_mSendAttributePointsStatus
     set_mAttributePoints set_mCorrectionPoints set_mTransaction
     set_mModifiedAttributes
     character being entityMap actorPosition mDeathAcceptedCallback
     configuration trace
     mConnected mTransactionHandler mDatabaseID mSendAttributePointsStatus
     mAttributePoints mCorrectionPoints mTransaction mModifiedAttributes
     fmap option_fmap option_map fst snd];
  rewrite <- ?app_assoc; cbn [app].

(** *** Kill counts *)

Lemma incrementKillCount_step monsterType x :
  exists x',
    incrementKillCount monsterType x = Some (tt, x')
    /\ core x' = core x
    /\ mKillCount (members x')
       = <[monsterType := match mKillCount (members x) !! monsterType with
                          | Some count => wrap_int (count + 1)
                          | None => 1
                          end]> (mKillCount (members x))
    /\ x' = set_members (set_mKillCount (mKillCount (members x')) (members x)) x.
Proof.
  open_worldX x. runX. destruct (mKillCount0 !! monsterType); eexists; done.
Qed.

(** *** The ability message *)

Lemma fold_write_ability abilities ids : forall msg,
  fold_left (write_ability abilities) ids msg
  = mkMessageOut (msg_id msg) (msg_fields msg ++ flat_map (ability_entry abilities) ids).
Proof.
  induction ids as [|id ids IH]; intros msg.
  - destruct msg. simpl. by rewrite app_nil_r.
  - cbn [fold_left flat_map]. rewrite IH. unfold write_ability, ability_entry, write.
    destruct (abilities !! id); simpl; [by rewrite <- !app_assoc | done].
Qed.

Lemma sendAbilityUpdate_result x :
  sendAbilityUpdate x
  = Some (tt, set_core (set_trace (trace (core x)
                                    ++ [GameHandler_sendTo (ability_message x)]) (core x))
                (set_members (set_mModifiedAbilities ∅ (members x)) x)).
Proof.
  unfold sendAbilityUpdate. unfold mbind at 1, MX_bind at 1, worldX at 1.
  rewrite fold_write_ability. reflexivity.
Qed.

Lemma listed_abilities_entries op abilities ids :
  listed_abilities (mkMessageOut op (flat_map (ability_entry abilities) ids))
  = filter (fun id => is_Some (abilities !! id)) ids.
Proof.
  unfold listed_abilities. cbn [msg_fields].
  induction ids as [|id ids IH]; [reflexivity|].
  cbn [flat_map]. rewrite omap_app, IH, filter_cons. unfold ability_entry.
  destruct (abilities !! id) as [r|] eqn:E.
  - rewrite decide_True by eauto. reflexivity.
  - rewrite decide_False; [reflexivity|]. by intros [? ?].
Qed.

End CharacterRestFacts.

Module KillCountSpec.

Import CInt CIntFacts Character CharacterFacts CharacterRest Runs CharacterRestFacts.

(** X10. The tally counts the kills. After any run of [incrementKillCount]
    calls, [getKillCount] of a monster type is what it was before plus
    the number of calls for that type (0 before for a type never killed),
    as long as the count stays an [int]; a type that has an entry keeps
    one, the entry of a type that is not killed in the run is as it was,
    and nothing but the tally changes: the world after the run is the
    world before it with the new tally, every other member of the
    character, the ability component, the callbacks, the running thread
    and the destroyed threads being the same. *)
Theorem kill_count_counts (monsterTypes : list Z) (x : WorldX) (t : Z) :
  INT_MIN <= getKillCount (members x) t ->
  getKillCount (members x) t + Z.of_nat (count_occ Z.eq_dec monsterTypes t) <= INT_MAX ->
  exists x',
    kill_all monsterTypes x = Some (tt, x')
    /\ getKillCount (members x') t
       = getKillCount (members x) t + Z.of_nat (count_occ Z.eq_dec monsterTypes t)
    /\ (is_Some (mKillCount (members x) !! t) -> is_Some (mKillCount (members x') !! t))
    /\ (t ∈ monsterTypes -> is_Some (mKillCount (members x') !! t))
    /\ (t ∉ monsterTypes ->
        mKillCount (members x') !! t = mKillCount (members x) !! t)
    /\ core x' = core x
    /\ x' = set_members (set_mKillCount (mKillCount (members x')) (members x)) x.
Proof.
  revert x. induction monsterTypes as [|t0 rest IH]; intros x Hmin Hmax.
  - exists x.
    split_and!; [done | simpl; lia | done | by intros ?%elem_of_nil | done | done |].
    by open_worldX x.
  - cbn [kill_all]. unfold mbind at 1, MX_bind at 1.
    destruct (incrementKillCount_step t0 x) as (x1 & Hstep & Hcore & Hk & Hframe).
    rewrite Hstep. cbn [count_occ] in *.
    assert (H1 : getKillCount (members x1) t
                 = getKillCount (members x) t + (if Z.eq_dec t0 t then 1 else 0)
                 /\ (is_Some (mKillCount (members x) !! t)
                     -> is_Some (mKillCount (members x1) !! t))
                 /\ (t0 = t -> is_Some (mKillCount (members x1) !! t))
                 /\ (t0 <> t ->
                     mKillCount (members x1) !! t = mKillCount (members x) !! t)).
    { unfold getKillCount in *. rewrite Hk.
      destruct (Z.eq_dec t0 t) as [->|Hne].
      - rewrite lookup_insert_eq.
        destruct (mKillCount (members x) !! t) as [c|];
          [|split_and!; [lia | by eexists | by eexists | done]].
        split_and!; [|by eexists | by eexists | done].
        apply wrap_int_id. unfold in_int. lia.
      - rewrite lookup_insert_ne by done. split_and!; [lia | done | done | done]. }
    destruct H1 as (Hc1 & Hs1 & Hn1 & Ho1).
    destruct (IH x1) as (x' & Hrun & Hc & Hs & Hin & Hout & Hcore' & Hframe').
    + rewrite Hc1. destruct (Z.eq_dec t0 t); lia.
    + rewrite Hc1. destruct (Z.eq_dec t0 t); lia.
    + exists x'. split_and!.
      * exact Hrun.
      * rewrite Hc, Hc1. destruct (Z.eq_dec t0 t); lia.
      * intros H. by apply Hs, Hs1.
      * intros [->|Hr]%elem_of_cons; [by apply Hs, Hn1 | by apply Hin].
      * intros Hnot. apply not_elem_of_cons in Hnot as [Hne Hnot].
        rewrite (Hout Hnot). apply Ho1. congruence.
      * congruence.
      * rewrite Hframe' at 1. rewrite Hframe at 1 2.
        destruct x as [? m ? ? ? ? ?]. destruct m. reflexivity.
Qed.

Lemma kill_count_counts_witness :
  exists x',
    kill_all [3; 5; 3; 3] (example_worldX STAND) = Some (tt, x')
    /\ getKillCount (members x') 3 = 3
    /\ getKillCount (members x') 4 = 0.
Proof.
  destruct (kill_count_counts [3; 5; 3; 3] (example_worldX STAND) 3)
    as (x' & Hrun & Hc & _); [vm_compute; discriminate | vm_compute; discriminate |].
  destruct (kill_count_counts [3; 5; 3; 3] (example_worldX STAND) 4)
    as (x'' & Hrun' & Hc' & _); [vm_compute; discriminate | vm_compute; discriminate |].
  rewrite Hrun in Hrun'. injection Hrun' as <-.
  exists x'. split_and!; [exact Hrun | exact Hc | exact Hc'].
Defined.

End KillCountSpec.

Module TickSpec.

Import CInt CIntFacts Character CharacterFacts SyncFacts CharacterRest Runs
       CharacterRestFacts.

Lemma update_dead x :
  is_DEAD (getAction (being (core x))) = true -> update x = Some (tt, x).
Proof.
  intros Hd. unfold update, mbind, MX_bind, worldX. by rewrite Hd.
Qed.

(** The world a tick of a living character leaves. *)
Lemma update_alive x :
  is_DEAD (getAction (being (core x))) = false ->
  update x
  = Some (tt,
          set_core
            (set_trace (trace (core x) ++ pending_messages x)
               (set_character
                  (set_mSendAttributePointsStatus false (character (core x))) (core x)))
            (set_members
               (set_mSendAbilityCooldown false
                  (set_mModifiedAbilities ∅ (members x))) x)).
Proof.
  intros Hd. unfold update. unfold mbind at 1, MX_bind at 1, worldX at 1.
  rewrite Hd. unfold mbind at 1, MX_bind at 1. unfold pending_messages.
  destruct (decide (mModifiedAbilities (members x) = ∅)) as [He|Hne].
  - rewrite (bool_decide_eq_true_2 _ He). cbn [negb].
    open_worldX x. simpl in He. subst. unfold cooldown_message, points_message.
    destruct mSendAbilityCooldown0, mSendAttributePointsStatus0; runX;
      rewrite ?app_nil_r; reflexivity.
  - rewrite (bool_decide_eq_false_2 _ Hne). cbn [negb].
    rewrite sendAbilityUpdate_result.
    open_worldX x. unfold cooldown_message, points_message, ability_message.
    destruct mSendAbilityCooldown0, mSendAttributePointsStatus0; runX;
      rewrite ?app_nil_r; reflexivity.
Qed.

(** X11. A tick flushes what is pending, once. For a dead character [update]
    does nothing at all, so what is pending stays pending. For a living
    one it sends one message per category with a change pending -
    abilities, then the global cooldown, then the points - and nothing
    else, after which nothing is pending: an [update] right after it
    sends nothing and changes nothing. The being, the abilities and the
    point counters are not touched. *)
Theorem update_flushes_pending_once (x : WorldX) :
  (getAction (being (core x)) = DEAD -> update x = Some (tt, x))
  /\ (getAction (being (core x)) <> DEAD ->
      exists x',
        update x = Some (tt, x')
        /\ trace (core x') = trace (core x) ++ pending_messages x
        /\ mModifiedAbilities (members x') = ∅
        /\ mSendAbilityCooldown (members x') = false
        /\ mSendAttributePointsStatus (character (core x')) = false
        /\ pending_messages x' = []
        /\ update x' = Some (tt, x')
        /\ being (core x') = being (core x)
        /\ abilityComponent x' = abilityComponent x
        /\ mAttributePoints (character (core x')) = mAttributePoints (character (core x))
        /\ mCorrectionPoints (character (core x'))
           = mCorrectionPoints (character (core x))).
Proof.
  split.
  - intros Hd. apply update_dead. by rewrite Hd.
  - intros Hd%is_DEAD_false. eexists. split; [by apply update_alive|].
    split_and!; try reflexivity.
    + rewrite update_alive by exact Hd. open_worldX x. unfold pending_messages.
      runX. rewrite app_nil_r. reflexivity.
Qed.

Lemma update_flushes_pending_once_witness :
  exists x1 x2,
    (abilityStatusChanged 4;; abilityCooldownActivated) (example_worldX STAND)
    = Some (tt, x1)
    /\ update x1 = Some (tt, x2)
    /\ trace (core x2)
       = [GameHandler_sendTo (mkMessageOut GPMSG_ABILITY_STATUS [Int8 4; Int32 1500]);
          GameHandler_sendTo (mkMessageOut GPMSG_ABILITY_COOLDOWN [Int16 300])]
    /\ update x2 = Some (tt, x2).
Proof.
  eexists. 
  destruct (update_flushes_pending_once
              (set_members (mkMembers {[4]} true ∅ 0 0%N) (example_worldX STAND)))
    as [_ H].
  destruct H as (x2 & Hrun & Htr & _ & _ & _ & _ & Hagain & _); [discriminate|].
  exists x2. split_and!; [reflexivity | exact Hrun | | exact Hagain].
  rewrite Htr. vm_compute. reflexivity.
Defined.

Lemma ascending_filter (P : Z -> Prop) `{!forall id, Decision (P id)} (l : list Z) :
  StronglySorted Z.lt l -> StronglySorted Z.lt (filter P l).
Proof.
  induction 1 as [|id l Hs IH Hall]; [constructor|].
  rewrite filter_cons. case_decide; [|exact IH].
  constructor; [exact IH|]. rewrite Forall_forall in Hall |- *.
  intros y [_ Hy]%list_elem_of_filter. by apply Hall.
Qed.

(** X12. The ability message lists the dirty abilities that still exist.
    [sendAbilityUpdate] always sends exactly one message, with the
    opcode [GPMSG_ABILITY_STATUS], and empties the dirty set; nothing
    else changes. The message lists, in ascending order and each once,
    the dirty ids that are in the ability table, each as a one-byte id
    followed by the time its recharge has left; a dirty id that is no
    longer in the table is skipped, and when all are skipped the message
    is sent with no entry. *)
Theorem sendAbilityUpdate_lists_present (x : WorldX) :
  exists x' msg,
    sendAbilityUpdate x = Some (tt, x')
    /\ x' = set_core (set_trace (trace (core x) ++ [GameHandler_sendTo msg]) (core x))
              (set_members (set_mModifiedAbilities ∅ (members x)) x)
    /\ trace (core x') = trace (core x) ++ [GameHandler_sendTo msg]
    /\ mModifiedAbilities (members x') = ∅
    /\ msg_id msg = GPMSG_ABILITY_STATUS
    /\ msg_fields msg
       = flat_map (ability_entry (getAbilities (abilityComponent x)))
           (iterate (mModifiedAbilities (members x)))
    /\ (forall id, id ∈ listed_abilities msg <->
                   id ∈ mModifiedAbilities (members x)
                   /\ is_Some (getAbilities (abilityComponent x) !! id))
    /\ NoDup (listed_abilities msg)
    /\ StronglySorted Z.lt (listed_abilities msg)
    /\ ((forall id, id ∈ mModifiedAbilities (members x) ->
                    getAbilities (abilityComponent x) !! id = None) ->
        msg_fields msg = []).
Proof.
  exists (set_core (set_trace (trace (core x)
                                ++ [GameHandler_sendTo (ability_message x)]) (core x))
            (set_members (set_mModifiedAbilities ∅ (members x)) x)),
         (ability_message x).
  split; [apply sendAbilityUpdate_result|].
  unfold ability_message. rewrite listed_abilities_entries.
  split_and!; try reflexivity.
  - intros id. rewrite list_elem_of_filter, elem_of_iterate. tauto.
  - apply NoDup_filter, NoDup_iterate.
  - apply ascending_filter, iterate_ascending.
  - intros Hstale. cbn [msg_fields].
    assert (Hall : Forall (fun id => getAbilities (abilityComponent x) !! id = None)
                     (iterate (mModifiedAbilities (members x)))).
    { apply Forall_forall. intros id Hid. by apply Hstale, elem_of_iterate. }
    induction Hall as [|id ids Hid _ IH]; [reflexivity|].
    cbn [flat_map]. unfold ability_entry at 1. by rewrite Hid.
Qed.

Lemma notify_all_result ns : forall x,
  notify_all ns x
  = Some (tt,
          set_members
            (set_mSendAbilityCooldown
               (existsb is_cooldown ns || mSendAbilityCooldown (members x))
               (set_mModifiedAbilities
                  (list_to_set (omap changed_ability ns) ∪ mModifiedAbilities (members x))
                  (members x))) x).
Proof.
  induction ns as [|n rest IH]; intros x.
  - open_worldX x. cbn [notify_all existsb omap list_omap list_to_set]. runX.
    rewrite (left_id_L ∅ (∪)). reflexivity.
  - cbn [notify_all]. unfold mbind at 1, MX_bind at 1.
    destruct n as [id|]; cbn [notify].
    + unfold abilityStatusChanged, update_members. rewrite IH.
      open_worldX x. runX. cbn [existsb is_cooldown omap list_omap changed_ability
                                list_to_set orb].
      rewrite union_swap. reflexivity.
    + unfold abilityCooldownActivated, update_members. rewrite IH.
      open_worldX x. runX. cbn [existsb is_cooldown omap list_omap changed_ability orb].
      rewrite orb_true_r. reflexivity.
Qed.

(** X13. Notifications are edge-triggered. Whatever run of ability-changed
    and cooldown-activated notifications a living character with nothing
    pending receives, the next [update] sends at most one ability message
    and at most one cooldown message, in that order: the ability message
    when some ability was notified, listing the notified ids that are in
    the ability table, and the cooldown message when the cooldown was
    notified, however often. *)
Theorem notifications_collapse (ns : list Notification) (x : WorldX) :
  getAction (being (core x)) <> DEAD ->
  pending_messages x = [] ->
  exists x1 x2,
    notify_all ns x = Some (tt, x1)
    /\ update x1 = Some (tt, x2)
    /\ trace (core x2)
       = trace (core x)
         ++ (if bool_decide (omap changed_ability ns = []) then []
             else [GameHandler_sendTo (ability_message x1)])
         ++ (if existsb is_cooldown ns
             then [GameHandler_sendTo (cooldown_message x)] else [])
    /\ (forall id, id ∈ listed_abilities (ability_message x1) <->
                   id ∈ omap changed_ability ns
                   /\ is_Some (getAbilities (abilityComponent x) !! id))
    /\ NoDup (listed_abilities (ability_message x1)).
Proof.
  intros Hd%is_DEAD_false Hclean.
  assert (Hp : mModifiedAbilities (members x) = ∅
               /\ mSendAbilityCooldown (members x) = false
               /\ mSendAttributePointsStatus (character (core x)) = false).
  { unfold pending_messages in Hclean.
    destruct (decide (mModifiedAbilities (members x) = ∅)) as [He|Hne];
      [|by rewrite (bool_decide_eq_false_2 _ Hne) in Hclean].
    destruct (mSendAbilityCooldown (members x)); [by destruct (bool_decide _)|].
    destruct (mSendAttributePointsStatus (character (core x)));
      [by destruct (bool_decide _)|done]. }
  destruct Hp as (Hs & Hc & Hf).
  eexists _, _. split; [apply notify_all_result|].
  split; [apply update_alive; open_worldX x; exact Hd|].
  assert (Hdirty : forall l : list Z, bool_decide ((list_to_set l ∪ ∅ : gset Z) = ∅)
                                      = bool_decide (l = [])).
  { intros l. apply bool_decide_ext. rewrite (right_id_L ∅ (∪)).
    destruct l as [|a l]; [done|]. split; [|done]. intros He. exfalso.
    assert (a ∈ (list_to_set (a :: l) : gset Z)) by set_solver. set_solver. }
  split_and!.
  - open_worldX x. simpl in Hs, Hc, Hf. subst. unfold pending_messages. runX.
    rewrite Hdirty, orb_false_r, app_nil_r. reflexivity.
  - intros id. unfold ability_message. rewrite listed_abilities_entries.
    rewrite list_elem_of_filter, elem_of_iterate.
    open_worldX x. simpl in Hs. subst. runX. set_solver.
  - unfold ability_message. rewrite listed_abilities_entries.
    apply NoDup_filter, NoDup_iterate.
Qed.

Lemma notifications_collapse_witness :
  exists x1 x2,
    notify_all [Cooldown_activated; Ability_changed 4; Ability_changed 9;
                Cooldown_activated; Ability_changed 4] (example_worldX STAND)
    = Some (tt, x1)
    /\ update x1 = Some (tt, x2)
    /\ trace (core x2)
       = [GameHandler_sendTo (mkMessageOut GPMSG_ABILITY_STATUS [Int8 4; Int32 1500]);
          GameHandler_sendTo (mkMessageOut GPMSG_ABILITY_COOLDOWN [Int16 300])].
Proof.
  destruct (notifications_collapse
              [Cooldown_activated; Ability_changed 4; Ability_changed 9;
               Cooldown_activated; Ability_changed 4] (example_worldX STAND))
    as (x1 & x2 & Hn & Hu & Ht & _); [discriminate | reflexivity |].
  exists x1, x2. split_and!; [exact Hn | exact Hu |].
  rewrite Ht. rewrite notify_all_result in Hn. injection Hn as <-.
  vm_compute. reflexivity.
Defined.

Section AttributeManager.

Variable isAttributeDirectlyModifiable : Z -> bool.

(** X14. A spent point is reported on the next tick. After a successful
    [useCharacterPoint] or [useCorrectionPoint] on a living character,
    the next [update] ends with the points-status message, and the
    message carries the two counters as the call left them. *)
Theorem spent_point_is_reported (attribute : Z) (x : WorldX) :
  getAction (being (core x)) <> DEAD ->
  forall r x1,
    (lift (useCharacterPoint isAttributeDirectlyModifiable attribute) x = Some (r, x1)
     \/ lift (useCorrectionPoint isAttributeDirectlyModifiable attribute) x = Some (r, x1)) ->
    r = ATTRIBMOD_OK ->
    exists x2,
      update x1 = Some (tt, x2)
      /\ last (trace (core x2))
         = Some (GameHandler_sendTo (points_message (character (core x1))))
      /\ mSendAttributePointsStatus (character (core x2)) = false.
Proof.
  intros Hd%is_DEAD_false r x1 Hrun ->.
  assert (H1 : is_DEAD (getAction (being (core x1))) = false
               /\ mSendAttributePointsStatus (character (core x1)) = true).
  { open_worldX x. unfold lift in Hrun. simpl in Hrun, Hd.
    destruct Hrun as [Hrun|Hrun]; revert Hrun;
      unfold useCharacterPoint, useCorrectionPoint;
      destruct (isAttributeDirectlyModifiable attribute); cbn [negb]; run;
        try discriminate.
    - destruct (mAttributePoints0 =? 0); [discriminate|].
      intros [= <-]. destruct being0. by split.
    - destruct (mCorrectionPoints0 =? 0); [discriminate|].
      destruct (PrimFloat.leb _ _); [discriminate|].
      intros [= <-]. destruct being0. by split. }
  destruct H1 as [Hd1 Hf1].
  eexists. split; [by apply update_alive|]. split; [|reflexivity].
  cbn [core set_core trace set_trace]. unfold pending_messages. rewrite Hf1.
  rewrite !app_assoc. apply last_snoc.
Qed.

End AttributeManager.

Lemma spent_point_is_reported_witness :
  exists x1 x2,
    lift (useCorrectionPoint only_1 1) (example_worldX STAND) = Some (ATTRIBMOD_OK, x1)
    /\ update x1 = Some (tt, x2)
    /\ last (trace (core x2))
       = Some (GameHandler_sendTo
                 (mkMessageOut GPMSG_ATTRIBUTE_POINTS_STATUS [Int16 3; Int16 0])).
Proof.
  assert (Hrun : exists x1, lift (useCorrectionPoint only_1 1) (example_worldX STAND)
                            = Some (ATTRIBMOD_OK, x1)
                            /\ points_message (character (core x1))
                               = mkMessageOut GPMSG_ATTRIBUTE_POINTS_STATUS
                                   [Int16 3; Int16 0]).
  { eexists. split; vm_compute; reflexivity. }
  destruct Hrun as (x1 & Hrun & Hmsg).
  destruct (spent_point_is_reported only_1 1 (example_worldX STAND))
    with (r := ATTRIBMOD_OK) (x1 := x1) as (x2 & Hu & Hl & _);
    [discriminate | by right | reflexivity |].
  exists x1, x2. split_and!; [exact Hrun | exact Hu | by rewrite Hl, Hmsg].
Defined.

End TickSpec.

Module NpcThreadSpec.

Import CInt CIntFacts Character CharacterFacts CharacterRest Runs CharacterRestFacts.

Section Conversation.

Variable Script_resume : MX bool.

(** X15. A conversation is started, and closed when its thread is done.
    [startNpcThread] destroys the thread stored before (if there is
    one), stores the new thread and [npcId] and then resumes: when the
    engine runs another thread the assertion fails; otherwise
    [script->resume()] is called on the character that already stores
    the thread and [npcId], and what it returns decides. When it reports
    that the thread is not done, [startNpcThread] returns the world the
    script left. When it reports that the thread is done, the
    dialogue-closed message for the stored NPC id is sent and the stored
    thread and NPC id are cleared, and nothing else changes. When the
    script leaves the members of the character and the destroyed threads
    as they are, the thread stored before is the only one destroyed, and
    either the thread is done, the character stores no thread and no
    NPC and the last message sent is the dialogue-closed message for
    [npcId], or it is not done and the character stores the thread and
    [npcId]. When [script->resume()] does not return, neither does
    [startNpcThread]. *)
Theorem startNpcThread_stores_or_closes (thread : N) (npcId : Z) (x : WorldX) :
  let destroyed :=
    if N.eqb (mNpcThread (members x)) 0 then [] else [mNpcThread (members x)] in
  let x0 :=
    set_members (set_mTalkNpcId npcId (set_mNpcThread thread (members x)))
      (set_deleted (deleted x ++ destroyed) x) in
  (currentThread x <> thread -> startNpcThread Script_resume thread npcId x = None)
  /\ (currentThread x = thread -> Script_resume x0 = None ->
      startNpcThread Script_resume thread npcId x = None)
  /\ (currentThread x = thread ->
      forall (finished : bool) (y : WorldX),
        Script_resume x0 = Some (finished, y) ->
        exists x',
          startNpcThread Script_resume thread npcId x = Some (tt, x')
          /\ (finished = false -> x' = y)
          /\ (finished = true ->
              x' = set_members
                     (set_mNpcThread 0%N (set_mTalkNpcId 0 (members y)))
                     (set_core
                        (set_trace
                           (trace (core y)
                            ++ [GameHandler_sendTo
                                  (mkMessageOut GPMSG_NPC_CLOSE
                                     [Int16 (mTalkNpcId (members y))])])
                           (core y)) y))
          /\ (members y = members x0 -> deleted y = deleted x0 ->
              deleted x' = deleted x ++ destroyed
              /\ if finished
                 then mNpcThread (members x') = 0%N
                      /\ mTalkNpcId (members x') = 0
                      /\ last (trace (core x'))
                         = Some (GameHandler_sendTo
                                   (mkMessageOut GPMSG_NPC_CLOSE [Int16 npcId]))
                 else mNpcThread (members x') = thread
                      /\ mTalkNpcId (members x') = npcId)).
Proof.
  intros destroyed x0. split_and!.
  - intros Hne. clear x0 destroyed. open_worldX x. simpl in Hne.
    unfold startNpcThread, resumeNpcThread. runX.
    destruct (N.eqb mNpcThread0 0); cbn [negb]; runX;
      (destruct (N.eqb_spec currentThread0 thread); [contradiction | reflexivity]).
  - intros Hcur. subst x0 destroyed. open_worldX x. simpl in Hcur. subst.
    unfold startNpcThread, resumeNpcThread. runX.
    destruct (N.eqb mNpcThread0 0); cbn [negb]; runX; rewrite N.eqb_refl;
      intros Hres; rewrite ?app_nil_r in Hres; rewrite Hres; reflexivity.
  - intros Hcur finished y. subst x0 destroyed. open_worldX x. simpl in Hcur. subst.
    unfold startNpcThread, resumeNpcThread. runX.
    destruct (N.eqb mNpcThread0 0); cbn [negb]; runX; rewrite N.eqb_refl;
      intros Hres; rewrite ?app_nil_r in Hres; rewrite Hres;
      destruct finished;
      (eexists; split; [reflexivity|]);
      (split; [intros [=]; try reflexivity|]);
      (split; [intros [=]; try (destruct y as [yw ym ? ? ? ? ?]; reflexivity)|]);
      intros Hm Hdel; destruct y as [yw ym ? ? ? ? ?]; simpl in Hm, Hdel; subst;
      simpl; rewrite ?app_nil_r; split_and!; try reflexivity; apply last_snoc.
Qed.

End Conversation.

Lemma startNpcThread_stores_or_closes_witness :
  let x := mkWorldX (example_world STAND) (mkMembers ∅ false ∅ 11 6%N)
             (mkAbilityComponent ∅ 0) None None 8%N [] in
  (exists x', startNpcThread (fun y => Some (true, y)) 8%N 12 x = Some (tt, x')
              /\ deleted x' = [6%N]
              /\ mNpcThread (members x') = 0%N
              /\ last (trace (core x'))
                 = Some (GameHandler_sendTo (mkMessageOut GPMSG_NPC_CLOSE [Int16 12])))
  /\ (exists x', startNpcThread (fun y => Some (false, y)) 8%N 12 x = Some (tt, x')
                 /\ mNpcThread (members x') = 8%N
                 /\ mTalkNpcId (members x') = 12)
  /\ startNpcThread (fun y => Some (false, y)) 9%N 12 x = None.
Proof.
  intros x. split_and!.
  - destruct (startNpcThread_stores_or_closes (fun y => Some (true, y)) 8%N 12 x)
      as (_ & _ & H).
    destruct (H eq_refl true _ eq_refl) as (x' & Hrun & _ & _ & Hframe).
    destruct (Hframe eq_refl eq_refl) as (Hdel & Ht & _ & Hlast).
    exists x'. split_and!; [exact Hrun | exact Hdel | exact Ht | exact Hlast].
  - destruct (startNpcThread_stores_or_closes (fun y => Some (false, y)) 8%N 12 x)
      as (_ & _ & H).
    destruct (H eq_refl false _ eq_refl) as (x' & Hrun & _ & _ & Hframe).
    destruct (Hframe eq_refl eq_refl) as (_ & Ht & Hn).
    exists x'. split_and!; [exact Hrun | exact Ht | exact Hn].
  - destruct (startNpcThread_stores_or_closes (fun y => Some (false, y)) 9%N 12 x)
      as (H & _).
    apply H. discriminate.
Defined.

End NpcThreadSpec.

Module CompositionSpec.

Import CInt CIntFacts Character CharacterFacts RespawnFacts SyncFacts CharacterRest.

(** X16. A dead character that disconnects is revived. When no
    death-accepted callback is registered, [disconnected] on a dead
    character leaves it not connected, standing, with the base of
    [ATTR_HP] at the modified [ATTR_MAX_HP] and [ATTR_HP] marked dirty;
    a [respawn] after that is refused with the warning and changes
    nothing. *)
Theorem disconnect_revives_the_dead
    (ATTR_HP ATTR_MAX_HP : Z) (Script_execute : N -> Z -> M unit)
    (GameState_remove : M unit) (w : World) :
  getAction (being w) = DEAD ->
  mDeathAcceptedCallback w = None ->
  exists w',
    exec (disconnected ATTR_HP ATTR_MAX_HP Script_execute GameState_remove) w = Some w'
    /\ mConnected (character w') = false
    /\ getAction (being w') = STAND
    /\ getAttributeBase (being w') (to_unsigned ATTR_HP)
       = getModifiedAttribute (being w) (to_unsigned ATTR_MAX_HP)
    /\ to_unsigned ATTR_HP ∈ mModifiedAttributes (character w')
    /\ respawn ATTR_HP ATTR_MAX_HP Script_execute w'
       = Some (tt, set_trace (trace w' ++ [LOG_WARN_respawn_without_being_dead]) w').
Proof.
  intros Hd%is_DEAD_true Hf. unfold exec, disconnected.
  set (w0 := set_character (set_mConnected false (character w)) w).
  assert (Hd0 : is_DEAD (getAction (being w0)) = true) by exact Hd.
  assert (Hf0 : mDeathAcceptedCallback w0 = None) by exact Hf.
  unfold mbind at 1, M_bind at 1, update_this at 1. fold w0.
  unfold mbind at 1, M_bind at 1, world at 1.
  unfold mbind at 1, M_bind at 1.
  rewrite Hd0, (respawn_fallback _ _ _ _ Hd0 Hf0).
  eexists. split; [reflexivity|].
  split_and!.
  - reflexivity.
  - reflexivity.
  - unfold respawned. run. apply getAttributeBase_setBase.
  - unfold respawned. run. set_solver.
  - apply respawn_not_dead. reflexivity.
Qed.

Lemma disconnect_revives_the_dead_witness :
  exists w',
    exec (disconnected 13 14 (fun _ _ => mret tt) (mret tt)) (example_world DEAD) = Some w'
    /\ getAction (being w') = STAND
    /\ getAttributeBase (being w') 13 = 25%float.
Proof.
  destruct (disconnect_revives_the_dead 13 14 (fun _ _ => mret tt) (mret tt)
              (example_world DEAD)) as (w' & Hrun & _ & Ha & Hhp & _);
    [reflexivity | reflexivity |].
  exists w'. split_and!; [exact Hrun | exact Ha |].
  etrans; [exact Hhp|]. vm_compute. reflexivity.
Defined.

Lemma iterate_singleton (id : Z) : iterate {[id]} = [id].
Proof. unfold iterate. by rewrite elements_singleton. Qed.

(** X17. The flush carries the last value. When an attribute is set twice
    before the flush, [sendStatus] sends one message with one entry for
    it, carrying the base of the second call (times 256) and the modified
    value computed from it; a second [sendStatus] sends nothing. *)
Theorem sendStatus_carries_last_value (id : Z) (v1 v2 : float) (w : World) :
  0 <= id <= INT_MAX ->
  mModifiedAttributes (character w) = ∅ ->
  exists w1 w2 w3,
    (setAttribute id v1;; setAttribute id v2) w = Some (tt, w1)
    /\ getAttributeBase (being w1) id = v2
    /\ sendStatus w1 = Some (tt, w2)
    /\ new_calls w1 w2
       = [GameHandler_sendTo
            (mkMessageOut GPMSG_PLAYER_ATTRIBUTE_CHANGE
               [Int16 id;
                Int32_of_double (PrimFloat.mul v2 256%float);
                Int32_of_double
                  (PrimFloat.mul (getModifiedAttribute (being w1) id) 256%float)])]
    /\ sendStatus w2 = Some (tt, w3)
    /\ new_calls w2 w3 = [].
Proof.
  intros Hid Hclean.
  assert (Hw : wrap_int id = id)
    by (apply wrap_int_id; unfold in_int, INT_MIN, INT_MAX in *; lia).
  assert (Hu : to_unsigned id = id)
    by (unfold to_unsigned; apply Z.mod_small; unfold INT_MAX in *; lia).
  eexists _, _, _. split; [reflexivity|].
  assert (Hdirty : forall s : gset Z, s = ∅ -> {[id]} ∪ ({[id]} ∪ s) = {[id]})
    by (intros s ->; set_solver).
  split_and!.
  - open_world w. run. apply getAttributeBase_setBase.
  - apply sendStatus_result.
  - open_world w. subst. run. rewrite (Hdirty ∅ eq_refl), iterate_singleton.
    unfold new_calls. run.
    match goal with
    | |- drop _ (?l ++ [?x; ?y; ?z]) = _ =>
        change (l ++ [x; y; z]) with (l ++ [x; y] ++ [z]);
        rewrite (app_assoc l), drop_app_length
    end.
    unfold status_message. run. rewrite iterate_singleton.
    cbn [flat_map entry app]. rewrite ?Hw, ?Hu.
    by rewrite getAttributeBase_setBase.
  - apply sendStatus_result.
  - open_world w. subst. run. rewrite (Hdirty ∅ eq_refl), iterate_singleton.
    unfold new_calls. run. unfold iterate. rewrite elements_empty. simpl.
    run. apply drop_all.
Qed.

Lemma sendStatus_carries_last_value_witness :
  exists w1 w2,
    (setAttribute 14 9%float;; setAttribute 14 30%float) (example_world STAND)
    = Some (tt, w1)
    /\ sendStatus w1 = Some (tt, w2)
    /\ new_calls w1 w2
       = [GameHandler_sendTo
            (mkMessageOut GPMSG_PLAYER_ATTRIBUTE_CHANGE
               [Int16 14; Int32_of_double 7680%float; Int32_of_double 8960%float])].
Proof.
  destruct (sendStatus_carries_last_value 14 9%float 30%float (example_world STAND))
    as (w1 & w2 & w3 & Hrun & _ & Hsend & Hcalls & _);
    [vm_compute; split; discriminate | reflexivity |].
  exists w1, w2. split_and!; [exact Hrun | exact Hsend |].
  rewrite Hcalls. vm_compute in Hrun. injection Hrun as <-. vm_compute. reflexivity.
Defined.

Section Recalculate.

Variable recalculateBaseAttribute : Z -> M unit.

Hypothesis recalculate_returns :
  forall id v, exists v',
    recalculateBaseAttribute id v = Some (tt, v')
    /\ dom (mAttributes (being v')) = dom (mAttributes (being v))
    /\ mModifiedAttributes (character v) ⊆ mModifiedAttributes (character v').

Lemma modifiedAllAttributes_loop_marks ids : forall v,
  exists v',
    modifiedAllAttributes_loop recalculateBaseAttribute ids v = Some (tt, v')
    /\ dom (mAttributes (being v')) = dom (mAttributes (being v))
    /\ list_to_set ids ∪ mModifiedAttributes (character v)
       ⊆ mModifiedAttributes (character v').
Proof.
  induction ids as [|id rest IH]; intros v.
  - exists v. split; [reflexivity|]. split; [reflexivity|]. set_solver.
  - cbn [modifiedAllAttributes_loop]. unfold mbind at 1, M_bind at 1.
    destruct (recalculate_returns id v) as (v1 & Hr & Hdom & Hsub). rewrite Hr.
    unfold mbind at 1, M_bind at 1, update_this at 1.
    match goal with
    | |- context [modifiedAllAttributes_loop _ rest ?v2] =>
        destruct (IH v2) as (v' & Hrun & Hdom' & Hsub')
    end.
    exists v'. split; [exact Hrun|].
    destruct v1 as [c1 ? ? ? ? ? ?]. destruct c1. simpl in *.
    split; [congruence | set_solver].
Qed.

End Recalculate.

(** X18. A full resynchronisation marks everything. When
    [recalculateBaseAttribute] returns, keeps the ids of the attributes
    the being holds and removes no dirty mark, [modifiedAllAttributes]
    returns and every attribute the being holds is dirty afterwards,
    beside what was dirty before; the [sendStatus] that follows sends a
    message as soon as the being holds an attribute. *)
Theorem modifiedAllAttributes_marks_all
    (recalculateBaseAttribute : Z -> M unit) (w : World) :
  (forall id v, exists v',
      recalculateBaseAttribute id v = Some (tt, v')
      /\ dom (mAttributes (being v')) = dom (mAttributes (being v))
      /\ mModifiedAttributes (character v) ⊆ mModifiedAttributes (character v')) ->
  exists w',
    modifiedAllAttributes recalculateBaseAttribute w = Some (tt, w')
    /\ (forall id, is_Some (mAttributes (being w') !! id) ->
                   id ∈ mModifiedAttributes (character w'))
    /\ mModifiedAttributes (character w) ⊆ mModifiedAttributes (character w')
    /\ (mAttributes (being w) <> ∅ ->
        exists w'', sendStatus w' = Some (tt, w'')
                    /\ new_calls w' w'' = [GameHandler_sendTo (status_message w')]).
Proof.
  intros Hrec. unfold modifiedAllAttributes.
  unfold mbind at 1, M_bind at 1, world at 1.
  destruct (modifiedAllAttributes_loop_marks recalculateBaseAttribute Hrec
              (iterate (dom (mAttributes (being w)))) w) as (w' & Hrun & Hdom & Hsub).
  assert (Hall : forall id, is_Some (mAttributes (being w') !! id) ->
                            id ∈ mModifiedAttributes (character w')).
  { intros id Hid%elem_of_dom. rewrite Hdom in Hid. apply Hsub, elem_of_union. left.
    by apply elem_of_list_to_set, elem_of_iterate. }
  exists w'. split; [exact Hrun|]. split_and!.
  - exact Hall.
  - set_solver.
  - intros Hne. eexists. split; [apply sendStatus_result|].
    destruct (iterate (mModifiedAttributes (character w'))) as [|i ids] eqn:E.
    + exfalso. apply Hne. apply map_empty. intros id.
      destruct (mAttributes (being w) !! id) as [a|] eqn:Ea; [|done].
      assert (Hin : id ∈ iterate (mModifiedAttributes (character w'))).
      { apply elem_of_iterate, Hall, elem_of_dom. rewrite Hdom.
        apply elem_of_dom. by exists a. }
      rewrite E in Hin. by apply elem_of_nil in Hin.
    + unfold new_calls. destruct w' as [c ? ? ? ? ? ?]. destruct c. simpl.
      by rewrite drop_app_length.
Qed.

Lemma modifiedAllAttributes_marks_all_witness :
  exists w',
    modifiedAllAttributes attributeChanged (example_world STAND) = Some (tt, w')
    /\ iterate (mModifiedAttributes (character w')) = [1; 13; 14].
Proof.
  destruct (modifiedAllAttributes_marks_all attributeChanged (example_world STAND))
    as (w' & Hrun & _).
  - intros id v. eexists. split; [reflexivity|].
    destruct v as [c ? ? ? ? ? ?]. destruct c. simpl. split; [reflexivity | set_solver].
  - exists w'. split; [exact Hrun|].
    vm_compute in Hrun. injection Hrun as <-. vm_compute. reflexivity.
Defined.

End CompositionSpec.
